(** * url_scraper_md_formatter: Swagger detection, extraction and the
      per-URL processing pipeline

    A shallow embedding of [src/url_scraper_md_formatter.py].  Python
    objects become Rocq data: [str] is [string], a [dict] used as a map is
    a [gmap], a [dict] or [list] whose order is observable is a [list],
    a Python [float] is a binary64 [float] of the kernel, an exception is
    the [Raise] case of [result].  Collaborators outside the file (the
    network, BeautifulSoup, [re], [json], [urllib], the clock, Bedrock)
    are Section variables: every statement holds for any behaviour they
    may have. *)

From Stdlib Require Import ZArith QArith List String Ascii Bool Lia Lqa.
From Stdlib Require Import Floats.PrimFloat.
From stdpp Require Import gmap strings list.

Set Default Proof Using "Type".
#[local] Set Warnings "-inexact-float,-clear-no-such-hyp".

(** ** Python exceptions and fallible computations *)

(** The exception classes the file raises or catches.  [CancelledError]
    derives from [BaseException] only, the others from [Exception];
    [ClientResponseError] derives from [ClientError]. *)
Inductive exn : Type :=
  | JSONDecodeError
  | RecursionError
  | AttributeError
  | TypeError
  | KeyError
  | TimeoutError
  | CancelledError
  | ClientError
  | ClientResponseError
  | OtherException.

(** [except Exception] *)
Definition is_Exception (e : exn) : bool :=
  match e with
  | CancelledError => false
  | _ => true
  end.

(** [except aiohttp.ClientError] *)
Definition is_ClientError (e : exn) : bool :=
  match e with
  | ClientError | ClientResponseError => true
  | _ => false
  end.

(** [except asyncio.TimeoutError] *)
Definition is_TimeoutError (e : exn) : bool :=
  match e with
  | TimeoutError => true
  | _ => false
  end.

(** [except json.JSONDecodeError] *)
Definition is_JSONDecodeError (e : exn) : bool :=
  match e with
  | JSONDecodeError => true
  | _ => false
  end.

Inductive result (A : Type) : Type :=
  | Ok (a : A)
  | Raise (e : exn).
Arguments Ok {A} a.
Arguments Raise {A} e.

Definition rbind {A B : Type} (m : result A) (k : A -> result B) : result B :=
  match m with
  | Ok a => k a
  | Raise e => Raise e
  end.

Notation "x <-? m ;; k" := (rbind m (fun x => k))
  (at level 100, m at next level, right associativity).

(** Monadic left-to-right iteration, a [for] loop whose body may raise. *)
Fixpoint rfold {A B : Type} (f : B -> A -> result B) (l : list A) (b : B) : result B :=
  match l with
  | [] => Ok b
  | x :: l' => b' <-? f b x ;; rfold f l' b'
  end.

(** ** Python string operations (ASCII) *)

Module Py.

Definition lower_ascii (c : ascii) : ascii :=
  let n := nat_of_ascii c in
  if (65 <=? n)%nat && (n <=? 90)%nat then ascii_of_nat (n + 32) else c.

Definition upper_ascii (c : ascii) : ascii :=
  let n := nat_of_ascii c in
  if (97 <=? n)%nat && (n <=? 122)%nat then ascii_of_nat (n - 32) else c.

Fixpoint map_string (f : ascii -> ascii) (s : string) : string :=
  match s with
  | EmptyString => EmptyString
  | String c s' => String (f c) (map_string f s')
  end.

(** [s.lower()], [s.upper()]: characters outside ASCII are left as they are. *)
Definition lower : string -> string := map_string lower_ascii.
Definition upper : string -> string := map_string upper_ascii.

(** [needle in hay] on two strings *)
Fixpoint contains (needle hay : string) : bool :=
  String.prefix needle hay ||
  match hay with
  | EmptyString => false
  | String _ hay' => contains needle hay'
  end.

Definition rev_string (s : string) : string :=
  string_of_list_ascii (rev (list_ascii_of_string s)).

(** [s.endswith(suffix)] *)
Definition endswith (s suffix : string) : bool :=
  String.prefix (rev_string suffix) (rev_string s).

Fixpoint lstrip_char (c : ascii) (s : string) : string :=
  match s with
  | EmptyString => EmptyString
  | String d s' => if Ascii.eqb c d then lstrip_char c s' else s
  end.

(** [s.rstrip(c)] for a one-character argument *)
Definition rstrip_char (c : ascii) (s : string) : string :=
  rev_string (lstrip_char c (rev_string s)).

Fixpoint replace_go (old new s : string) (skip : nat) : string :=
  match s with
  | EmptyString => EmptyString
  | String c s' =>
      match skip with
      | S k => replace_go old new s' k
      | O =>
          if String.prefix old s
          then new ++ replace_go old new s' (String.length old - 1)
          else String c (replace_go old new s' 0)
      end
  end.

(** [s.replace(old, new)] for a non-empty [old]: every occurrence, left to
    right, without overlap. *)
Definition replace (old new s : string) : string := replace_go old new s 0.

(** [s.split(c)[0]]: the text before the first [c], or all of [s]. *)
Fixpoint before_first (c : ascii) (s : string) : string :=
  match s with
  | EmptyString => EmptyString
  | String d s' => if Ascii.eqb c d then EmptyString else String d (before_first c s')
  end.

Fixpoint drop_through_first (c : ascii) (s : string) : string :=
  match s with
  | EmptyString => EmptyString
  | String d s' => if Ascii.eqb c d then s' else drop_through_first c s'
  end.

(** [c.join(s.split(c)[:-1])]: the text before the last [c]; empty when
    [s] has no [c]. *)
Definition before_last (c : ascii) (s : string) : string :=
  if contains (String c EmptyString) s
  then rev_string (drop_through_first c (rev_string s))
  else EmptyString.

(** [x in l] on a list of strings *)
Definition in_list (x : string) (l : list string) : bool :=
  existsb (String.eqb x) l.

(** [min(a, b)] on floats: the first argument unless the second is
    strictly smaller. *)
Definition min (a b : float) : float := if PrimFloat.ltb b a then b else a.

End Py.

(** ** ProcessingStats *)

Module Stats.

Inductive FailureReason : Type :=
  | CONNECTION_ERROR
  | TIMEOUT_ERROR
  | HTTP_ERROR
  | PROCESSING_ERROR
  | CONTENT_EXTRACTION_ERROR
  | BEDROCK_ERROR
  | SWAGGER_DETECTION_ERROR
  | OPENAPI_SPEC_ERROR
  | API_ENDPOINT_EXTRACTION_ERROR
  | UNKNOWN_ERROR.

(** [reason.value] *)
Definition value (r : FailureReason) : string :=
  match r with
  | CONNECTION_ERROR => "connection_error"
  | TIMEOUT_ERROR => "timeout_error"
  | HTTP_ERROR => "http_error"
  | PROCESSING_ERROR => "processing_error"
  | CONTENT_EXTRACTION_ERROR => "content_extraction_error"
  | BEDROCK_ERROR => "bedrock_error"
  | SWAGGER_DETECTION_ERROR => "swagger_detection_error"
  | OPENAPI_SPEC_ERROR => "openapi_spec_error"
  | API_ENDPOINT_EXTRACTION_ERROR => "api_endpoint_extraction_error"
  | UNKNOWN_ERROR => "unknown_error"
  end.

(** The value stored under a URL in [failed_urls]. *)
Record FailureInfo : Type := {
  reason : string;
  error_msg : string;
  timestamp : string
}.

Record ProcessingStats : Type := {
  base_url : string;
  total_urls_discovered : nat;
  successful_urls : list string;
  failed_urls : gmap string FailureInfo;
  swagger_pages_detected : nat;
  api_endpoints_extracted : nat;
  swagger_extraction_methods : gmap string nat;
  swagger_urls : list string
}.

(** [ProcessingStats(base_url=b)]: every other field at its default. *)
Definition new (b : string) : ProcessingStats :=
  {| base_url := b;
     total_urls_discovered := 0;
     successful_urls := [];
     failed_urls := ∅;
     swagger_pages_detected := 0;
     api_endpoints_extracted := 0;
     swagger_extraction_methods := ∅;
     swagger_urls := [] |}.

Definition success_count (s : ProcessingStats) : nat := length (successful_urls s).

Definition failure_count (s : ProcessingStats) : nat := size (failed_urls s).

Definition with_successful_urls (l : list string) (s : ProcessingStats) : ProcessingStats :=
  {| base_url := base_url s;
     total_urls_discovered := total_urls_discovered s;
     successful_urls := l;
     failed_urls := failed_urls s;
     swagger_pages_detected := swagger_pages_detected s;
     api_endpoints_extracted := api_endpoints_extracted s;
     swagger_extraction_methods := swagger_extraction_methods s;
     swagger_urls := swagger_urls s |}.

Definition with_failed_urls (m : gmap string FailureInfo) (s : ProcessingStats) : ProcessingStats :=
  {| base_url := base_url s;
     total_urls_discovered := total_urls_discovered s;
     successful_urls := successful_urls s;
     failed_urls := m;
     swagger_pages_detected := swagger_pages_detected s;
     api_endpoints_extracted := api_endpoints_extracted s;
     swagger_extraction_methods := swagger_extraction_methods s;
     swagger_urls := swagger_urls s |}.

(** [add_success]: append unless the URL is already listed. *)
Definition add_success (url : string) (s : ProcessingStats) : ProcessingStats :=
  if Py.in_list url (successful_urls s)
  then s
  else with_successful_urls (successful_urls s ++ [url]) s.

(** [add_failure]: [failed_urls[url] = {...}]; [now] is the reading of
    [datetime.now().isoformat()]. *)
Definition add_failure (url : string) (r : FailureReason) (msg now : string)
    (s : ProcessingStats) : ProcessingStats :=
  with_failed_urls
    (<[url := {| reason := value r; error_msg := msg; timestamp := now |}]> (failed_urls s)) s.

(** [add_swagger_detection] *)
Definition add_swagger_detection (url extraction_method : string) (endpoints_count : nat)
    (s : ProcessingStats) : ProcessingStats :=
  {| base_url := base_url s;
     total_urls_discovered := total_urls_discovered s;
     successful_urls := successful_urls s;
     failed_urls := failed_urls s;
     swagger_pages_detected := swagger_pages_detected s + 1;
     api_endpoints_extracted := api_endpoints_extracted s + endpoints_count;
     swagger_extraction_methods :=
       <[extraction_method := default 0 (swagger_extraction_methods s !! extraction_method) + 1]>
         (swagger_extraction_methods s);
     swagger_urls := swagger_urls s ++ [url] |}.

End Stats.

(** ** JSON values and the Python operations the scraper applies to them *)

Module J.

#[local] Set Warnings "-register-all".

(** What [json.loads] builds.  A [dict] keeps its insertion order and its
    keys are strings. *)
Inductive json : Type :=
  | JNull
  | JBool (b : bool)
  | JInt (n : Z)
  | JFloat (f : float)
  | JStr (s : string)
  | JArr (l : list json)
  | JObj (kvs : list (string * json)).

(** [bool(v)] *)
Definition truthy (v : json) : bool :=
  match v with
  | JNull => false
  | JBool b => b
  | JInt n => negb (n =? 0)%Z
  | JFloat f => negb (PrimFloat.eqb f 0%float)
  | JStr s => negb (String.eqb s EmptyString)
  | JArr l => negb (Nat.eqb (length l) 0)
  | JObj kvs => negb (Nat.eqb (length kvs) 0)
  end.

Fixpoint assoc {A : Type} (k : string) (kvs : list (string * A)) : option A :=
  match kvs with
  | [] => None
  | (k', v) :: kvs' => if String.eqb k k' then Some v else assoc k kvs'
  end.

(** [d[k] = v] on a dict kept in insertion order: an existing key keeps
    its place. *)
Fixpoint assoc_set {A : Type} (k : string) (v : A) (kvs : list (string * A)) : list (string * A) :=
  match kvs with
  | [] => [(k, v)]
  | (k', v') :: kvs' =>
      if String.eqb k k' then (k, v) :: kvs' else (k', v') :: assoc_set k v kvs'
  end.

(** [v.get(k, default)]: only a dict has [get]. *)
Definition get (v : json) (k : string) (default : json) : result json :=
  match v with
  | JObj kvs => Ok (from_option id default (assoc k kvs))
  | _ => Raise AttributeError
  end.

(** [v.items()] *)
Definition items (v : json) : result (list (string * json)) :=
  match v with
  | JObj kvs => Ok kvs
  | _ => Raise AttributeError
  end.

Definition is_str (s : string) (v : json) : bool :=
  match v with
  | JStr s' => String.eqb s s'
  | _ => false
  end.

(** [k in v] for a string [k]: a key of a dict, an element of a list, a
    substring of a string; any other value is not iterable. *)
Definition has (k : string) (v : json) : result bool :=
  match v with
  | JObj kvs => Ok (match assoc k kvs with Some _ => true | None => false end)
  | JArr l => Ok (existsb (is_str k) l)
  | JStr s => Ok (Py.contains k s)
  | _ => Raise TypeError
  end.

(** [v[k]] for a string [k] *)
Definition subscript (v : json) (k : string) : result json :=
  match v with
  | JObj kvs =>
      match assoc k kvs with
      | Some x => Ok x
      | None => Raise KeyError
      end
  | _ => Raise TypeError
  end.

Fixpoint chars (s : string) : list json :=
  match s with
  | EmptyString => []
  | String c s' => JStr (String c EmptyString) :: chars s'
  end.

(** [for x in v]: the elements of a list, the keys of a dict, the
    characters of a string. *)
Definition iter (v : json) : result (list json) :=
  match v with
  | JArr l => Ok l
  | JObj kvs => Ok (map (fun kv => JStr (fst kv)) kvs)
  | JStr s => Ok (chars s)
  | _ => Raise TypeError
  end.

End J.

(** ** SwaggerEnhancedScraper: the endpoint model *)

Module Model.
Import J.

(** An entry of an endpoint's ['parameters'].  A key the source leaves
    out ([in], [type] and [example] of a parameter scraped from HTML) is
    [JNull] here: the code reads these dicts through [get] only. *)
Record ParamInfo : Type := {
  param_name : json;
  param_in : json;
  param_required : json;
  param_type : json;
  param_description : json;
  param_example : json
}.

(** An entry of an endpoint's ['examples']: a dict with a ['type'] (with
    its optional ['name'], ['status_code'], ['content_type'] and its
    ['example']), or a value taken over as it is. *)
Inductive ExampleRecord : Type :=
  | Example (type : string) (name status_code content_type : option string) (example : json)
  | RawExample (v : json).

Record ResponseInfo : Type := {
  resp_description : json;
  resp_schema : json;
  resp_examples : list (string * json)
}.

Record Endpoint : Type := {
  method : string;
  path : string;
  summary : json;
  description : json;
  parameters : list ParamInfo;
  responses : list (string * ResponseInfo);
  examples : list ExampleRecord
}.

Record ApiInfo : Type := {
  title : json;
  version : json;
  info_description : json;
  info_base_url : json
}.

Record ApiData : Type := {
  api_info : ApiInfo;
  endpoints : list Endpoint;
  total_endpoints : nat
}.

(** The result of [extract_examples_from_html]. *)
Record HtmlExamples : Type := {
  parameter_examples : list string;
  response_examples : list string;
  code_examples : list string
}.

Definition with_examples (exs : list ExampleRecord) (e : Endpoint) : Endpoint :=
  {| method := method e;
     path := path e;
     summary := summary e;
     description := description e;
     parameters := parameters e;
     responses := responses e;
     examples := exs |}.

Definition with_parameters (ps : list ParamInfo) (e : Endpoint) : Endpoint :=
  {| method := method e;
     path := path e;
     summary := summary e;
     description := description e;
     parameters := ps;
     responses := responses e;
     examples := examples e |}.

Definition with_param_example (x : json) (p : ParamInfo) : ParamInfo :=
  {| param_name := param_name p;
     param_in := param_in p;
     param_required := param_required p;
     param_type := param_type p;
     param_description := param_description p;
     param_example := x |}.

End Model.

(** ** SwaggerEnhancedScraper.parse_openapi_spec *)

Module SpecParser.
Import J Model.

Definition empty : json := JStr EmptyString.

(** The method names line 294 accepts, compared with [method.lower()]. *)
Definition HTTP_METHODS : list string :=
  ["get"; "post"; "put"; "delete"; "patch"; "options"; "head"].

Definition recognized (method : string) : bool :=
  Py.in_list (Py.lower method) HTTP_METHODS.

(** Lines 306-315: one entry of [operation.get('parameters', [])]. *)
Definition parse_parameter (param : json) : result ParamInfo :=
  n <-? get param "name" JNull ;;
  i <-? get param "in" JNull ;;
  r <-? get param "required" (JBool false) ;;
  t <-? get param "type" empty ;;
  d <-? get param "description" empty ;;
  e <-? get param "example" JNull ;;
  Ok {| param_name := n; param_in := i; param_required := r;
        param_type := t; param_description := d; param_example := e |}.

(** Lines 321-335: the examples of one content type of a request body. *)
Definition request_content_examples (exs : list ExampleRecord) (entry : string * json)
    : result (list ExampleRecord) :=
  let '(content_type, content_info) := entry in
  has_example <-? has "example" content_info ;;
  exs1 <-? (if has_example : bool
            then x <-? subscript content_info "example" ;;
                 Ok (exs ++ [Example "request_body" None None (Some content_type) x])
            else Ok exs) ;;
  has_examples <-? has "examples" content_info ;;
  if has_examples : bool
  then named <-? subscript content_info "examples" ;;
       named_items <-? items named ;;
       rfold (fun acc (named_entry : string * json) =>
                let '(example_name, example_data) := named_entry in
                x <-? get example_data "value" example_data ;;
                Ok (acc ++ [Example "request_body" (Some example_name) None (Some content_type) x]))
             named_items exs1
  else Ok exs1.

(** Lines 318-335 *)
Definition request_body_examples (operation : json) : result (list ExampleRecord) :=
  has_body <-? has "requestBody" operation ;;
  if has_body : bool
  then request_body <-? subscript operation "requestBody" ;;
       has_content <-? has "content" request_body ;;
       if has_content : bool
       then content <-? subscript request_body "content" ;;
            content_items <-? items content ;;
            rfold request_content_examples content_items []
       else Ok []
  else Ok [].

(** Lines 347-366: the examples of one content type of a response; the
    state is the response's own example map and the endpoint's examples. *)
Definition response_content_examples (status_code : string)
    (st : list (string * json) * list ExampleRecord) (entry : string * json)
    : result (list (string * json) * list ExampleRecord) :=
  let '(content_type, content_info) := entry in
  has_example <-? has "example" content_info ;;
  st1 <-? (if has_example : bool
           then x <-? subscript content_info "example" ;;
                Ok (assoc_set content_type x (fst st),
                    snd st ++ [Example "response" None (Some status_code) (Some content_type) x])
           else Ok st) ;;
  has_examples <-? has "examples" content_info ;;
  if has_examples : bool
  then named <-? subscript content_info "examples" ;;
       named_items <-? items named ;;
       rfold (fun (acc : list (string * json) * list ExampleRecord) (named_entry : string * json) =>
                let '(example_name, example_data) := named_entry in
                x <-? get example_data "value" example_data ;;
                Ok (assoc_set (content_type ++ "_" ++ example_name) x (fst acc),
                    snd acc ++ [Example "response" (Some example_name) (Some status_code)
                                  (Some content_type) x]))
             named_items st1
  else Ok st1.

(** [d.update(v)] followed by [v.items()] (lines 370-371): for a dict the
    merged map and the items.  For any other value one of the two calls
    raises ([TypeError], [ValueError] or [AttributeError]); the model
    does not tell which and says [TypeError]. *)
Definition update_then_items (d : list (string * json)) (v : json)
    : result (list (string * json) * list (string * json)) :=
  match v with
  | JObj kvs => Ok (fold_left (fun acc kv => assoc_set (fst kv) (snd kv) acc) kvs d, kvs)
  | _ => Raise TypeError
  end.

(** Lines 338-379: one entry of [operation.get('responses', {})]. *)
Definition parse_response
    (st : list (string * ResponseInfo) * list ExampleRecord) (entry : string * json)
    : result (list (string * ResponseInfo) * list ExampleRecord) :=
  let '(status_code, response) := entry in
  d <-? get response "description" empty ;;
  sch <-? get response "schema" (JObj []) ;;
  has_content <-? has "content" response ;;
  st1 <-? (if has_content : bool
           then content <-? subscript response "content" ;;
                content_items <-? items content ;;
                rfold (response_content_examples status_code) content_items ([], snd st)
           else Ok ([], snd st)) ;;
  has_examples <-? has "examples" response ;;
  st2 <-? (if has_examples : bool
           then legacy <-? subscript response "examples" ;;
                merged <-? update_then_items (fst st1) legacy ;;
                Ok (fst merged,
                    snd st1 ++ map (fun kv : string * json =>
                                      Example "response" (Some (fst kv)) (Some status_code) None (snd kv))
                                   (snd merged))
           else Ok st1) ;;
  Ok (assoc_set status_code
        {| resp_description := d; resp_schema := sch; resp_examples := fst st2 |} (fst st),
      snd st2).

(** Lines 382-391: the non-standard ['examples'] of the operation. *)
Definition operation_examples (operation : json) (exs : list ExampleRecord)
    : result (list ExampleRecord) :=
  has_examples <-? has "examples" operation ;;
  if has_examples : bool
  then x <-? subscript operation "examples" ;;
       match x with
       | JArr l => Ok (exs ++ map RawExample l)
       | JObj kvs =>
           Ok (exs ++ map (fun kv : string * json =>
                             Example "operation" (Some (fst kv)) None None (snd kv)) kvs)
       | _ => Ok exs
       end
  else Ok exs.

(** Lines 295-393: the endpoint of one recognized (path, method) pair. *)
Definition parse_operation (path method : string) (operation : json) : result Endpoint :=
  s <-? get operation "summary" empty ;;
  d <-? get operation "description" empty ;;
  ps <-? get operation "parameters" (JArr []) ;;
  params <-? iter ps ;;
  parameters <-? rfold (fun acc param => p <-? parse_parameter param ;; Ok (acc ++ [p])) params [] ;;
  exs1 <-? request_body_examples operation ;;
  rs <-? get operation "responses" (JObj []) ;;
  response_items <-? items rs ;;
  st <-? rfold parse_response response_items ([], exs1) ;;
  exs3 <-? operation_examples operation (snd st) ;;
  Ok {| method := Py.upper method;
        path := path;
        summary := s;
        description := d;
        parameters := parameters;
        responses := fst st;
        examples := exs3 |}.

(** Lines 293-393: the loop over the methods of one path. *)
Definition parse_methods (path : string) (eps : list Endpoint) (entry : string * json)
    : result (list Endpoint) :=
  let '(method, operation) := entry in
  if recognized method
  then ep <-? parse_operation path method operation ;; Ok (eps ++ [ep])
  else Ok eps.

(** Lines 292-393: the loop over the paths. *)
Definition parse_path (eps : list Endpoint) (entry : string * json) : result (list Endpoint) :=
  let '(path, methods) := entry in
  method_items <-? items methods ;;
  rfold (parse_methods path) method_items eps.

Section Parse.

(** Python's [+] on two JSON values (line 400); on two strings it
    concatenates. *)
Variable py_add : json -> json -> result json.

Definition parse_openapi_spec (spec_data : json) : result ApiData :=
  paths <-? get spec_data "paths" (JObj []) ;;
  path_items <-? items paths ;;
  endpoints <-? rfold parse_path path_items [] ;;
  info1 <-? get spec_data "info" (JObj []) ;;
  t <-? get info1 "title" empty ;;
  info2 <-? get spec_data "info" (JObj []) ;;
  v <-? get info2 "version" empty ;;
  info3 <-? get spec_data "info" (JObj []) ;;
  d <-? get info3 "description" empty ;;
  host <-? get spec_data "host" empty ;;
  basePath <-? get spec_data "basePath" empty ;;
  b <-? py_add host basePath ;;
  Ok {| api_info := {| title := t; version := v; info_description := d; info_base_url := b |};
        endpoints := endpoints;
        total_endpoints := length endpoints |}.

End Parse.

(** *** What the document declares *)

(** The (path, method) pairs of the document's ['paths'] object whose
    method key passes [test], in document order. *)
Definition operations_where (test : string -> bool) (spec_data : json) : list (string * string) :=
  match spec_data with
  | JObj kvs =>
      match assoc "paths" kvs with
      | Some (JObj path_items) =>
          flat_map (fun entry : string * json =>
                      match snd entry with
                      | JObj method_items =>
                          map (fun m : string * json => (fst entry, fst m))
                              (List.filter (fun m : string * json => test (fst m)) method_items)
                      | _ => []
                      end) path_items
      | _ => []
      end
  | _ => []
  end.

(** The pairs whose method key is in the set of HTTP methods. *)
Definition declared_operations : json -> list (string * string) :=
  operations_where (fun method => Py.in_list method HTTP_METHODS).

(** The pairs whose method key the code recognizes (line 294). *)
Definition recognized_operations : json -> list (string * string) :=
  operations_where recognized.

(** *** Well-formed documents

    The shape OpenAPI and Swagger 2.0 give to the parts the parser
    reads: objects where objects are expected, a list of objects for
    the parameters, strings for [host] and [basePath], method names in
    lower case. *)

Definition is_object (v : json) : bool :=
  match v with
  | JObj _ => true
  | _ => false
  end.

Definition is_string (v : json) : bool :=
  match v with
  | JStr _ => true
  | _ => false
  end.

(** A field that may be absent. *)
Definition optional (k : string) (check : json -> bool) (kvs : list (string * json)) : bool :=
  match assoc k kvs with
  | Some v => check v
  | None => true
  end.

Definition object_of (check : json -> bool) (v : json) : bool :=
  match v with
  | JObj kvs => forallb (fun kv : string * json => check (snd kv)) kvs
  | _ => false
  end.

(** A media type object: its named examples are example objects. *)
Definition wf_media (v : json) : bool :=
  match v with
  | JObj kvs => optional "examples" (object_of is_object) kvs
  | _ => false
  end.

Definition wf_request_body (v : json) : bool :=
  match v with
  | JObj kvs => optional "content" (object_of wf_media) kvs
  | _ => false
  end.

Definition wf_response (v : json) : bool :=
  match v with
  | JObj kvs => optional "content" (object_of wf_media) kvs && optional "examples" is_object kvs
  | _ => false
  end.

Definition wf_parameters (v : json) : bool :=
  match v with
  | JArr l => forallb is_object l
  | _ => false
  end.

Definition wf_operation (v : json) : bool :=
  match v with
  | JObj kvs =>
      optional "parameters" wf_parameters kvs
      && optional "requestBody" wf_request_body kvs
      && optional "responses" (object_of wf_response) kvs
  | _ => false
  end.

(** A path item: each method key is written in lower case and holds an
    operation; the other keys are not read. *)
Definition wf_path_item (v : json) : bool :=
  match v with
  | JObj kvs =>
      forallb (fun kv : string * json =>
                 if recognized (fst kv)
                 then Py.in_list (fst kv) HTTP_METHODS && wf_operation (snd kv)
                 else true) kvs
  | _ => false
  end.

Definition well_formed (spec_data : json) : bool :=
  match spec_data with
  | JObj kvs =>
      optional "paths" (object_of wf_path_item) kvs
      && optional "info" is_object kvs
      && optional "host" is_string kvs
      && optional "basePath" is_string kvs
  | _ => false
  end.

End SpecParser.

(** ** SwaggerEnhancedScraper._enhance_endpoints_with_html_examples *)

Module ExampleEnricher.
Import J Model.

Fixpoint rmap {A B : Type} (f : A -> result B) (l : list A) : result (list B) :=
  match l with
  | [] => Ok []
  | x :: l' => y <-? f x ;; ys <-? rmap f l' ;; Ok (y :: ys)
  end.

(** [v.lower()]: only a string has [lower]. *)
Definition str_lower (v : json) : result string :=
  match v with
  | JStr s => Ok (Py.lower s)
  | _ => Raise AttributeError
  end.

(** Lines 628-631: the first candidate that contains the parameter name,
    or the only candidate. *)
Definition pick_parameter_example (param_name : string) (candidates : list string)
    : option string :=
  List.find (fun example => Py.contains param_name (Py.lower example)
                            || Nat.eqb (length candidates) 1) candidates.

(** Lines 625-631 *)
Definition enhance_parameter (h : HtmlExamples) (param : ParamInfo) : result ParamInfo :=
  if negb (truthy (param_example param)) && negb (Nat.eqb (length (parameter_examples h)) 0)
  then name <-? str_lower (param_name param) ;;
       match pick_parameter_example name (parameter_examples h) with
       | Some example => Ok (with_param_example (JStr example) param)
       | None => Ok param
       end
  else Ok param.

Definition html_extracted (example : string) : ExampleRecord :=
  Example "html_extracted" None None None (JStr example).

Definition code_example (example : string) : ExampleRecord :=
  Example "code_example" None None None (JStr example).

(** Lines 634-640: response examples, for an endpoint without examples. *)
Definition add_response_examples (h : HtmlExamples) (exs : list ExampleRecord)
    : list ExampleRecord :=
  if Nat.eqb (length exs) 0 && negb (Nat.eqb (length (response_examples h)) 0)
  then exs ++ map html_extracted (firstn 3 (response_examples h))
  else exs.

(** Lines 643-649: code examples. *)
Definition add_code_examples (h : HtmlExamples) (exs : list ExampleRecord)
    : list ExampleRecord :=
  if negb (Nat.eqb (length (code_examples h)) 0)
  then exs ++ map code_example (firstn 2 (code_examples h))
  else exs.

(** Lines 622-649: the body of the loop over the endpoints. *)
Definition enhance_endpoint (h : HtmlExamples) (e : Endpoint) : result Endpoint :=
  ps <-? rmap (enhance_parameter h) (parameters e) ;;
  Ok (with_examples (add_code_examples h (add_response_examples h (examples e)))
        (with_parameters ps e)).

(** The endpoints after the call; [None] is the empty dict [{}] that
    [enhanced_extract] passes when it has no HTML. *)
Definition _enhance_endpoints_with_html_examples
    (endpoints : list Endpoint) (html_examples : option HtmlExamples)
    : result (list Endpoint) :=
  match html_examples with
  | None => Ok endpoints
  | Some h => rmap (enhance_endpoint h) endpoints
  end.

End ExampleEnricher.

(** ** SwaggerEnhancedScraper._parse_json_with_comments *)

Module LenientJSON.
Import J.

Definition newline : ascii := ascii_of_nat 10.

(** [re.sub(r'//.*$', '', text, flags=re.MULTILINE)]: from each [//] to
    the end of its line, the newline kept. *)
Fixpoint strip_line_comments_go (s : string) (in_comment : bool) : string :=
  match s with
  | EmptyString => EmptyString
  | String c s' =>
      if in_comment
      then if Ascii.eqb c newline
           then String c (strip_line_comments_go s' false)
           else strip_line_comments_go s' true
      else if String.prefix "//" s
           then strip_line_comments_go s' true
           else String c (strip_line_comments_go s' false)
  end.

Definition strip_line_comments (s : string) : string := strip_line_comments_go s false.

(** The offset of the first occurrence of [sub] in [s]. *)
Fixpoint find_sub (sub s : string) : option nat :=
  if String.prefix sub s then Some 0
  else match s with
       | EmptyString => None
       | String _ s' => S <$> find_sub sub s'
       end.

Definition drop2 (s : string) : string :=
  match s with
  | String _ (String _ s') => s'
  | _ => EmptyString
  end.

(** [re.sub(r'/\*.*?\*/', '', text, flags=re.DOTALL)]: from each [/*] to
    the first [*/] after it; a [/*] that is never closed stays. *)
Fixpoint strip_block_comments_go (s : string) (skip : nat) : string :=
  match s with
  | EmptyString => EmptyString
  | String c s' =>
      match skip with
      | S k => strip_block_comments_go s' k
      | O =>
          if String.prefix "/*" s
          then match find_sub "*/" (drop2 s) with
               | Some n => strip_block_comments_go s' (n + 3)
               | None => String c (strip_block_comments_go s' 0)
               end
          else String c (strip_block_comments_go s' 0)
      end
  end.

Definition strip_block_comments (s : string) : string := strip_block_comments_go s 0.

Section Parser.

(** [json.loads]: the value, [JSONDecodeError] on invalid JSON, or
    another exception ([RecursionError] on nesting deeper than the
    interpreter's recursion limit). *)
Variable json_loads : string -> result json.

(** Lines 265-283.  The result [None] is [JNull].  The handler of line
    281 belongs to the outer [try]: it sees what the first [json.loads]
    raises, not what is raised inside the handler of line 268. *)
Definition _parse_json_with_comments (text_content : string) : result json :=
  match json_loads text_content with
  | Ok v => Ok v
  | Raise e =>
      if is_JSONDecodeError e
      then let cleaned_content := strip_block_comments (strip_line_comments text_content) in
           match json_loads cleaned_content with
           | Ok v => Ok v
           | Raise e' => if is_JSONDecodeError e' then Ok JNull else Raise e'
           end
      else if is_Exception e then Ok JNull else Raise e
  end.

End Parser.

End LenientJSON.

(** ** SwaggerEnhancedScraper: detection, spec resolution, HTML fallback *)

Module SwaggerEnhancedScraper.
Import J Model.

(** What BeautifulSoup reports about a page.  A query of the detection
    checklist is the truth value of its result, or the exception it
    raised; texts are after [get_text().strip()]. *)
Record ParamRow : Type := {
  row_name : option string;
  row_description : option string;
  row_required : bool
}.

Record Block : Type := {
  block_method : option string;
  block_path : option string;
  block_description : option string;
  block_rows : list ParamRow;
  block_examples : list string
}.

Record Soup : Type := {
  find_div_id_swagger_ui : result bool;
  find_class_swagger_ui : result bool;
  find_a_href_swagger_json : result bool;
  find_a_href_openapi_json : result bool;
  title_text : result (option string);
  find_class_opblock : result bool;
  find_string_try_it_out : result bool;
  title_elem_text : option string;
  endpoint_blocks : list (result Block)
}.

(** The three regular expressions of [spec_patterns], in their order. *)
Inductive SpecPattern : Type :=
  | swagger_json_pattern
  | openapi_json_pattern
  | api_docs_pattern.

Definition spec_patterns : list SpecPattern :=
  [swagger_json_pattern; openapi_json_pattern; api_docs_pattern].

(** [urlparse(url)], the three components the code reads. *)
Record ParseResult : Type := {
  scheme : string;
  netloc : string;
  url_path : string
}.

Record DetectionResult : Type := {
  is_swagger : bool;
  confidence : float;
  indicators : list string;
  spec_urls : list string;
  extraction_method : string
}.

(** The dict [detect_swagger_page] returns: the five keys, or
    [{'is_swagger': False, 'error': ...}] when the page could not be
    fetched. *)
Inductive Detection : Type :=
  | Detected (d : DetectionResult)
  | DetectionFailed (error : exn).

Record SpecResult : Type := {
  spec : json;
  source_url : string
}.

(** The dict [enhanced_extract] returns, by its three shapes. *)
Inductive ExtractResult : Type :=
  | NotSwagger (confidence : float) (indicators : list string)
  | Extracted (confidence : float) (extraction_method : string) (api_data : ApiData)
      (spec_source : option string) (html_examples : option HtmlExamples)
  | ExtractError (is_swagger : bool) (error : exn).

(** [result['is_swagger']] *)
Definition result_is_swagger (r : ExtractResult) : bool :=
  match r with
  | NotSwagger _ _ => false
  | Extracted _ _ _ _ _ => true
  | ExtractError b _ => b
  end.

(** [result.get('success', False)] *)
Definition result_success (r : ExtractResult) : bool :=
  match r with
  | Extracted _ _ _ _ _ => true
  | _ => false
  end.

(** The endpoints a result carries. *)
Definition result_endpoints (r : ExtractResult) : list Endpoint :=
  match r with
  | Extracted _ _ d _ _ => endpoints d
  | _ => []
  end.

Definition dquote : string := String (ascii_of_nat 34) EmptyString.

(** [if u not in l: l.append(u)] *)
Definition append_new (l : list string) (u : string) : list string :=
  if Py.in_list u l then l else l ++ [u].

(** Lines 123-129: the loop over the checks.  A check that raises is
    skipped by the bare [except]. *)
Definition run_checks (checks : list (string * result bool * float)) : list string * float :=
  fold_left
    (fun (acc : list string * float) (c : string * result bool * float) =>
       match snd (fst c) with
       | Ok true => (fst acc ++ [fst (fst c)], (snd acc + snd c)%float)
       | _ => acc
       end)
    checks ([], 0%float).

(** Lines 146-153 *)
Definition base_patterns : list string :=
  ["/swagger.json"; "/openapi.json"; "/api-docs"; "/v1/swagger.json"; "/v2/api-docs";
   "/swagger/v1/swagger.json"].

(** Lines 165-195: candidates derived from the path of the page. *)
Definition path_candidates (base_url path : string) (spec_urls : list string) : list string :=
  if String.eqb path EmptyString then spec_urls
  else
    let s1 :=
      if Py.endswith path "/api.html"
      then append_new spec_urls (base_url ++ Py.replace "/api.html" "/swagger.json" path)
      else if Py.endswith path "/docs" || Py.endswith path "/docs/"
      then append_new spec_urls
             (base_url ++ Py.replace "/docs" "/swagger.json" (Py.rstrip_char "/" path))
      else if Py.contains "/" path
      then let dir_path := if negb (Py.endswith path "/")
                           then Py.before_last "/" path
                           else Py.rstrip_char "/" path in
           append_new spec_urls (base_url ++ dir_path ++ "/swagger.json")
      else spec_urls in
    if Py.endswith path "/api.html"
    then append_new s1 (base_url ++ Py.replace "/api.html" "/openapi.json" path)
    else s1.

Section Collaborators.

(** [BeautifulSoup(html, 'html.parser')] and the queries made on it *)
Variable BeautifulSoup : string -> Soup.
(** [len(re.findall(r'\b(GET|POST|PUT|DELETE|PATCH)\b', html))] *)
Variable count_http_methods : string -> nat.
(** [re.findall(pattern, html, re.IGNORECASE)] for a pattern of [spec_patterns] *)
Variable spec_matches : SpecPattern -> string -> list string.
Variable urljoin : string -> string -> string.
Variable urlparse : string -> ParseResult.
(** [extract_examples_from_html]: mining by BeautifulSoup and [re] *)
Variable extract_examples_from_html : string -> result HtmlExamples.
Variable json_loads : string -> result json.
Variable py_add : json -> json -> result json.
(** A GET through [self.session] or [self.sync_session]: the status and
    the text of the response, or the exception raised. *)
Variable http_get : string -> result (Z * string).

(** Lines 97-121: the checks, each with what its lambda evaluates to. *)
Definition checks (soup : Soup) (html_content content_lower clean_url : string)
    : list (string * result bool * float) :=
  [ ("swagger-ui div/id", find_div_id_swagger_ui soup, 0.9%float);
    ("swagger-ui class", find_class_swagger_ui soup, 0.9%float);
    ("swagger.json link", find_a_href_swagger_json soup, 0.95%float);
    ("openapi.json link", find_a_href_openapi_json soup, 0.95%float);
    ("swagger in title",
      (t <-? title_text soup ;;
       Ok (match t with
           | Some text => Py.contains "swagger" (Py.lower text)
           | None => false
           end)), 0.7%float);
    ("opblock class", find_class_opblock soup, 0.8%float);
    ("swagger-ui bundle", Ok (Py.contains "swagger-ui-bundle" content_lower), 0.8%float);
    ("try it out button", find_string_try_it_out soup, 0.6%float);
    ("swagger text", Ok (Py.contains "swagger ui" content_lower), 0.5%float);
    ("openapi text", Ok (Py.contains "openapi" content_lower), 0.4%float);
    ("api documentation", Ok (Py.contains "api documentation" content_lower), 0.3%float);
    ("api.html path", Ok (Py.endswith clean_url "/api.html"), 0.6%float);
    ("api docs path",
      Ok (Py.contains "/api" (Py.lower clean_url)
          && (Py.contains "doc" (Py.lower clean_url)
              || Py.contains "api.html" (Py.lower clean_url))), 0.5%float);
    ("rest api indicators",
      Ok (existsb (fun term => Py.contains term content_lower)
            ["rest api"; "api endpoint"; "api reference"]), 0.4%float);
    ("http methods", Ok (3 <=? count_http_methods html_content)%nat, 0.5%float);
    ("json response",
      Ok (Py.contains "application/json" content_lower
          || Py.contains (dquote ++ "application/json" ++ dquote) content_lower), 0.3%float) ].

(** Lines 138-143: the candidates found in the HTML. *)
Definition scanned_candidates (url html_content : string) : list string :=
  fold_left
    (fun spec_urls pattern =>
       fold_left (fun spec_urls m => append_new spec_urls (urljoin url m))
                 (spec_matches pattern html_content) spec_urls)
    spec_patterns [].

(** Lines 89-216, for the HTML at hand. *)
Definition detect_html (url html_content : string) : DetectionResult :=
  let clean_url := Py.before_first "#" url in
  let soup := BeautifulSoup html_content in
  let content_lower := Py.lower html_content in
  let scored := run_checks (checks soup html_content content_lower clean_url) in
  let parsed_url := urlparse clean_url in
  let base_url := (scheme parsed_url ++ "://" ++ netloc parsed_url)%string in
  let spec_urls :=
    path_candidates base_url (url_path parsed_url)
      (fold_left (fun spec_urls pattern => append_new spec_urls (base_url ++ pattern))
                 base_patterns (scanned_candidates url html_content)) in
  let has_potential_specs := negb (Nat.eqb (length spec_urls) 0) in
  let is_swagger := PrimFloat.ltb 0.3 (snd scored) || has_potential_specs in
  {| is_swagger := is_swagger;
     confidence := Py.min (snd scored) 1.0;
     indicators := fst scored;
     spec_urls := spec_urls;
     extraction_method :=
       if is_swagger
       then if negb (Nat.eqb (length spec_urls) 0) then "openapi_spec" else "html_scraping"
       else "standard_scraping" |}.

(** Lines 61-216.  Without HTML the page is fetched first; an
    [Exception] of the fetch gives the error dict. *)
Definition detect_swagger_page (url : string) (html_content : option string)
    : result Detection :=
  match html_content with
  | Some html => Ok (Detected (detect_html url html))
  | None =>
      match http_get (Py.before_first "#" url) with
      | Ok response => Ok (Detected (detect_html url (snd response)))
      | Raise e => if is_Exception e then Ok (DetectionFailed e) else Raise e
      end
  end.

(** Line 232: [spec_data and any(key in spec_data for key in [...])] *)
Definition valid_spec (spec_data : json) : result bool :=
  if truthy spec_data
  then a <-? has "swagger" spec_data ;;
       if a : bool then Ok true
       else b <-? has "openapi" spec_data ;;
            if b : bool then Ok true else has "paths" spec_data
  else Ok false.

(** Lines 223-251: one candidate. *)
Definition try_candidate (spec_url : string) : result (option SpecResult) :=
  response <-? http_get spec_url ;;
  if (fst response =? 200)%Z
  then spec_data <-? LenientJSON._parse_json_with_comments json_loads (snd response) ;;
       ok <-? valid_spec spec_data ;;
       if ok : bool
       then Ok (Some {| spec := spec_data; source_url := spec_url |})
       else Ok None
  else Ok None.

(** Lines 218-256: the result, with the list of the URLs requested. *)
Fixpoint extract_openapi_spec (spec_urls : list string)
    : list string * result (option SpecResult) :=
  match spec_urls with
  | [] => ([], Ok None)
  | spec_url :: rest =>
      match try_candidate spec_url with
      | Ok (Some r) => ([spec_url], Ok (Some r))
      | Ok None =>
          let next := extract_openapi_spec rest in (spec_url :: fst next, snd next)
      | Raise e =>
          if is_Exception e
          then let next := extract_openapi_spec rest in (spec_url :: fst next, snd next)
          else ([spec_url], Raise e)
      end
  end.

(** Lines 476-528: one endpoint block; [None] when the method or the
    path is missing. *)
Definition scrape_block (b : Block) : option Endpoint :=
  let method := from_option Py.upper EmptyString (block_method b) in
  let path := from_option id EmptyString (block_path b) in
  let description := from_option id EmptyString (block_description b) in
  let parameters :=
    flat_map (fun row =>
                match row_name row with
                | Some param_name =>
                    [ {| param_name := JStr param_name;
                         param_in := JNull;
                         param_required := JBool (row_required row);
                         param_type := JNull;
                         param_description := JStr (from_option id EmptyString (row_description row));
                         param_example := JNull |} ]
                | None => []
                end) (block_rows b) in
  let examples :=
    map (fun t => RawExample (JStr t))
        (List.filter (fun t => negb (String.eqb t EmptyString) && (5 <? String.length t)%nat)
                (block_examples b)) in
  if negb (String.eqb method EmptyString) && negb (String.eqb path EmptyString)
  then Some {| method := method; path := path; summary := JNull;
               description := JStr description; parameters := parameters;
               responses := []; examples := examples |}
  else None.

(** Lines 451-535.  A block that raises is skipped. *)
Definition scrape_swagger_html (url : string) (html_content : option string)
    : result ApiData :=
  html <-? match html_content with
           | Some h => Ok h
           | None => response <-? http_get url ;; Ok (snd response)
           end ;;
  let soup := BeautifulSoup html in
  let endpoints :=
    flat_map (fun b : result Block =>
                match b with
                | Ok block => match scrape_block block with Some e => [e] | None => [] end
                | Raise _ => []
                end) (endpoint_blocks soup) in
  Ok {| api_info := {| title := JStr (from_option id EmptyString (title_elem_text soup));
                       version := JNull; info_description := JNull; info_base_url := JNull |};
        endpoints := endpoints;
        total_endpoints := length endpoints |}.

(** Lines 546-605: [enhanced_extract] after the detection returned. *)
Definition extract_detected (url : string) (html_content : option string) (detection : Detection)
    : result ExtractResult :=
  match detection with
  | DetectionFailed _ => Raise KeyError
  | Detected d =>
      if negb (is_swagger d) then Ok (NotSwagger (confidence d) (indicators d))
      else
        html <-? match html_content with
                 | Some h => Ok h
                 | None =>
                     match http_get (Py.before_first "#" url) with
                     | Ok response => Ok (snd response)
                     | Raise e => if is_Exception e then Ok EmptyString else Raise e
                     end
                 end ;;
        html_examples <-? (if String.eqb html EmptyString then Ok None
                           else h <-? extract_examples_from_html html ;; Ok (Some h)) ;;
        spec_result <-? (if Nat.eqb (length (spec_urls d)) 0 then Ok None
                         else snd (extract_openapi_spec (spec_urls d))) ;;
        match spec_result with
        | Some r =>
            api_data <-? SpecParser.parse_openapi_spec py_add (spec r) ;;
            enhanced <-? ExampleEnricher._enhance_endpoints_with_html_examples
                           (endpoints api_data) html_examples ;;
            Ok (Extracted (confidence d) "openapi_spec"
                  {| api_info := api_info api_data; endpoints := enhanced;
                     total_endpoints := total_endpoints api_data |}
                  (Some (source_url r)) html_examples)
        | None =>
            api_data <-? scrape_swagger_html url (Some html) ;;
            enhanced <-? ExampleEnricher._enhance_endpoints_with_html_examples
                           (endpoints api_data) html_examples ;;
            Ok (Extracted (confidence d) "html_scraping"
                  {| api_info := api_info api_data; endpoints := enhanced;
                     total_endpoints := total_endpoints api_data |}
                  None html_examples)
        end
  end.

(** [detection.get('is_swagger', False)] *)
Definition detection_is_swagger (detection : Detection) : bool :=
  match detection with
  | Detected d => is_swagger d
  | DetectionFailed _ => false
  end.

(** Lines 537-613: the whole of it under [try ... except Exception]. *)
Definition enhanced_extract (url : string) (html_content : option string)
    : result ExtractResult :=
  match detect_swagger_page url html_content with
  | Raise e => if is_Exception e then Ok (ExtractError false e) else Raise e
  | Ok detection =>
      match extract_detected url html_content detection with
      | Ok r => Ok r
      | Raise e =>
          if is_Exception e
          then Ok (ExtractError (detection_is_swagger detection) e)
          else Raise e
      end
  end.

End Collaborators.

End SwaggerEnhancedScraper.

(** ** The rate limiter of extract_content_via_jina_rate_limited *)

Module RateLimiter.

(** Clock readings ([time.time()]) are rationals, in seconds: a
    synthetic clock. *)
Definition Qlt_bool (a b : Q) : bool := negb (Qle_bool b a).

(** Lines 1302 and 1312: [[t for t in l if current_time - t < 60]] *)
Definition prune (current_time : Q) (l : list Q) : list Q :=
  List.filter (fun t => Qlt_bool (current_time - t) 60)%Q l.

(** What a call does between getting the semaphore and its first
    [await]: it appends its time and goes on to the request, or it goes
    to sleep for [sleep_time] seconds. *)
Inductive Entry : Type :=
  | LetThrough (jina_rate_limiter : list Q)
  | Sleeping (sleep_time : Q) (jina_rate_limiter : list Q).

(** Lines 1299-1309 and, when there is no sleep, line 1315. *)
Definition enter (current_time : Q) (jina_rate_limiter : list Q) : Entry :=
  let l := prune current_time jina_rate_limiter in
  if (20 <=? length l)%nat
  then let sleep_time := (60 - (current_time - hd 0 l))%Q in
       if Qlt_bool 0%Q sleep_time
       then Sleeping sleep_time l
       else LetThrough (l ++ [current_time])
  else LetThrough (l ++ [current_time]).

(** Lines 1311-1315: after the sleep, on the list as it is by then. *)
Definition resume (current_time : Q) (jina_rate_limiter : list Q) : list Q :=
  prune current_time jina_rate_limiter ++ [current_time].

(** *** Calls running concurrently

    asyncio runs one coroutine at a time and switches only at an
    [await].  A run is the sequence of the segments executed, each with
    the clock reading at which it runs. *)

Inductive Event : Type :=
  (** a call gets the semaphore and runs to its first [await] *)
  | Call (now : Q)
  (** the sleeping call with the earliest deadline resumes *)
  | Wake (now : Q)
  (** a request returns and its call releases the semaphore *)
  | Finish.

Record State : Type := {
  (** the last clock reading *)
  clock : Q;
  jina_rate_limiter : list Q;
  (** the times at which the sleeping calls may resume, earliest first *)
  sleepers : list Q;
  (** the calls waiting for their request *)
  in_flight : nat;
  (** the clock readings at which a call was let through to the request *)
  admissions : list Q
}.

Definition initial : State :=
  {| clock := 0%Q; jina_rate_limiter := []; sleepers := []; in_flight := 0; admissions := [] |}.

Fixpoint insert_sorted (d : Q) (l : list Q) : list Q :=
  match l with
  | [] => [d]
  | x :: l' => if Qle_bool x d then x :: insert_sorted d l' else d :: l
  end.

(** One segment; [None] when the event cannot happen in this state: the
    clock does not go back, the semaphore has 20 permits, a sleep lasts
    at least as long as asked. *)
Definition step (s : State) (ev : Event) : option State :=
  match ev with
  | Call now =>
      if Qle_bool (clock s) now && (length (sleepers s) + in_flight s <? 20)%nat
      then match enter now (jina_rate_limiter s) with
           | LetThrough l =>
               Some {| clock := now; jina_rate_limiter := l; sleepers := sleepers s;
                       in_flight := S (in_flight s); admissions := admissions s ++ [now] |}
           | Sleeping sleep_time l =>
               Some {| clock := now; jina_rate_limiter := l;
                       sleepers := insert_sorted (now + sleep_time)%Q (sleepers s);
                       in_flight := in_flight s; admissions := admissions s |}
           end
      else None
  | Wake now =>
      match sleepers s with
      | deadline :: rest =>
          if Qle_bool (clock s) now && Qle_bool deadline now
          then Some {| clock := now; jina_rate_limiter := resume now (jina_rate_limiter s);
                       sleepers := rest; in_flight := S (in_flight s);
                       admissions := admissions s ++ [now] |}
          else None
      | [] => None
      end
  | Finish =>
      match in_flight s with
      | S n =>
          Some {| clock := clock s; jina_rate_limiter := jina_rate_limiter s;
                  sleepers := sleepers s; in_flight := n; admissions := admissions s |}
      | O => None
      end
  end.

Fixpoint run (s : State) (evs : list Event) : option State :=
  match evs with
  | [] => Some s
  | ev :: evs' =>
      match step s ev with
      | Some s' => run s' evs'
      | None => None
      end
  end.

(** The number of calls let through in the 60 seconds up to [t]. *)
Definition admitted_in_window (t : Q) (s : State) : nat :=
  length (List.filter (fun a => Qlt_bool (t - a)%Q 60%Q && Qle_bool a t) (admissions s)).

End RateLimiter.

(** ** URLScraperApp: the per-URL pipeline *)

Module URLScraperApp.
Import Stats SwaggerEnhancedScraper.

Record SwaggerInfo : Type := {
  info_is_swagger : bool;
  info_confidence : float;
  info_extraction_method : string;
  info_endpoints_count : nat
}.

(** The dict [process_single_url] returns for a processed URL. *)
Record Result : Type := {
  original_url : string;
  result_base_url : string;
  raw_markdown : string;
  processed_content : string;
  result_timestamp : string;
  swagger_info : option SwaggerInfo
}.

(** How [process_with_bedrock] reads the message of an exception of the
    Bedrock call (lines 1852-1870). *)
Inductive ErrorKind : Type :=
  | ConnectionPool
  | Throttling
  | OtherError.

(** One [invoke_model] with the parsing of its response: the text, or an
    [Exception] of the given kind. *)
Inductive InvokeOutcome : Type :=
  | Completed (text : string)
  | InvokeFailed (kind : ErrorKind).

(** The state one URL's processing reads and writes: the statistics of
    its base URL, and the calls made so far to each collaborator. *)
Record World : Type := {
  stats : ProcessingStats;
  jina_calls : nat;
  swagger_calls : nat;
  bedrock_calls : nat;
  clock_reads : nat;
  sleeps : list float
}.

Definition new_world (s : ProcessingStats) : World :=
  {| stats := s; jina_calls := 0; swagger_calls := 0; bedrock_calls := 0;
     clock_reads := 0; sleeps := [] |}.

Definition with_stats (s : ProcessingStats) (w : World) : World :=
  {| stats := s; jina_calls := jina_calls w; swagger_calls := swagger_calls w;
     bedrock_calls := bedrock_calls w; clock_reads := clock_reads w; sleeps := sleeps w |}.

(** [await asyncio.sleep(d)] *)
Definition sleep (d : float) (w : World) : World :=
  {| stats := stats w; jina_calls := jina_calls w; swagger_calls := swagger_calls w;
     bedrock_calls := bedrock_calls w; clock_reads := clock_reads w; sleeps := sleeps w ++ [d] |}.

Definition count_jina (w : World) : World :=
  {| stats := stats w; jina_calls := S (jina_calls w); swagger_calls := swagger_calls w;
     bedrock_calls := bedrock_calls w; clock_reads := clock_reads w; sleeps := sleeps w |}.

Definition count_swagger (w : World) : World :=
  {| stats := stats w; jina_calls := jina_calls w; swagger_calls := S (swagger_calls w);
     bedrock_calls := bedrock_calls w; clock_reads := clock_reads w; sleeps := sleeps w |}.

Definition count_bedrock (w : World) : World :=
  {| stats := stats w; jina_calls := jina_calls w; swagger_calls := swagger_calls w;
     bedrock_calls := S (bedrock_calls w); clock_reads := clock_reads w; sleeps := sleeps w |}.

Definition count_clock (w : World) : World :=
  {| stats := stats w; jina_calls := jina_calls w; swagger_calls := swagger_calls w;
     bedrock_calls := bedrock_calls w; clock_reads := S (clock_reads w); sleeps := sleeps w |}.

(** [except asyncio.CancelledError] *)
Definition is_CancelledError (e : exn) : bool :=
  match e with
  | CancelledError => true
  | _ => false
  end.

(** [except aiohttp.ClientResponseError] *)
Definition is_ClientResponseError (e : exn) : bool :=
  match e with
  | ClientResponseError => true
  | _ => false
  end.

(** Lines 1743-1787, applied to what the GET of [r.jina.ai] gave: a
    status other than 200 raises [ClientResponseError] inside the [try],
    and each handler raises a fresh exception of its own class. *)
Definition extract_content_via_jina (response : result (Z * string)) : result string :=
  match (r <-? response ;;
         if (fst r =? 200)%Z then Ok (snd r) else Raise ClientResponseError) with
  | Ok content => Ok content
  | Raise e =>
      if is_TimeoutError e then Raise TimeoutError
      else if is_CancelledError e then Raise CancelledError
      else if is_ClientError e then Raise ClientError
      else Raise OtherException
  end.

(** Lines 1050-1093: the handlers of the content extraction, in their
    order; [None] for what no handler catches. *)
Definition fetch_failure_reason (e : exn) : option FailureReason :=
  if is_TimeoutError e then Some TIMEOUT_ERROR
  else if is_ClientError e then Some CONNECTION_ERROR
  else if is_ClientResponseError e then Some HTTP_ERROR
  else if is_Exception e then Some CONTENT_EXTRACTION_ERROR
  else None.

Definition max_retries : nat := 2.

(** [process_with_bedrock]'s own [max_retries] (line 1802) *)
Definition bedrock_max_retries : nat := 3.

Definition base_delay : float := 1.0%float.

Definition float_of_nat (n : nat) : float := Nat.iter n (fun x => (x + 1)%float) 0%float.

Definition pow (b : float) (n : nat) : float := Nat.iter n (fun x => (x * b)%float) 1%float.

(** Lines 1858, 1873 and 1884 *)
Definition delay (kind : ErrorKind) (attempt : nat) : float :=
  match kind with
  | ConnectionPool => (base_delay * pow 2 attempt + 0.1 * float_of_nat attempt)%float
  | Throttling => (base_delay * pow 3 attempt + 0.5 * float_of_nat attempt)%float
  | OtherError => (base_delay * pow 1.5 attempt)%float
  end.

(** What one pass of the body of [for attempt in range(max_retries + 1)]
    ends with. *)
Inductive Flow : Type :=
  | Return (r : option Result)
  | Continue
  | Propagate (e : exn).

Section Collaborators.

(** The [n]-th GET of [https://r.jina.ai/<url>] of the run *)
Variable jina_get : nat -> string -> result (Z * string).
(** The [n]-th call of [self.swagger_scraper.enhanced_extract(url, content)] *)
Variable swagger_extract : nat -> string -> string -> result ExtractResult.
(** The [n]-th [invoke_model], on the prompt *)
Variable invoke_model : nat -> string -> InvokeOutcome.
(** Whether [setup_aws_client] gave a client *)
Variable bedrock_client : bool.
Variable construct_prompt_for_aws_bedrock : string -> string -> string.
Variable format_swagger_content_for_llm : ExtractResult -> string -> string -> string.
(** The [n]-th reading of [datetime.now().isoformat()] *)
Variable isoformat : nat -> string.
(** [str(e)] *)
Variable str : exn -> string.

(** [self.processing_stats[base_url].add_failure(url, reason, msg)] *)
Definition record_failure (url : string) (r : FailureReason) (msg : string) (w : World) : World :=
  count_clock (with_stats (add_failure url r msg (isoformat (clock_reads w)) (stats w)) w).

(** Lines 1295-1331: the admission of the rate limiter delays the call
    and leaves its outcome as it is. *)
Definition extract_content_via_jina_rate_limited (url : string) (w : World)
    : World * result string :=
  (count_jina w, extract_content_via_jina (jina_get (jina_calls w) url)).

(** Lines 1805-1893: the loop of [process_with_bedrock]. *)
Fixpoint bedrock_attempts (attempts : list nat) (prompt : string) (w : World)
    : World * option string :=
  match attempts with
  | [] => (w, None)
  | attempt :: rest =>
      match invoke_model (bedrock_calls w) prompt with
      | Completed text => (count_bedrock w, Some text)
      | InvokeFailed kind =>
          if (attempt <? bedrock_max_retries - 1)%nat
          then bedrock_attempts rest prompt (sleep (delay kind attempt) (count_bedrock w))
          else (count_bedrock w, None)
      end
  end.

(** Lines 1789-1893 *)
Definition process_with_bedrock (markdown_content source_url : string) (w : World)
    : World * option string :=
  if negb bedrock_client then (w, None)
  else bedrock_attempts (seq 0 bedrock_max_retries)
         (construct_prompt_for_aws_bedrock markdown_content source_url) w.

(** Lines 1333-1339: under the semaphore of 5 permits. *)
Definition process_with_bedrock_rate_limited (markdown_content source_url : string) (w : World)
    : World * option string :=
  process_with_bedrock markdown_content source_url w.

(** [api_data.get('total_endpoints', 0)] of a result *)
Definition endpoints_count (r : ExtractResult) : nat :=
  match r with
  | Extracted _ _ d _ _ => Model.total_endpoints d
  | _ => 0
  end.

(** [swagger_result.get('extraction_method', 'unknown')] *)
Definition result_extraction_method (r : ExtractResult) : string :=
  match r with
  | Extracted _ m _ _ _ => m
  | _ => "unknown"
  end.

(** [swagger_result.get('confidence', 0)] *)
Definition result_confidence (r : ExtractResult) : float :=
  match r with
  | NotSwagger c _ => c
  | Extracted c _ _ _ _ => c
  | ExtractError _ _ => 0%float
  end.

(** Lines 1172-1179 *)
Definition swagger_info_of (swagger_result : option ExtractResult) : option SwaggerInfo :=
  match swagger_result with
  | Some r =>
      if result_is_swagger r
      then Some {| info_is_swagger := true;
                   info_confidence := result_confidence r;
                   info_extraction_method := result_extraction_method r;
                   info_endpoints_count := endpoints_count r |}
      else None
  | None => None
  end.

(** [if attempt < max_retries: sleep(2); continue / else: add_failure; return None] *)
Definition retry_or_fail (attempt : nat) (url : string) (r : FailureReason) (msg : string)
    (w : World) : World * Flow :=
  if (attempt <? max_retries)%nat
  then (sleep 2%float w, Continue)
  else (record_failure url r msg w, Return None).

(** Lines 1110-1182: from the Swagger check to the result, for a
    non-empty content. *)
Definition process_content (attempt : nat) (url base_url markdown_content : string) (w : World)
    : World * Flow :=
  let w1 := count_swagger w in
  let checked : result (World * option ExtractResult * string) :=
    match swagger_extract (swagger_calls w) url markdown_content with
    | Ok r =>
        if result_is_swagger r && result_success r
        then Ok (with_stats (add_swagger_detection url (result_extraction_method r)
                               (endpoints_count r) (stats w1)) w1,
                 Some r,
                 if (0 <? endpoints_count r)%nat
                 then format_swagger_content_for_llm r markdown_content url
                 else markdown_content)
        else Ok (w1, Some r, markdown_content)
    | Raise e =>
        if is_Exception e
        then Ok (record_failure url SWAGGER_DETECTION_ERROR
                   ("Swagger detection failed: " ++ str e) w1, None, markdown_content)
        else Raise e
    end in
  match checked with
  | Raise e => (w1, Propagate e)
  | Ok (w2, swagger_result, content) =>
      let (w3, processed) := process_with_bedrock_rate_limited content url w2 in
      match processed with
      | Some text =>
          if String.eqb text EmptyString
          then retry_or_fail attempt url BEDROCK_ERROR
                 "Failed to process content with Bedrock after all retries" w3
          else (count_clock w3,
                Return (Some {| original_url := url;
                                result_base_url := base_url;
                                raw_markdown := content;
                                processed_content := text;
                                result_timestamp := isoformat (clock_reads w3);
                                swagger_info := swagger_info_of swagger_result |}))
      | None =>
          retry_or_fail attempt url BEDROCK_ERROR
            "Failed to process content with Bedrock after all retries" w3
      end
  end.

(** Lines 1044-1196: one pass of the loop.  Every [Exception] of the
    three stages is caught where it is raised, so the handler of line
    1184 has nothing to catch here; what is not an [Exception] passes
    through it. *)
Definition attempt_body (attempt : nat) (url base_url : string) (w : World) : World * Flow :=
  let (w1, extracted) := extract_content_via_jina_rate_limited url w in
  match extracted with
  | Raise e =>
      match fetch_failure_reason e with
      | Some r => retry_or_fail attempt url r (str e) w1
      | None => (w1, Propagate e)
      end
  | Ok markdown_content =>
      if String.eqb markdown_content EmptyString
      then retry_or_fail attempt url CONTENT_EXTRACTION_ERROR
             "Failed to extract content via Jina API after all retries" w1
      else process_content attempt url base_url markdown_content w1
  end.

Fixpoint attempts_loop (attempts : list nat) (url base_url : string) (w : World)
    : World * result (option Result) :=
  match attempts with
  | [] => (w, Ok None)
  | attempt :: rest =>
      match attempt_body attempt url base_url w with
      | (w', Return r) => (w', Ok r)
      | (w', Continue) => attempts_loop rest url base_url w'
      | (w', Propagate e) => (w', Raise e)
      end
  end.

(** Lines 1040-1198 *)
Definition process_single_url (url base_url : string) (w : World)
    : World * result (option Result) :=
  attempts_loop (seq 0 (max_retries + 1)) url base_url w.

(** Lines 981-1017 of [scrape_and_process]: what the loop over the
    completed tasks records for a task, [url] being the entry of
    [all_crawled_urls] the loop pairs with it. *)
Definition record_completion (url : string) (outcome : result (option Result)) (w : World)
    : World :=
  match outcome with
  | Ok (Some _) => with_stats (add_success url (stats w)) w
  | Ok None => record_failure url PROCESSING_ERROR "Processing returned None result" w
  | Raise e =>
      if is_Exception e then record_failure url PROCESSING_ERROR (str e) w else w
  end.

(** A run over a single discovered URL: its task, then the bookkeeping
    of the loop for it. *)
Definition run_single_url (url base_url : string) : World :=
  let (w, outcome) := process_single_url url base_url (new_world (Stats.new base_url)) in
  record_completion url outcome w.

End Collaborators.

End URLScraperApp.

(** ** Grouping: results by website, failures by reason *)

Module Reports.
Import Stats.

(** [if k not in groups: groups[k] = []] followed by
    [groups[k].append(v)], on a dict kept in insertion order. *)
Fixpoint group_add {A : Type} (k : string) (v : A) (groups : list (string * list A))
    : list (string * list A) :=
  match groups with
  | [] => [(k, [v])]
  | (k', vs) :: rest =>
      if String.eqb k k' then (k', vs ++ [v]) :: rest else (k', vs) :: group_add k v rest
  end.

(** The loops of lines 1438-1443 and 1912-1917, for any key. *)
Definition group_by {A : Type} (key : A -> string) (l : list A) : list (string * list A) :=
  fold_left (fun groups x => group_add (key x) x groups) l [].

(** Lines 1438-1443: [results_by_website]. *)
Definition results_by_website (processed_results : list URLScraperApp.Result)
    : list (string * list URLScraperApp.Result) :=
  group_by URLScraperApp.result_base_url processed_results.

(** Lines 711-719: [get_failures_by_reason].  The entries of
    [failed_urls] are visited in the order of the map, which is not the
    insertion order of the Python dict: the groups are right, the order
    of the groups and of the URLs in a group is not modelled. *)
Definition get_failures_by_reason (s : ProcessingStats) : list (string * list string) :=
  map (fun g : string * list (string * FailureInfo) => (fst g, map fst (snd g)))
      (group_by (fun entry : string * FailureInfo => reason (snd entry))
                (map_to_list (failed_urls s))).

End Reports.

(** ** File names of the saved documents *)

Module Naming.

(** [s.split(c)]: at least one part, empty parts kept. *)
Fixpoint split (c : ascii) (s : string) : list string :=
  match s with
  | EmptyString => [EmptyString]
  | String d s' =>
      if Ascii.eqb c d then EmptyString :: split c s'
      else match split c s' with
           | part :: parts => String d part :: parts
           | [] => [String d EmptyString]
           end
  end.

(** [sep.join(parts)] *)
Fixpoint join (sep : string) (parts : list string) : string :=
  match parts with
  | [] => EmptyString
  | [part] => part
  | part :: rest => part ++ sep ++ join sep rest
  end.

(** [\w] on ASCII: a letter, a digit or the underscore. *)
Definition is_word (c : ascii) : bool :=
  let n := nat_of_ascii c in
  ((48 <=? n) && (n <=? 57) || (65 <=? n) && (n <=? 90) || (97 <=? n) && (n <=? 122)
   || (n =? 95))%nat.

(** [re.sub(r'[^\w\-_]', '_', filename)]: a character for a character.
    Characters outside ASCII are taken as not matching [\w]. *)
Definition sanitize (filename : string) : string :=
  Py.map_string (fun c => if is_word c || Ascii.eqb c "-"%char then c else "_"%char) filename.

(** Lines 1486-1494 and 1946-1954: the file name of a document, from the
    path of its URL; [numbered] is the name made of the index of the
    document ([doc_007], [page_7]). *)
Definition document_name (path numbered : string) : string :=
  let path_parts :=
    List.filter (fun p => negb (String.eqb p EmptyString)) (split "/" path) in
  let filename :=
    if negb (Nat.eqb (length path_parts) 0) then join "_" path_parts else "index" in
  let filename := sanitize filename in
  if String.eqb filename EmptyString then numbered else filename.

(** [s.capitalize()] on ASCII *)
Definition capitalize (s : string) : string :=
  match s with
  | EmptyString => EmptyString
  | String c s' => String (Py.upper_ascii c) (Py.lower s')
  end.

(** [l[-k]] for [k >= 1]; [None] when Python raises [IndexError]. *)
Definition from_end {A : Type} (k : nat) (l : list A) : option A :=
  if (k <=? length l)%nat then nth_error l (length l - k) else None.

(** Lines 1460-1466 and 1930-1935: the prefix of the file names of a
    website, from the domain of its base URL; [None] when the code
    raises [IndexError]. *)
Definition website_prefix (domain : string) : option string :=
  let domain_parts := split "." domain in
  if (2 <=? length domain_parts)%nat
  then second_last ← from_end 2 domain_parts;
       main_domain ← (if negb (String.eqb second_last "www")
                      then Some second_last
                      else from_end 3 domain_parts);
       Some (capitalize main_domain)
  else capitalize <$> head domain_parts.

(** Line 1457: the name of the folder of a website. *)
Definition website_name (domain : string) : string :=
  Py.replace "-" "_" (Py.replace "." "_" domain).

End Naming.

(** ** scrape_and_process: the loop over the completed tasks *)

Module Completion.
Import Stats URLScraperApp.

(** What the loop changes: the statistics of each base URL, the list of
    results, and the number of readings of the clock. *)
Record LoopState := {
  processing_stats : gmap string ProcessingStats;
  processed_results : list Result;
  readings : nat
}.

(** [self.processing_stats[base_url].m(...)]: [KeyError] when the base
    URL has no statistics. *)
Definition update_stats (base_url : string) (m : ProcessingStats -> ProcessingStats)
    (stats : gmap string ProcessingStats) : result (gmap string ProcessingStats) :=
  match stats !! base_url with
  | Some s => Ok (<[base_url := m s]> stats)
  | None => Raise KeyError
  end.

Section Loop.

Variable isoformat : nat -> string.
Variable str : exn -> string.

(** [add_failure(url, PROCESSING_ERROR, msg)] in the statistics of the
    base URL, when [url_info] is not [None]. *)
Definition file_failure (url_info : option (string * string)) (msg : string) (st : LoopState)
    : result LoopState :=
  match url_info with
  | Some (url, base_url) =>
      stats <-? update_stats base_url
                  (add_failure url PROCESSING_ERROR msg (isoformat (readings st)))
                  (processing_stats st) ;;
      Ok {| processing_stats := stats;
            processed_results := processed_results st;
            readings := S (readings st) |}
  | None => Ok st
  end.

(** Lines 981-1017 for the [i]-th task to complete: its outcome is
    filed under [all_crawled_urls[i]], in the statistics of the base URL
    of that entry.  A [KeyError] of the [try] block is caught by the
    handler of line 1007, whose own look-up raises it again; a
    [CancelledError] of the task leaves the loop. *)
Definition file_outcome (all_crawled_urls : list (string * string))
    (st : LoopState) (completed : nat * result (option Result)) : result LoopState :=
  let '(i, outcome) := completed in
  let url_info := all_crawled_urls !! i in
  match outcome with
  | Ok (Some r) =>
      let results := processed_results st ++ [r] in
      match url_info with
      | Some (url, base_url) =>
          stats <-? update_stats base_url (add_success url) (processing_stats st) ;;
          Ok {| processing_stats := stats;
                processed_results := results;
                readings := readings st |}
      | None =>
          Ok {| processing_stats := processing_stats st;
                processed_results := results;
                readings := readings st |}
      end
  | Ok None => file_failure url_info "Processing returned None result" st
  | Raise e => if is_Exception e then file_failure url_info (str e) st else Raise e
  end.

(** The loop of lines 980-1017 over the outcomes of the tasks in their
    order of completion; the display of the results and the progress
    bar are left out. *)
Definition file_outcomes (all_crawled_urls : list (string * string))
    (outcomes : list (result (option Result))) (st : LoopState) : result LoopState :=
  rfold (file_outcome all_crawled_urls) (imap (fun i o => (i, o)) outcomes) st.

End Loop.

End Completion.

(** * Properties *)

(** ** ProcessingStats *)

Module StatsFacts.
Import Stats.

Lemma in_list_elem_of (x : string) (l : list string) :
  Py.in_list x l = true <-> x ∈ l.
Proof.
  unfold Py.in_list. rewrite existsb_exists. split.
  - intros (y & Hy & Heq). apply String.eqb_eq in Heq. subst y.
    by apply list_elem_of_In.
  - intros Hin. exists x. split; [by apply list_elem_of_In | apply String.eqb_refl].
Qed.

Lemma in_list_false (x : string) (l : list string) :
  Py.in_list x l = false <-> x ∉ l.
Proof.
  rewrite <- in_list_elem_of. destruct (Py.in_list x l); split; intros H; congruence.
Qed.

Lemma add_success_failed_urls (url : string) (s : ProcessingStats) :
  failed_urls (add_success url s) = failed_urls s.
Proof. unfold add_success. by destruct (Py.in_list url (successful_urls s)). Qed.

Lemma add_failure_successful_urls (url : string) (r : FailureReason) (msg now : string)
    (s : ProcessingStats) :
  successful_urls (add_failure url r msg now s) = successful_urls s.
Proof. reflexivity. Qed.

Lemma add_failure_lookup (url : string) (r : FailureReason) (msg now : string)
    (s : ProcessingStats) :
  failed_urls (add_failure url r msg now s) !! url
  = Some {| reason := value r; error_msg := msg; timestamp := now |}.
Proof. unfold add_failure. cbn. apply lookup_insert_eq. Qed.

Lemma add_success_elem (url : string) (s : ProcessingStats) :
  url ∈ successful_urls (add_success url s).
Proof.
  unfold add_success. destruct (Py.in_list url (successful_urls s)) eqn:E.
  - by apply in_list_elem_of.
  - cbn. apply elem_of_app. right. apply list_elem_of_singleton. reflexivity.
Qed.

Lemma add_success_present (url : string) (s : ProcessingStats) :
  url ∈ successful_urls s -> add_success url s = s.
Proof.
  intros Hin. unfold add_success. apply in_list_elem_of in Hin. by rewrite Hin.
Qed.

(** The list after a sequence of recorded successes: no URL twice, and
    the URLs are the old ones and the recorded ones. *)
Lemma record_successes_invariant (recorded : list string) (s : ProcessingStats) :
  NoDup (successful_urls s) ->
  NoDup (successful_urls (fold_left (fun st u => add_success u st) recorded s))
  /\ (list_to_set (successful_urls (fold_left (fun st u => add_success u st) recorded s))
        : gset string)
     = list_to_set (successful_urls s) ∪ list_to_set recorded.
Proof.
  revert s. induction recorded as [|u recorded IH]; intros s Hnd; cbn.
  - split; [done | set_solver].
  - destruct (IH (add_success u s)) as [IH1 IH2].
    + unfold add_success. destruct (Py.in_list u (successful_urls s)) eqn:E; [done |].
      cbn. apply NoDup_app. split_and!; [done | | apply NoDup_singleton].
      intros x Hx Hx'. apply list_elem_of_singleton in Hx'. subst x.
      by apply in_list_false in E.
    + split; [done |]. rewrite IH2.
      unfold add_success. destruct (Py.in_list u (successful_urls s)) eqn:E; cbn.
      * apply in_list_elem_of in E. set_solver.
      * rewrite list_to_set_app_L. set_solver.
Qed.

(** C10: [add_success] on a URL that is already in the success list
    changes nothing, recording the same URL twice is the same as
    recording it once, and after any sequence of recorded successes on a
    fresh instance [success_count] is the number of distinct URLs
    recorded. *)
Theorem add_success_idempotent (s : ProcessingStats) (url b : string) (recorded : list string) :
  (url ∈ successful_urls s -> add_success url s = s)
  /\ add_success url (add_success url s) = add_success url s
  /\ success_count (fold_left (fun st u => add_success u st) recorded (Stats.new b))
     = size (list_to_set recorded : gset string).
Proof.
  split; [apply add_success_present |]. split.
  - apply add_success_present, add_success_elem.
  - destruct (record_successes_invariant recorded (Stats.new b)) as [Hnd Hset].
    { cbn. apply NoDup_nil_2. }
    unfold success_count. rewrite <- (size_list_to_set (C := gset string)) by done.
    rewrite Hset. cbn. f_equal. set_solver.
Qed.

(** For instance: three successes recorded for two distinct URLs. *)
Lemma add_success_idempotent_witness :
  add_success "https://a.example/docs" (add_success "https://a.example/docs" (Stats.new "a"))
  = add_success "https://a.example/docs" (Stats.new "a")
  /\ success_count
       (fold_left (fun st u => add_success u st)
          ["https://a.example/docs"; "https://a.example/api"; "https://a.example/docs"]
          (Stats.new "a"))
     = size (list_to_set ["https://a.example/docs"; "https://a.example/api";
                          "https://a.example/docs"] : gset string).
Proof.
  pose proof (add_success_idempotent (Stats.new "a") "https://a.example/docs" "a"
                ["https://a.example/docs"; "https://a.example/api"; "https://a.example/docs"])
    as (_ & H2 & H3).
  exact (conj H2 H3).
Defined.

End StatsFacts.

(** ** Detection *)

Module DetectorFacts.
Import J Model SwaggerEnhancedScraper.

(** Whether the loop of lines 123-129 counts a check. *)
Definition fired (c : string * result bool * float) : bool :=
  match snd (fst c) with
  | Ok true => true
  | _ => false
  end.

(** The sum the loop builds, from which checks fired and their weights. *)
Fixpoint score (weights : list float) (outcome : list bool) (acc : float) : float :=
  match weights, outcome with
  | w :: weights', b :: outcome' => score weights' outcome' (if b then (acc + w)%float else acc)
  | _, _ => acc
  end.

(** Every way a checklist of [n] entries can turn out. *)
Fixpoint outcomes (n : nat) : list (list bool) :=
  match n with
  | O => [[]]
  | S n' => flat_map (fun l => [true :: l; false :: l]) (outcomes n')
  end.

(** The weights of lines 99-120, in their order. *)
Definition weights : list float :=
  [0.9; 0.9; 0.95; 0.95; 0.7; 0.8; 0.8; 0.6; 0.5; 0.4; 0.3; 0.6; 0.5; 0.4; 0.5; 0.3]%float.

Definition in_unit_interval (c : float) : bool :=
  PrimFloat.leb 0%float c && PrimFloat.leb c 1%float.

Lemma in_unit_interval_spec (c : float) :
  in_unit_interval c = true -> PrimFloat.leb 0%float c = true /\ PrimFloat.leb c 1%float = true.
Proof. unfold in_unit_interval. intros H. apply andb_prop in H. exact H. Qed.

Lemma outcomes_complete (l : list bool) : In l (outcomes (length l)).
Proof.
  induction l as [|b l IH]; cbn; [by left |].
  apply in_flat_map. exists l. split; [exact IH |].
  destruct b; cbn; auto.
Qed.

Lemma run_checks_fold (cs : list (string * result bool * float)) (acc : list string * float) :
  snd (fold_left
         (fun (acc : list string * float) (c : string * result bool * float) =>
            match snd (fst c) with
            | Ok true => (fst acc ++ [fst (fst c)], (snd acc + snd c)%float)
            | _ => acc
            end) cs acc)
  = score (map snd cs) (map fired cs) (snd acc).
Proof.
  revert acc. induction cs as [|c cs IH]; intros acc; cbn; [reflexivity |].
  rewrite IH. unfold fired.
  destruct (snd (fst c)) as [[|]|e]; reflexivity.
Qed.

Lemma run_checks_score (cs : list (string * result bool * float)) :
  snd (run_checks cs) = score (map snd cs) (map fired cs) 0%float.
Proof. unfold run_checks. apply run_checks_fold. Qed.

(** The float sums of all 65536 outcomes of the sixteen checks, each
    clamped by [min(confidence, 1.0)], computed one by one. *)
Lemma every_outcome_in_unit_interval :
  forallb (fun outcome => in_unit_interval (Py.min (score weights outcome 0%float) 1%float))
          (outcomes 16) = true.
Proof. vm_compute. reflexivity. Qed.

Lemma clamped_score_in_unit_interval (outcome : list bool) :
  length outcome = 16%nat ->
  in_unit_interval (Py.min (score weights outcome 0%float) 1%float) = true.
Proof.
  intros Hlen. pose proof every_outcome_in_unit_interval as Hall.
  rewrite forallb_forall in Hall. apply Hall.
  rewrite <- Hlen. apply outcomes_complete.
Qed.

Section Detection.

Variable BeautifulSoup : string -> Soup.
Variable count_http_methods : string -> nat.
Variable spec_matches : SpecPattern -> string -> list string.
Variable urljoin : string -> string -> string.
Variable urlparse : string -> ParseResult.

Lemma checks_weights (soup : Soup) (html content_lower clean_url : string) :
  map snd (checks count_http_methods soup html content_lower clean_url) = weights.
Proof. reflexivity. Qed.

Lemma checks_length (soup : Soup) (html content_lower clean_url : string) :
  length (map fired (checks count_http_methods soup html content_lower clean_url)) = 16%nat.
Proof. reflexivity. Qed.

Lemma detect_html_confidence_eq (url html : string) :
  confidence (detect_html BeautifulSoup count_http_methods spec_matches urljoin urlparse
                url html)
  = Py.min (snd (run_checks (checks count_http_methods (BeautifulSoup html) html
                               (Py.lower html) (Py.before_first "#" url)))) 1%float.
Proof. reflexivity. Qed.

Lemma detect_html_confidence (url html : string) :
  in_unit_interval
    (confidence (detect_html BeautifulSoup count_http_methods spec_matches urljoin urlparse
                   url html)) = true.
Proof.
  rewrite detect_html_confidence_eq, run_checks_score, checks_weights.
  apply clamped_score_in_unit_interval, checks_length.
Qed.


End Detection.

End DetectorFacts.

(** ** Classification and the fall-back to HTML scraping *)

Module ClassificationFacts.
Import J Model SwaggerEnhancedScraper.

Lemma append_new_nonempty (l : list string) (u : string) : append_new l u <> [].
Proof.
  unfold append_new. destruct (Py.in_list u l) eqn:E.
  - intros ->. discriminate E.
  - destruct l; discriminate.
Qed.

Lemma fold_append_new_nonempty (f : string -> string) (us l : list string) :
  us <> [] \/ l <> [] -> fold_left (fun acc u => append_new acc (f u)) us l <> [].
Proof.
  revert l. induction us as [|u us IH]; intros l H; cbn.
  - destruct H as [H | H]; [congruence | exact H].
  - apply IH. right. apply append_new_nonempty.
Qed.

Lemma path_candidates_nonempty (base_url path : string) (l : list string) :
  l <> [] -> path_candidates base_url path l <> [].
Proof.
  intros Hl. unfold path_candidates.
  repeat match goal with
         | |- context [if ?c then _ else _] => destruct c
         end; auto using append_new_nonempty.
Qed.

Lemma length_nonzero {A : Type} (l : list A) : l <> [] -> Nat.eqb (length l) 0 = false.
Proof. destruct l; [congruence | reflexivity]. Qed.

Section Classification.

Variable BeautifulSoup : string -> Soup.
Variable count_http_methods : string -> nat.
Variable spec_matches : SpecPattern -> string -> list string.
Variable urljoin : string -> string -> string.
Variable urlparse : string -> ParseResult.
Variable extract_examples_from_html : string -> result HtmlExamples.
Variable json_loads : string -> result json.
Variable py_add : json -> json -> result json.
Variable http_get : string -> result (Z * string).

Local Abbreviation detect_html :=
  (detect_html BeautifulSoup count_http_methods spec_matches urljoin urlparse).
Local Abbreviation enhanced_extract :=
  (enhanced_extract BeautifulSoup count_http_methods spec_matches urljoin urlparse
     extract_examples_from_html json_loads py_add http_get).
Local Abbreviation extract_detected :=
  (extract_detected BeautifulSoup extract_examples_from_html json_loads py_add http_get).

(** The six root-relative guesses of lines 146-162 are always added. *)
Lemma spec_urls_nonempty (url html : string) : spec_urls (detect_html url html) <> [].
Proof.
  unfold SwaggerEnhancedScraper.detect_html. cbn [spec_urls].
  apply path_candidates_nonempty.
  apply (fold_append_new_nonempty (String.append _)).
  left. discriminate.
Qed.

(** Line 200, as it is written. *)
Lemma is_swagger_rule (url html : string) :
  is_swagger (detect_html url html)
  = PrimFloat.ltb 0.3%float
      (snd (run_checks (checks count_http_methods (BeautifulSoup html) html (Py.lower html)
                          (Py.before_first "#" url))))
    || negb (Nat.eqb (length (spec_urls (detect_html url html))) 0).
Proof. reflexivity. Qed.

Lemma detect_html_is_swagger (url html : string) : is_swagger (detect_html url html) = true.
Proof.
  rewrite is_swagger_rule, (length_nonzero _ (spec_urls_nonempty url html)).
  apply orb_true_r.
Qed.

Lemma extraction_method_of_candidates (c : float) (candidates : list string) :
  candidates <> [] ->
  (if PrimFloat.ltb 0.3%float c || negb (Nat.eqb (length candidates) 0)
   then if negb (Nat.eqb (length candidates) 0) then "openapi_spec" else "html_scraping"
   else "standard_scraping") = "openapi_spec".
Proof.
  intros H. rewrite (length_nonzero _ H), orb_true_r. reflexivity.
Qed.

Lemma detect_html_extraction_method (url html : string) :
  extraction_method (detect_html url html) = "openapi_spec".
Proof.
  pose proof (spec_urls_nonempty url html) as Hne.
  unfold SwaggerEnhancedScraper.detect_html in *.
  cbn [extraction_method spec_urls] in *.
  exact (extraction_method_of_candidates _ _ Hne).
Qed.

(** With no valid spec and no endpoint block, the fall-back runs and
    finds nothing. *)
Lemma extract_detected_fallback (url html : string) (d : DetectionResult) (h : HtmlExamples) :
  is_swagger d = true ->
  html <> EmptyString ->
  extract_examples_from_html html = Ok h ->
  snd (extract_openapi_spec json_loads http_get (spec_urls d)) = Ok None ->
  endpoint_blocks (BeautifulSoup html) = [] ->
  extract_detected url (Some html) (Detected d)
  = Ok (Extracted (confidence d) "html_scraping"
          {| api_info := {| title := JStr (from_option id EmptyString
                                             (title_elem_text (BeautifulSoup html)));
                            version := JNull; info_description := JNull;
                            info_base_url := JNull |};
             endpoints := []; total_endpoints := 0 |}
          None (Some h)).
Proof.
  intros Hsw Hhtml Hex Hspec Hblocks.
  unfold SwaggerEnhancedScraper.extract_detected. rewrite Hsw. cbn [negb rbind].
  apply String.eqb_neq in Hhtml. rewrite Hhtml, Hex. cbn [rbind].
  assert ((if Nat.eqb (length (spec_urls d)) 0 then Ok None
           else snd (extract_openapi_spec json_loads http_get (spec_urls d))) = Ok None) as ->.
  { destruct (Nat.eqb (length (spec_urls d)) 0); [reflexivity | exact Hspec]. }
  cbn [rbind]. unfold scrape_swagger_html. cbn [rbind]. rewrite Hblocks. reflexivity.
Qed.


End Classification.

(** *** A page of plain prose *)

(** BeautifulSoup on a page without any of the elements looked for. *)
Definition prose_soup : Soup :=
  {| find_div_id_swagger_ui := Ok false;
     find_class_swagger_ui := Ok false;
     find_a_href_swagger_json := Ok false;
     find_a_href_openapi_json := Ok false;
     title_text := Ok None;
     find_class_opblock := Ok false;
     find_string_try_it_out := Ok false;
     title_elem_text := None;
     endpoint_blocks := [] |}.

Definition prose_url : string := "https://example.com/guide".

Definition prose_html : string := "<p>Install the package, then read on.</p>".

(** [urlparse] of [prose_url]. *)
Definition prose_urlparse (url : string) : ParseResult :=
  {| scheme := "https"; netloc := "example.com"; url_path := "/guide" |}.

Definition no_examples : HtmlExamples :=
  {| parameter_examples := []; response_examples := []; code_examples := [] |}.

(** No host answers: every GET raises a connection error. *)
Definition unreachable (url : string) : result (Z * string) := Raise ClientError.

Definition prose_detection : DetectionResult :=
  detect_html (fun _ => prose_soup) (fun _ => 0%nat) (fun _ _ => []) (fun _ m => m)
    prose_urlparse prose_url prose_html.

Definition prose_extraction : result ExtractResult :=
  enhanced_extract (fun _ => prose_soup) (fun _ => 0%nat) (fun _ _ => []) (fun _ m => m)
    prose_urlparse (fun _ => Ok no_examples) (fun _ => Raise JSONDecodeError)
    (fun _ _ => Raise TypeError) unreachable prose_url (Some prose_html).



End ClassificationFacts.

(** ** The lenient JSON parser *)

Module LenientJSONFacts.
Import J LenientJSON.

Definition cleaned (text : string) : string :=
  strip_block_comments (strip_line_comments text).

Section Parser.

Variable json_loads : string -> result json.

Local Abbreviation parse := (_parse_json_with_comments json_loads).

(** A valid text is parsed at once. *)
Lemma parse_strict (text : string) (v : json) :
  json_loads text = Ok v -> parse text = Ok v.
Proof. intros H. unfold _parse_json_with_comments. by rewrite H. Qed.

(** A text that is valid once the comments are stripped. *)
Lemma parse_cleaned (text : string) (v : json) :
  json_loads text = Raise JSONDecodeError ->
  json_loads (cleaned text) = Ok v ->
  parse text = Ok v.
Proof.
  intros H1 H2. unfold _parse_json_with_comments. rewrite H1. cbn.
  fold (cleaned text). by rewrite H2.
Qed.

(** A text that stays invalid gives [None]. *)
Lemma parse_invalid (text : string) :
  json_loads text = Raise JSONDecodeError ->
  json_loads (cleaned text) = Raise JSONDecodeError ->
  parse text = Ok JNull.
Proof.
  intros H1 H2. unfold _parse_json_with_comments. rewrite H1. cbn.
  fold (cleaned text). by rewrite H2.
Qed.

(** What the parser raises, if anything, is not a [JSONDecodeError], and
    it is an exception of the second [json.loads] or one that is no
    [Exception]. *)
Lemma parse_raises (text : string) (e : exn) :
  parse text = Raise e ->
  (json_loads text = Raise JSONDecodeError /\ json_loads (cleaned text) = Raise e
   /\ is_JSONDecodeError e = false)
  \/ (json_loads text = Raise e /\ is_Exception e = false).
Proof.
  unfold _parse_json_with_comments. fold (cleaned text).
  destruct (json_loads text) as [v | e1] eqn:E1; [discriminate |].
  destruct (is_JSONDecodeError e1) eqn:Ed.
  - destruct e1; try discriminate Ed.
    destruct (json_loads (cleaned text)) as [v | e2] eqn:E2; [discriminate |].
    destruct (is_JSONDecodeError e2) eqn:Ed2; [discriminate |].
    intros [= ->]. left. auto.
  - destruct (is_Exception e1) eqn:Ee; [discriminate |].
    intros [= ->]. right. auto.
Qed.

(** C8, where the code leaves it: when the strict parse fails with a
    [JSONDecodeError] and the parse of the cleaned text raises anything
    else (a [RecursionError], say), the handler of line 278 does not
    catch it and the one of line 281 is out of reach: the parser raises. *)
Theorem lenient_parser_raises_from_second_parse (text : string) (e : exn) :
  json_loads text = Raise JSONDecodeError ->
  json_loads (cleaned text) = Raise e ->
  is_JSONDecodeError e = false ->
  parse text = Raise e.
Proof.
  intros H1 H2 He. unfold _parse_json_with_comments. rewrite H1. cbn.
  fold (cleaned text). rewrite H2, He. reflexivity.
Qed.

End Parser.

(** *** A commented text that opens more arrays than the interpreter
    can nest *)

Fixpoint skip_newlines (s : string) : string :=
  match s with
  | String c s' => if Ascii.eqb c newline then skip_newlines s' else s
  | EmptyString => EmptyString
  end.

Fixpoint opening_brackets (s : string) : nat :=
  match s with
  | String c s' => if Ascii.eqb c "["%char then S (opening_brackets s') else 0
  | EmptyString => 0
  end.

(** [json.loads] on the texts used below, none of which is valid JSON:
    a text that opens more than 1000 arrays in a row exhausts the
    recursion limit of the decoder, any other fails to decode. *)
Definition loads_invalid (text : string) : result json :=
  if (1000 <? opening_brackets (skip_newlines text))%nat
  then Raise RecursionError
  else Raise JSONDecodeError.

Definition brackets (n : nat) : string := Nat.iter n (String "["%char) EmptyString.

(** A comment line, then 1200 opening brackets. *)
Definition deep_text : string := String "/" (String "/" (String newline (brackets 1200))).

Lemma lenient_parser_raises_witness :
  _parse_json_with_comments loads_invalid deep_text = Raise RecursionError.
Proof.
  apply (lenient_parser_raises_from_second_parse loads_invalid deep_text RecursionError).
  - vm_compute. reflexivity.
  - vm_compute. reflexivity.
  - reflexivity.
Defined.

(** The example of the specification: the comment goes, the rest stays. *)
Example cleaned_example :
  cleaned ("{ // c" ++ String newline " a:1 /* b */ }")%string
  = ("{ " ++ String newline " a:1  }")%string.
Proof. vm_compute. reflexivity. Qed.

End LenientJSONFacts.

(** ** Spec resolution *)

Module ResolutionFacts.
Import J Model SwaggerEnhancedScraper.

(** The keys that make a document a spec. *)
Definition spec_keys : list string := ["swagger"; "openapi"; "paths"].

(** The document contains at least one of the keys: as a key of an
    object (for a list or a string, Python's [in]: as an element, as a
    substring). *)
Definition contains_spec_key (doc : json) : bool :=
  existsb (fun key => match has key doc with Ok true => true | _ => false end) spec_keys.

Lemma valid_spec_contains (doc : json) :
  contains_spec_key doc = true -> valid_spec doc = Ok true.
Proof.
  unfold contains_spec_key, valid_spec, spec_keys. cbn [existsb].
  destruct doc as [| b | n | f | s | l | kvs]; cbn [has]; try discriminate.
  - destruct (Py.contains "swagger" s) eqn:E1; cbn [rbind orb].
    + destruct s; [discriminate E1 | reflexivity].
    + destruct (Py.contains "openapi" s) eqn:E2; cbn [rbind orb].
      * destruct s; [discriminate E2 | reflexivity].
      * destruct (Py.contains "paths" s) eqn:E3; [| discriminate].
        destruct s; [discriminate E3 | reflexivity].
  - destruct l as [| x l]; [discriminate |]. cbn [truthy length Nat.eqb negb rbind].
    destruct (existsb (is_str "swagger") (x :: l)); [reflexivity |].
    destruct (existsb (is_str "openapi") (x :: l)); [reflexivity |].
    destruct (existsb (is_str "paths") (x :: l)); [reflexivity | discriminate].
  - destruct kvs as [| kv kvs]; [discriminate |]. cbn [truthy length Nat.eqb negb rbind].
    destruct (assoc "swagger" (kv :: kvs)); [reflexivity |].
    destruct (assoc "openapi" (kv :: kvs)); [reflexivity |].
    destruct (assoc "paths" (kv :: kvs)); [reflexivity | discriminate].
Qed.

Lemma valid_spec_lacks (doc : json) :
  contains_spec_key doc = false ->
  valid_spec doc = Ok false \/ valid_spec doc = Raise TypeError.
Proof.
  unfold contains_spec_key, valid_spec, spec_keys. cbn [existsb].
  destruct doc as [| b | n | f | s | l | kvs]; cbn [has truthy].
  - auto.
  - destruct b; auto.
  - destruct (negb (n =? 0)%Z); auto.
  - destruct (negb (PrimFloat.eqb f 0)); auto.
  - destruct (negb (String.eqb s EmptyString)); [| auto].
    destruct (Py.contains "swagger" s); [discriminate |].
    destruct (Py.contains "openapi" s); [discriminate |].
    destruct (Py.contains "paths" s); [discriminate | auto].
  - destruct (negb (Nat.eqb (length l) 0)); [| auto].
    destruct (existsb (is_str "swagger") l); [discriminate |].
    destruct (existsb (is_str "openapi") l); [discriminate |].
    destruct (existsb (is_str "paths") l); [discriminate | auto].
  - destruct (negb (Nat.eqb (length kvs) 0)); [| auto].
    destruct (assoc "swagger" kvs); [discriminate |].
    destruct (assoc "openapi" kvs); [discriminate |].
    destruct (assoc "paths" kvs); [discriminate | auto].
Qed.

(** On an object, containment is the presence of a key. *)
Lemma contains_spec_key_object (kvs : list (string * json)) :
  contains_spec_key (JObj kvs) = true
  <-> exists key, In key spec_keys /\ is_Some (assoc key kvs).
Proof.
  unfold contains_spec_key. rewrite existsb_exists. split.
  - intros (key & Hin & H). exists key. split; [exact Hin |].
    cbn in H. destruct (assoc key kvs); [eauto | discriminate].
  - intros (key & Hin & [v Hv]). exists key. split; [exact Hin |].
    cbn. by rewrite Hv.
Qed.

Section Resolution.

Variable BeautifulSoup : string -> Soup.
Variable extract_examples_from_html : string -> result HtmlExamples.
Variable json_loads : string -> result json.
Variable py_add : json -> json -> result json.
Variable http_get : string -> result (Z * string).

Local Abbreviation try_candidate := (try_candidate json_loads http_get).
Local Abbreviation extract_openapi_spec := (extract_openapi_spec json_loads http_get).
Local Abbreviation parse := (LenientJSON._parse_json_with_comments json_loads).

(** The document of a candidate that is fetched with status 200 and
    whose parsed body contains one of the keys. *)
Definition candidate_document (spec_url : string) : option json :=
  match http_get spec_url with
  | Ok (status, text) =>
      if (status =? 200)%Z
      then match parse text with
           | Ok doc => if contains_spec_key doc then Some doc else None
           | Raise _ => None
           end
      else None
  | Raise _ => None
  end.

(** The first candidate of the list that has such a document. *)
Fixpoint first_valid (spec_urls : list string) : option SpecResult :=
  match spec_urls with
  | [] => None
  | spec_url :: rest =>
      match candidate_document spec_url with
      | Some doc => Some {| spec := doc; source_url := spec_url |}
      | None => first_valid rest
      end
  end.

(** The candidates up to and including that one. *)
Fixpoint tried (spec_urls : list string) : list string :=
  match spec_urls with
  | [] => []
  | spec_url :: rest =>
      match candidate_document spec_url with
      | Some _ => [spec_url]
      | None => spec_url :: tried rest
      end
  end.

(** Step 3 of [enhanced_extract] (lines 591-605). *)
Definition html_fallback (url html : string) (confidence : float)
    (html_examples : option HtmlExamples) : result ExtractResult :=
  api_data <-? scrape_swagger_html BeautifulSoup http_get url (Some html) ;;
  enhanced <-? ExampleEnricher._enhance_endpoints_with_html_examples
                 (endpoints api_data) html_examples ;;
  Ok (Extracted confidence "html_scraping"
        {| api_info := api_info api_data; endpoints := enhanced;
           total_endpoints := total_endpoints api_data |}
        None html_examples).

Hypothesis fetch_not_cancelled : forall url, http_get url <> Raise CancelledError.
Hypothesis loads_not_cancelled : forall text, json_loads text <> Raise CancelledError.

Lemma parse_not_cancelled (text : string) (e : exn) :
  parse text = Raise e -> is_Exception e = true.
Proof using loads_not_cancelled.
  intros H. apply LenientJSONFacts.parse_raises in H.
  destruct H as [(_ & H & _) | (H & He)].
  - destruct e; try reflexivity. by apply loads_not_cancelled in H.
  - destruct e; try discriminate He. by apply loads_not_cancelled in H.
Qed.

Lemma try_candidate_valid (spec_url : string) (doc : json) :
  candidate_document spec_url = Some doc ->
  try_candidate spec_url = Ok (Some {| spec := doc; source_url := spec_url |}).
Proof.
  unfold candidate_document, SwaggerEnhancedScraper.try_candidate.
  destruct (http_get spec_url) as [[status text] | e]; [| discriminate].
  cbn [rbind fst snd]. destruct (status =? 200)%Z; [| discriminate].
  destruct (parse text) as [d | e]; [| discriminate]. cbn [rbind].
  destruct (contains_spec_key d) eqn:Hk; [| discriminate].
  intros [= ->]. by rewrite (valid_spec_contains _ Hk).
Qed.

Lemma try_candidate_invalid (spec_url : string) :
  candidate_document spec_url = None ->
  try_candidate spec_url = Ok None
  \/ exists e, try_candidate spec_url = Raise e /\ is_Exception e = true.
Proof using fetch_not_cancelled loads_not_cancelled.
  unfold candidate_document, SwaggerEnhancedScraper.try_candidate.
  destruct (http_get spec_url) as [[status text] | e] eqn:Hget.
  - cbn [rbind fst snd]. destruct (status =? 200)%Z; [| auto].
    destruct (parse text) as [d | e] eqn:Hparse; cbn [rbind].
    + destruct (contains_spec_key d) eqn:Hk; [discriminate |]. intros _.
      destruct (valid_spec_lacks _ Hk) as [-> | ->]; cbn [rbind]; eauto.
    + intros _. right. exists e. split; [reflexivity |].
      by apply (parse_not_cancelled text).
  - intros _. right. exists e. split; [reflexivity |].
    destruct e; try reflexivity. by apply fetch_not_cancelled in Hget.
Qed.

Lemma extract_openapi_spec_first_valid (spec_urls : list string) :
  extract_openapi_spec spec_urls = (tried spec_urls, Ok (first_valid spec_urls)).
Proof using fetch_not_cancelled loads_not_cancelled.
  induction spec_urls as [| spec_url rest IH]; [reflexivity |].
  cbn [SwaggerEnhancedScraper.extract_openapi_spec first_valid tried].
  destruct (candidate_document spec_url) as [doc |] eqn:Hdoc.
  - by rewrite (try_candidate_valid _ _ Hdoc).
  - destruct (try_candidate_invalid _ Hdoc) as [-> | (e & -> & ->)]; by rewrite IH.
Qed.


End Resolution.

(** *** Three candidates: one unreachable, one without the keys, one valid *)

Definition petstore : json :=
  JObj [("openapi", JStr "3.0.0");
        ("paths", JObj [("/pets", JObj [("get", JObj [("summary", JStr "List pets")])])])].

Definition three_hosts (url : string) : result (Z * string) :=
  if String.eqb url "https://a.example/swagger.json" then Raise TimeoutError
  else if String.eqb url "https://a.example/openapi.json" then Ok (200%Z, "version")
  else if String.eqb url "https://a.example/api-docs" then Ok (200%Z, "petstore")
  else Ok (404%Z, EmptyString).

(** [json.loads] on the two bodies served, named by what they hold. *)
Definition loads_bodies (text : string) : result json :=
  if String.eqb text "version" then Ok (JObj [("version", JStr "1")])
  else if String.eqb text "petstore" then Ok petstore
  else Raise JSONDecodeError.

Definition candidates : list string :=
  ["https://a.example/swagger.json"; "https://a.example/openapi.json";
   "https://a.example/api-docs"; "https://a.example/v1/swagger.json"].


End ResolutionFacts.

(** ** The spec parser *)

Module SpecParserFacts.
Import J Model SpecParser.

(** Inversion of a chain of binds that ended in [Ok]. *)
Ltac bind_inv H :=
  unfold rbind in H;
  repeat match type of H with
         | match ?m with Ok _ => _ | Raise _ => _ end = Ok _ =>
             let E := fresh "E" in destruct m eqn:E; [| discriminate H]
         end.

Lemma rfold_ok {A B : Type} (f : B -> A -> result B) (l : list A) :
  (forall b x, In x l -> exists b', f b x = Ok b') ->
  forall b, exists b', rfold f l b = Ok b'.
Proof.
  induction l as [| x l IH]; intros Hf b; cbn; [eauto |].
  destruct (Hf b x (or_introl eq_refl)) as [b' ->]. cbn.
  apply IH. intros b0 y Hy. apply Hf. by right.
Qed.

(** *** The endpoints are the recognized operations *)

Definition key (e : Endpoint) : string * string := (path e, method e).

Definition upper_method (pm : string * string) : string * string :=
  (fst pm, Py.upper (snd pm)).

Lemma parse_operation_key (p m : string) (operation : json) (ep : Endpoint) :
  parse_operation p m operation = Ok ep -> key ep = (p, Py.upper m).
Proof.
  unfold parse_operation. intros H. bind_inv H. by injection H as <-.
Qed.

Lemma parse_methods_keys (p : string) (method_items : list (string * json)) :
  forall eps eps',
    rfold (parse_methods p) method_items eps = Ok eps' ->
    map key eps'
    = map key eps
      ++ map upper_method
           (map (fun m : string * json => (p, fst m))
                (List.filter (fun m : string * json => recognized (fst m)) method_items)).
Proof.
  induction method_items as [| [m operation] rest IH]; intros eps eps' H; cbn [rfold] in H.
  - injection H as <-. cbn. by rewrite app_nil_r.
  - cbn [List.filter fst].
    change (parse_methods p eps (m, operation))
      with (if recognized m
            then ep <-? parse_operation p m operation ;; Ok (eps ++ [ep])
            else Ok eps) in H.
    destruct (recognized m) eqn:Hm.
    + destruct (parse_operation p m operation) as [ep | e] eqn:Hop;
        cbn [rbind] in H; [| discriminate H].
      rewrite (IH _ _ H), map_app. cbn [map app].
      rewrite (parse_operation_key _ _ _ _ Hop), <- app_assoc. reflexivity.
    + cbn [rbind] in H. by rewrite (IH _ _ H).
Qed.

(** The recognized operations of the paths, in document order. *)
Definition operations_of_paths (test : string -> bool) (path_items : list (string * json))
    : list (string * string) :=
  flat_map (fun entry : string * json =>
              match snd entry with
              | JObj method_items =>
                  map (fun m : string * json => (fst entry, fst m))
                      (List.filter (fun m : string * json => test (fst m)) method_items)
              | _ => []
              end) path_items.

Lemma parse_path_keys (path_items : list (string * json)) :
  forall eps eps',
    rfold parse_path path_items eps = Ok eps' ->
    map key eps' = map key eps ++ map upper_method (operations_of_paths recognized path_items).
Proof.
  induction path_items as [| [p methods] rest IH]; intros eps eps' H; cbn [rfold] in H.
  - injection H as <-. cbn. by rewrite app_nil_r.
  - change (parse_path eps (p, methods))
      with (method_items <-? items methods ;; rfold (parse_methods p) method_items eps) in H.
    destruct methods as [| | | | | | method_items]; try discriminate H.
    cbn [items rbind] in H.
    destruct (rfold (parse_methods p) method_items eps) as [eps1 | e] eqn:Hm;
      cbn [rbind] in H; [| discriminate H].
    rewrite (IH _ _ H), (parse_methods_keys _ _ _ _ Hm).
    unfold operations_of_paths. cbn [flat_map snd fst].
    by rewrite !map_app, <- app_assoc.
Qed.

(** *** A well-formed document is parsed *)

Lemma forallb_In {A : Type} (f : A -> bool) (l : list A) (x : A) :
  forallb f l = true -> In x l -> f x = true.
Proof. intros H. by apply forallb_forall. Qed.

Lemma parse_parameter_ok (param : json) :
  is_object param = true -> exists p, parse_parameter param = Ok p.
Proof.
  destruct param; try discriminate. intros _. unfold parse_parameter. cbn. eauto.
Qed.

Lemma parse_parameters_ok (params : list json) (acc : list ParamInfo) :
  forallb is_object params = true ->
  exists ps,
    rfold (fun acc param => p <-? parse_parameter param ;; Ok (acc ++ [p])) params acc = Ok ps.
Proof.
  intros Hall. apply rfold_ok. intros b x Hx.
  destruct (parse_parameter_ok x (forallb_In _ _ _ Hall Hx)) as [p ->]. cbn. eauto.
Qed.

(** The named examples of a media type object, folded by [step]. *)
Lemma named_examples_ok {B : Type} (named : list (string * json))
    (step : B -> string -> json -> B) (acc : B) :
  forallb (fun kv : string * json => is_object (snd kv)) named = true ->
  exists b,
    rfold (fun (acc : B) (named_entry : string * json) =>
             let '(example_name, example_data) := named_entry in
             x <-? get example_data "value" example_data ;;
             Ok (step acc example_name x)) named acc = Ok b.
Proof.
  intros Hall. apply rfold_ok. intros b [n data] Hx.
  pose proof (forallb_In _ _ _ Hall Hx) as Hobj. cbn in Hobj.
  destruct data; try discriminate Hobj. cbn. eauto.
Qed.

Lemma request_content_examples_ok (exs : list ExampleRecord) (entry : string * json) :
  wf_media (snd entry) = true -> exists exs', request_content_examples exs entry = Ok exs'.
Proof.
  destruct entry as [content_type media]. cbn [snd].
  destruct media as [| | | | | | kvs]; try discriminate. unfold wf_media, optional.
  intros Hwf. unfold request_content_examples. cbn [has subscript rbind].
  destruct (assoc "example" kvs) as [x |]; cbn [rbind];
    (destruct (assoc "examples" kvs) as [named |]; cbn [rbind]; [| eauto];
     destruct named as [| | | | | | named]; try discriminate Hwf; cbn [items rbind];
     apply (named_examples_ok named
              (fun acc example_name x =>
                 acc ++ [Example "request_body" (Some example_name) None (Some content_type) x]));
     exact Hwf).
Qed.

Lemma response_content_examples_ok (status_code : string)
    (st : list (string * json) * list ExampleRecord) (entry : string * json) :
  wf_media (snd entry) = true ->
  exists st', response_content_examples status_code st entry = Ok st'.
Proof.
  destruct entry as [content_type media]. cbn [snd].
  destruct media as [| | | | | | kvs]; try discriminate. unfold wf_media, optional.
  intros Hwf. unfold response_content_examples. cbn [has subscript rbind].
  destruct (assoc "example" kvs) as [x |]; cbn [rbind];
    (destruct (assoc "examples" kvs) as [named |]; cbn [rbind]; [| eauto];
     destruct named as [| | | | | | named]; try discriminate Hwf; cbn [items rbind];
     apply (named_examples_ok named
              (fun (acc : list (string * json) * list ExampleRecord) example_name x =>
                 (assoc_set (content_type ++ "_" ++ example_name)%string x (fst acc),
                  snd acc ++ [Example "response" (Some example_name) (Some status_code)
                                (Some content_type) x])));
     exact Hwf).
Qed.

Lemma request_body_examples_ok (kvs : list (string * json)) :
  optional "requestBody" wf_request_body kvs = true ->
  exists exs, request_body_examples (JObj kvs) = Ok exs.
Proof.
  unfold optional, request_body_examples. cbn [has subscript rbind].
  destruct (assoc "requestBody" kvs) as [body |]; cbn [rbind]; [| eauto].
  destruct body as [| | | | | | body]; try discriminate. unfold wf_request_body, optional.
  cbn [has subscript rbind].
  destruct (assoc "content" body) as [content |]; cbn [rbind]; [| eauto].
  destruct content as [| | | | | | content]; try discriminate. cbn [object_of items rbind].
  intros Hall. apply rfold_ok. intros b x Hx.
  apply request_content_examples_ok. exact (forallb_In _ _ _ Hall Hx).
Qed.

Lemma parse_response_ok (st : list (string * ResponseInfo) * list ExampleRecord)
    (entry : string * json) :
  wf_response (snd entry) = true -> exists st', parse_response st entry = Ok st'.
Proof.
  destruct entry as [status_code response]. cbn [snd].
  destruct response as [| | | | | | kvs]; try discriminate. unfold wf_response, optional.
  intros Hwf. apply andb_prop in Hwf. destruct Hwf as [Hcontent Hlegacy].
  unfold parse_response. cbn [get has subscript rbind].
  assert (exists st1,
             (if match assoc "content" kvs with Some _ => true | None => false end
              then content <-? match assoc "content" kvs with
                               | Some x => Ok x
                               | None => Raise KeyError
                               end ;;
                   content_items <-? items content ;;
                   rfold (response_content_examples status_code) content_items ([], snd st)
              else Ok ([], snd st)) = Ok st1) as [st1 ->].
  { destruct (assoc "content" kvs) as [content |]; cbn [rbind]; [| eauto].
    destruct content as [| | | | | | content]; try discriminate Hcontent.
    cbn [object_of items rbind] in *. apply rfold_ok. intros b x Hx.
    apply response_content_examples_ok. exact (forallb_In _ _ _ Hcontent Hx). }
  cbn [rbind].
  destruct (assoc "examples" kvs) as [legacy |]; cbn [rbind]; [| eauto].
  destruct legacy; try discriminate Hlegacy. cbn. eauto.
Qed.

Lemma operation_examples_ok (kvs : list (string * json)) (exs : list ExampleRecord) :
  exists exs', operation_examples (JObj kvs) exs = Ok exs'.
Proof.
  unfold operation_examples. cbn [has subscript rbind].
  destruct (assoc "examples" kvs) as [x |]; cbn [rbind]; [| eauto].
  destruct x; eauto.
Qed.

Lemma parse_operation_ok (p m : string) (operation : json) :
  wf_operation operation = true -> exists ep, parse_operation p m operation = Ok ep.
Proof.
  destruct operation as [| | | | | | kvs]; try discriminate. unfold wf_operation.
  intros Hwf. apply andb_prop in Hwf. destruct Hwf as [Hwf Hresponses].
  apply andb_prop in Hwf. destruct Hwf as [Hparams Hbody].
  unfold parse_operation. cbn [get rbind].
  assert (exists params, iter (from_option id (JArr []) (assoc "parameters" kvs)) = Ok params
                         /\ forallb is_object params = true) as (params & -> & Hobjs).
  { unfold optional in Hparams. destruct (assoc "parameters" kvs) as [ps |]; cbn.
    - destruct ps; try discriminate Hparams. cbn. eauto.
    - eauto. }
  cbn [rbind]. destruct (parse_parameters_ok params [] Hobjs) as [ps ->]. cbn [rbind].
  destruct (request_body_examples_ok kvs Hbody) as [exs1 ->]. cbn [rbind].
  assert (exists response_items,
             items (from_option id (JObj []) (assoc "responses" kvs)) = Ok response_items
             /\ forallb (fun kv : string * json => wf_response (snd kv)) response_items = true)
    as (response_items & -> & Hrs).
  { unfold optional in Hresponses. destruct (assoc "responses" kvs) as [rs |]; cbn.
    - destruct rs; try discriminate Hresponses. cbn. eauto.
    - eauto. }
  cbn [rbind].
  destruct (rfold_ok parse_response response_items
              (fun b x Hx => parse_response_ok b x (forallb_In _ _ _ Hrs Hx)) ([], exs1))
    as [st ->].
  cbn [rbind]. destruct (operation_examples_ok kvs (snd st)) as [exs3 ->]. cbn [rbind].
  eauto.
Qed.

Lemma parse_path_ok (eps : list Endpoint) (entry : string * json) :
  wf_path_item (snd entry) = true -> exists eps', parse_path eps entry = Ok eps'.
Proof.
  destruct entry as [p methods]. cbn [snd].
  destruct methods as [| | | | | | method_items]; try discriminate. unfold wf_path_item.
  intros Hall.
  change (parse_path eps (p, JObj method_items))
    with (rfold (parse_methods p) method_items eps).
  apply rfold_ok. intros b [m operation] Hx.
  pose proof (forallb_In _ _ _ Hall Hx) as Hm. cbn [fst snd] in Hm.
  change (parse_methods p b (m, operation))
    with (if recognized m
          then ep <-? parse_operation p m operation ;; Ok (b ++ [ep])
          else Ok b).
  destruct (recognized m); [| eauto].
  apply andb_prop in Hm. destruct Hm as [_ Hop].
  destruct (parse_operation_ok p m operation Hop) as [ep ->]. cbn. eauto.
Qed.

(** A method name of the set is recognized as it is. *)
Lemma in_methods_recognized (m : string) :
  Py.in_list m HTTP_METHODS = true -> recognized m = true.
Proof.
  unfold Py.in_list, HTTP_METHODS. cbn [existsb]. intros H.
  repeat (apply orb_prop in H; destruct H as [H | H];
          [apply String.eqb_eq in H; subst m; reflexivity |]).
  discriminate H.
Qed.

(** In a well-formed document the recognized operations are those whose
    method key is in the set. *)
Lemma well_formed_operations (spec_data : json) :
  well_formed spec_data = true ->
  recognized_operations spec_data = declared_operations spec_data.
Proof.
  destruct spec_data as [| | | | | | kvs]; try discriminate. unfold well_formed, optional.
  intros Hwf. repeat (apply andb_prop in Hwf; destruct Hwf as [Hwf _]).
  unfold recognized_operations, declared_operations, operations_where.
  destruct (assoc "paths" kvs) as [paths |]; [| reflexivity].
  destruct paths as [| | | | | | path_items]; try reflexivity. cbn [object_of] in Hwf.
  induction path_items as [| [p methods] rest IH]; [reflexivity |].
  cbn [forallb snd] in Hwf. apply andb_prop in Hwf. destruct Hwf as [Hitem Hrest].
  cbn [flat_map snd fst]. rewrite (IH Hrest). f_equal.
  destruct methods as [| | | | | | method_items]; try reflexivity. f_equal.
  cbn [wf_path_item] in Hitem. clear IH Hrest.
  induction method_items as [| [m operation] ms IHm]; [reflexivity |].
  cbn [forallb fst snd] in Hitem. apply andb_prop in Hitem. destruct Hitem as [Hm Hms].
  cbn [List.filter fst]. rewrite (IHm Hms).
  destruct (recognized m) eqn:Hrec.
  - apply andb_prop in Hm. destruct Hm as [-> _]. reflexivity.
  - destruct (Py.in_list m HTTP_METHODS) eqn:Hin; [| reflexivity].
    apply in_methods_recognized in Hin. congruence.
Qed.

Section Parse.

Variable py_add : json -> json -> result json.

(** Whenever the parser returns, its endpoints are the recognized
    operations, one each and in document order. *)
Lemma parse_openapi_spec_keys (spec_data : json) (api : ApiData) :
  parse_openapi_spec py_add spec_data = Ok api ->
  map key (endpoints api) = map upper_method (recognized_operations spec_data)
  /\ total_endpoints api = length (endpoints api).
Proof.
  unfold parse_openapi_spec. intros H.
  destruct spec_data as [| | | | | | kvs]; try discriminate H.
  cbn [get rbind] in H.
  destruct (items (from_option id (JObj []) (assoc "paths" kvs))) as [path_items | e] eqn:Hitems;
    [| discriminate H].
  cbn [rbind] in H.
  destruct (rfold parse_path path_items []) as [eps | e] eqn:Hfold; [| discriminate H].
  cbn [rbind] in H. bind_inv H. injection H as <-. cbn [endpoints total_endpoints].
  split; [| reflexivity].
  rewrite (parse_path_keys _ _ _ Hfold). cbn [map app].
  unfold recognized_operations, operations_where.
  destruct (assoc "paths" kvs) as [paths |]; cbn in Hitems.
  - destruct paths; try discriminate Hitems. by injection Hitems as <-.
  - by injection Hitems as <-.
Qed.

Hypothesis py_add_str : forall a b : string, py_add (JStr a) (JStr b) = Ok (JStr (a ++ b)).

Lemma parse_openapi_spec_ok (spec_data : json) :
  well_formed spec_data = true -> exists api, parse_openapi_spec py_add spec_data = Ok api.
Proof using py_add_str.
  destruct spec_data as [| | | | | | kvs]; try discriminate. unfold well_formed.
  intros Hwf. apply andb_prop in Hwf. destruct Hwf as [Hwf HbasePath].
  apply andb_prop in Hwf. destruct Hwf as [Hwf Hhost].
  apply andb_prop in Hwf. destruct Hwf as [Hpaths Hinfo].
  unfold parse_openapi_spec. cbn [get rbind].
  assert (exists path_items,
             items (from_option id (JObj []) (assoc "paths" kvs)) = Ok path_items
             /\ forallb (fun kv : string * json => wf_path_item (snd kv)) path_items = true)
    as (path_items & -> & Hitems).
  { unfold optional in Hpaths. destruct (assoc "paths" kvs) as [paths |]; cbn.
    - destruct paths; try discriminate Hpaths. cbn. eauto.
    - eauto. }
  cbn [rbind].
  destruct (rfold_ok parse_path path_items
              (fun b x Hx => parse_path_ok b x (forallb_In _ _ _ Hitems Hx)) [])
    as [eps ->].
  cbn [rbind].
  assert (exists info, from_option id (JObj []) (assoc "info" kvs) = JObj info) as [info ->].
  { unfold optional in Hinfo. destruct (assoc "info" kvs) as [info |]; cbn; [| eauto].
    destruct info; try discriminate Hinfo. eauto. }
  cbn [get rbind].
  assert (exists host, from_option id empty (assoc "host" kvs) = JStr host) as [host ->].
  { unfold optional in Hhost. destruct (assoc "host" kvs) as [host |]; cbn; [| unfold empty; eauto].
    destruct host; try discriminate Hhost. eauto. }
  assert (exists basePath, from_option id empty (assoc "basePath" kvs) = JStr basePath)
    as [basePath ->].
  { unfold optional in HbasePath.
    destruct (assoc "basePath" kvs) as [basePath |]; cbn; [| unfold empty; eauto].
    destruct basePath; try discriminate HbasePath. eauto. }
  rewrite py_add_str. cbn [rbind]. eauto.
Qed.


End Parse.

(** *** A document with two paths and four method keys, one of them not
    a method *)

(** [+] on two strings; nothing else is added in the example. *)
Definition add_strings (a b : json) : result json :=
  match a, b with
  | JStr x, JStr y => Ok (JStr (x ++ y))
  | _, _ => Raise TypeError
  end.

Definition pets : json :=
  JObj [("openapi", JStr "3.0.0");
        ("info", JObj [("title", JStr "Pets"); ("version", JStr "1")]);
        ("paths",
          JObj [("/pets",
                  JObj [("get", JObj [("summary", JStr "List pets");
                                      ("responses",
                                        JObj [("200", JObj [("description", JStr "OK")])])]);
                        ("post", JObj [("parameters",
                                         JArr [JObj [("name", JStr "pet"); ("in", JStr "body")]])]);
                        ("parameters", JArr [])]);
                ("/pets/{id}",
                  JObj [("delete", JObj [])])])].


(** Scenario B of the specification. *)
Example parse_list_pets :
  parse_openapi_spec add_strings
    (JObj [("openapi", JStr "3.0.0");
           ("paths",
             JObj [("/pets",
                     JObj [("get", JObj [("summary", JStr "List pets");
                                         ("responses",
                                           JObj [("200", JObj [("description", JStr "OK")])])])])])])
  = Ok {| api_info := {| title := empty; version := empty; info_description := empty;
                         info_base_url := empty |};
          endpoints :=
            [ {| method := "GET"; path := "/pets"; summary := JStr "List pets";
                 description := empty; parameters := [];
                 responses := [("200", {| resp_description := JStr "OK";
                                          resp_schema := JObj [];
                                          resp_examples := [] |})];
                 examples := [] |} ];
          total_endpoints := 1 |}.
Proof. vm_compute. reflexivity. Qed.

End SpecParserFacts.

(** ** The example enricher *)

Module EnricherFacts.
Import J Model ExampleEnricher.

Definition named_parameters (e : Endpoint) : Prop :=
  Forall (fun p => exists s, param_name p = JStr s) (parameters e).

Lemma enhance_parameter_ok (h : HtmlExamples) (p : ParamInfo) :
  (exists s, param_name p = JStr s) -> exists p', enhance_parameter h p = Ok p'.
Proof.
  intros [s Hs]. unfold enhance_parameter. rewrite Hs.
  destruct (negb (truthy (param_example p))
            && negb (Nat.eqb (length (parameter_examples h)) 0)); [| eauto].
  cbn [str_lower rbind].
  destruct (pick_parameter_example (Py.lower s) (parameter_examples h)); eauto.
Qed.

Lemma rmap_ok {A B : Type} (f : A -> result B) (l : list A) :
  Forall (fun x => exists y, f x = Ok y) l -> exists l', rmap f l = Ok l'.
Proof.
  induction 1 as [| x l [y Hy] _ [l' IH]]; cbn; [eauto |].
  rewrite Hy. cbn. rewrite IH. cbn. eauto.
Qed.

Lemma rmap_Forall2 {A B : Type} (f : A -> result B) (R : A -> B -> Prop) (l : list A) :
  (forall x y, f x = Ok y -> R x y) ->
  forall l', rmap f l = Ok l' -> Forall2 R l l'.
Proof.
  intros Hf. induction l as [| x l IH]; intros l' H; cbn in H.
  - injection H as <-. constructor.
  - destruct (f x) as [y | e] eqn:Hx; [| discriminate H]. cbn in H.
    destruct (rmap f l) as [ys | e]; [| discriminate H]. cbn in H.
    injection H as <-. constructor; [by apply Hf | by apply IH].
Qed.

(** The examples of an endpoint after the enrichment. *)
Definition enriched_examples (h : HtmlExamples) (exs : list ExampleRecord) : list ExampleRecord :=
  exs
  ++ (match exs with
      | [] => map html_extracted (firstn 3 (response_examples h))
      | _ :: _ => []
      end)
  ++ map code_example (firstn 2 (code_examples h)).

Lemma add_examples_enriched (h : HtmlExamples) (exs : list ExampleRecord) :
  add_code_examples h (add_response_examples h exs) = enriched_examples h exs.
Proof.
  unfold add_code_examples, add_response_examples, enriched_examples.
  destruct exs as [| x exs]; cbn [length Nat.eqb andb].
  - destruct (response_examples h) as [| r rs]; cbn [length Nat.eqb negb];
      (destruct (code_examples h) as [| c cs]; cbn [length Nat.eqb negb];
       cbn [firstn map app]; rewrite ?app_nil_r; reflexivity).
  - destruct (code_examples h) as [| c cs]; cbn [length Nat.eqb negb];
      cbn [firstn map app]; rewrite ?app_nil_r; reflexivity.
Qed.

Lemma enhance_endpoint_examples (h : HtmlExamples) (e e' : Endpoint) :
  enhance_endpoint h e = Ok e' -> examples e' = enriched_examples h (examples e).
Proof.
  unfold enhance_endpoint. intros H.
  destruct (rmap (enhance_parameter h) (parameters e)); [| discriminate H].
  cbn in H. injection H as <-. cbn. apply add_examples_enriched.
Qed.

(** C9, as the code has it: the enrichment returns when every parameter
    has a name; it appends the mined response examples, at most 3 of
    them, to the endpoints that have no example and to no other; it
    appends the mined code examples, at most 2 of them, to every
    endpoint, the ones that already have examples included. *)
Theorem enricher_appends_code_examples_to_every_endpoint
    (endpoints : list Endpoint) (h : HtmlExamples) :
  Forall named_parameters endpoints ->
  exists enriched,
    _enhance_endpoints_with_html_examples endpoints (Some h) = Ok enriched
    /\ Forall2
         (fun e e' =>
            examples e'
            = examples e
              ++ (if Nat.eqb (length (examples e)) 0
                  then map html_extracted (firstn 3 (response_examples h))
                  else [])
              ++ map code_example (firstn 2 (code_examples h)))
         endpoints enriched
    /\ length (firstn 3 (response_examples h)) <= 3
    /\ length (firstn 2 (code_examples h)) <= 2.
Proof.
  intros Hnamed. cbn [_enhance_endpoints_with_html_examples].
  destruct (rmap_ok (enhance_endpoint h) endpoints) as [enriched Hen].
  { eapply Forall_impl; [exact Hnamed |]. intros e He. unfold enhance_endpoint.
    destruct (rmap_ok (enhance_parameter h) (parameters e)) as [ps ->]; [| cbn; eauto].
    eapply Forall_impl; [exact He |]. intros p. apply enhance_parameter_ok. }
  exists enriched. split; [exact Hen |]. split.
  - eapply rmap_Forall2; [| exact Hen]. intros e e' He.
    rewrite (enhance_endpoint_examples h e e' He). unfold enriched_examples.
    by destruct (examples e).
  - split; apply firstn_le_length.
Qed.

(** *** An endpoint that has an example already *)

Definition documented : Endpoint :=
  {| method := "GET"; path := "/pets"; summary := JStr "List pets"; description := JStr EmptyString;
     parameters := [];
     responses := [];
     examples := [Example "response" None (Some "200") (Some "application/json") (JArr [])] |}.

Definition mined : HtmlExamples :=
  {| parameter_examples := [];
     response_examples := ["{id: 1}"];
     code_examples := ["curl https://a.example/pets"; "GET /pets HTTP/1.1"; "wget /pets"] |}.

(** C9 fails as stated: the endpoint has an example, and it is given two
    code examples all the same. *)
Lemma endpoint_with_examples_gets_code_examples :
  exists e',
    _enhance_endpoints_with_html_examples [documented] (Some mined) = Ok [e']
    /\ length (examples documented) = 1
    /\ examples e'
       = examples documented
         ++ [code_example "curl https://a.example/pets"; code_example "GET /pets HTTP/1.1"]
    /\ examples e' <> examples documented.
Proof.
  eexists. split; [vm_compute; reflexivity |].
  split; [reflexivity |]. split; [reflexivity | discriminate].
Qed.

Lemma enricher_witness :
  exists enriched,
    _enhance_endpoints_with_html_examples [documented] (Some mined) = Ok enriched
    /\ Forall2
         (fun e e' =>
            examples e'
            = examples e
              ++ (if Nat.eqb (length (examples e)) 0
                  then map html_extracted (firstn 3 (response_examples mined))
                  else [])
              ++ map code_example (firstn 2 (code_examples mined)))
         [documented] enriched
    /\ length (firstn 3 (response_examples mined)) <= 3
    /\ length (firstn 2 (code_examples mined)) <= 2.
Proof.
  apply (enricher_appends_code_examples_to_every_endpoint [documented] mined).
  constructor; [constructor | constructor].
Defined.

End EnricherFacts.

(** ** The rate limiter *)

Module RateLimiterFacts.
Import RateLimiter.

(** One call at time 0 and nineteen at time 30, each finished before the
    next; then two calls at time 31, which both find 20 entries and both
    sleep until time 60, when the entry of time 0 leaves the window. *)
Definition two_sleepers : list Event :=
  [Call 0; Finish]
  ++ concat (repeat [Call 30; Finish] 19)
  ++ [Call 31; Call 31; Wake 60; Wake 60].

(** A call that sleeps is let through when it resumes, whatever the list
    holds by then: line 1315 follows the sleep without a second test. *)
Lemma wake_lets_through (s s' : State) (now : Q) :
  step s (Wake now) = Some s' ->
  admissions s' = admissions s ++ [now]
  /\ jina_rate_limiter s' = prune now (jina_rate_limiter s) ++ [now].
Proof.
  unfold step. destruct (sleepers s) as [| deadline rest]; [discriminate |].
  destruct (Qle_bool (clock s) now && Qle_bool deadline now); [| discriminate].
  intros [= <-]. split; reflexivity.
Qed.

(** Both calls of time 31 are asked to sleep 29 seconds. *)
Example second_sleeper_is_not_held_back :
  exists s, run initial (firstn 42 two_sleepers) = Some s
            /\ sleepers s = [60; 60]%Q
            /\ length (jina_rate_limiter s) = 20%nat.
Proof. eexists. split; [vm_compute; reflexivity |]. split; reflexivity. Qed.

(** C6 fails on this run: every step of it can happen (the clock never
    goes back, at most 20 calls hold the semaphore, no sleep is cut
    short), and at time 60 the 60 seconds just passed hold 21 calls let
    through, 21 being also the length of the limiter's own list. *)
Theorem rate_limiter_lets_21_calls_through :
  exists s : State,
    run initial two_sleepers = Some s
    /\ length (admissions s) = 22%nat
    /\ admitted_in_window 60 s = 21%nat
    /\ length (jina_rate_limiter s) = 21%nat
    /\ sleepers s = [].
Proof.
  eexists. split; [vm_compute; reflexivity |].
  repeat split; vm_compute; reflexivity.
Qed.

(** *** No call enters while another sleeps

    The bound the limiter is written for holds for the runs in which a
    call gets to the limiter only when no other call is asleep in it. *)

Definition step_alone (s : State) (ev : Event) : option State :=
  match ev, sleepers s with
  | Call _, _ :: _ => None
  | _, _ => step s ev
  end.

Fixpoint run_alone (s : State) (evs : list Event) : option State :=
  match evs with
  | [] => Some s
  | ev :: evs' =>
      match step_alone s ev with
      | Some s' => run_alone s' evs'
      | None => None
      end
  end.

Definition in_window (t a : Q) : bool := Qlt_bool (t - a)%Q 60%Q && Qle_bool a t.

Lemma Qlt_bool_true (a b : Q) : Qlt_bool a b = true <-> (a < b)%Q.
Proof.
  unfold Qlt_bool. rewrite negb_true_iff. split.
  - intros H. apply Qnot_le_lt. intros Hle. apply Qle_bool_iff in Hle. congruence.
  - intros H. destruct (Qle_bool b a) eqn:E; [| reflexivity].
    apply Qle_bool_iff in E. lra.
Qed.

Lemma Qlt_bool_false (a b : Q) : Qlt_bool a b = false <-> (b <= a)%Q.
Proof.
  unfold Qlt_bool. rewrite negb_false_iff. apply Qle_bool_iff.
Qed.

Lemma filter_length_le {A : Type} (P R : A -> bool) (l : list A) :
  (forall a, P a = true -> R a = true) ->
  (length (List.filter P l) <= length (List.filter R l))%nat.
Proof.
  intros HPR. induction l as [| a l IH]; cbn; [lia |].
  destruct (P a) eqn:HP.
  - rewrite (HPR a HP). cbn. lia.
  - destruct (R a); cbn; lia.
Qed.

Lemma prune_length (now : Q) (l : list Q) : (length (prune now l) <= length l)%nat.
Proof.
  unfold prune. induction l as [| a l IH]; cbn; [lia |].
  destruct (Qlt_bool (now - a) 60); cbn; lia.
Qed.

(** Pruning at a later time makes the earlier pruning redundant. *)
Lemma prune_prune (c now : Q) (l : list Q) :
  (c <= now)%Q -> prune now (prune c l) = prune now l.
Proof.
  intros Hle. unfold prune. induction l as [| a l IH]; cbn; [reflexivity |].
  destruct (Qlt_bool (c - a) 60) eqn:Hc; cbn; rewrite IH; [reflexivity |].
  destruct (Qlt_bool (now - a) 60) eqn:Hn; [| reflexivity].
  apply Qlt_bool_true in Hn. apply Qlt_bool_false in Hc. lra.
Qed.

Lemma prune_snoc (now : Q) (l : list Q) : prune now (l ++ [now]) = prune now l ++ [now].
Proof.
  unfold prune. rewrite List.filter_app. cbn.
  assert (Qlt_bool (now - now) 60 = true) as -> by (apply Qlt_bool_true; lra).
  reflexivity.
Qed.

(** The oldest entry of a pruned list is removed by a pruning 60 seconds
    after it. *)
Lemma prune_drops_head (now h : Q) (l : list Q) :
  (h + 60 <= now)%Q -> (length (prune now (h :: l)) <= length l)%nat.
Proof.
  intros H. unfold prune. cbn.
  assert (Qlt_bool (now - h) 60 = false) as -> by (apply Qlt_bool_false; lra).
  apply (prune_length now l).
Qed.

(** What holds of every state of such a run. *)
Record Safe (s : State) : Prop := {
  safe_list : jina_rate_limiter s = prune (clock s) (admissions s);
  safe_length : (length (jina_rate_limiter s) <= 20)%nat;
  safe_sleeper :
    match sleepers s with
    | [] => True
    | deadline :: rest =>
        rest = []
        /\ match jina_rate_limiter s with
           | h :: _ => (h + 60 <= deadline)%Q
           | [] => False
           end
    end;
  safe_window : forall t, (length (List.filter (in_window t) (admissions s)) <= 20)%nat
}.

Lemma initial_safe : Safe initial.
Proof. split; cbn; auto; intros; lia. Qed.

(** The calls let through in a window ending at or after the clock are
    in the limiter's list. *)
Lemma window_in_list (t now : Q) (log : list Q) :
  (now <= t)%Q ->
  (length (List.filter (in_window t) log) <= length (prune now log))%nat.
Proof.
  intros Hle. apply filter_length_le. intros a Ha. unfold in_window in Ha.
  apply andb_prop in Ha. destruct Ha as [Ha _].
  apply Qlt_bool_true in Ha. apply Qlt_bool_true. lra.
Qed.

(** Letting a call through at [now] keeps every window within the
    length of the new list. *)
Lemma window_after_admission (t now : Q) (log : list Q) :
  (forall t', (length (List.filter (in_window t') log) <= 20)%nat) ->
  (length (prune now log ++ [now]) <= 20)%nat ->
  (length (List.filter (in_window t) (log ++ [now])) <= 20)%nat.
Proof.
  intros Hold Hnew. rewrite List.filter_app, length_app. cbn [List.filter].
  destruct (in_window t now) eqn:Hin; cbn [length].
  - unfold in_window in Hin. apply andb_prop in Hin. destruct Hin as [_ Hle].
    apply Qle_bool_iff in Hle. pose proof (window_in_list t now log Hle).
    rewrite length_app in Hnew. cbn in Hnew. lia.
  - specialize (Hold t). lia.
Qed.

Lemma step_alone_safe (s s' : State) (ev : Event) :
  Safe s -> step_alone s ev = Some s' -> Safe s'.
Proof.
  intros [Hlist Hlen Hsleeper Hwindow]. unfold step_alone, step.
  destruct ev as [now | now |].
  - destruct (sleepers s) as [| d rest] eqn:Hsl; [| discriminate].
    destruct (Qle_bool (clock s) now) eqn:Hclock; [| discriminate].
    apply Qle_bool_iff in Hclock. cbn [andb].
    destruct (length [] + in_flight s <? 20)%nat; [| discriminate].
    unfold enter.
    assert (prune now (jina_rate_limiter s) = prune now (admissions s)) as Hpr
      by (rewrite Hlist; by apply prune_prune).
    pose proof (prune_length now (jina_rate_limiter s)) as Hpl.
    destruct (20 <=? length (prune now (jina_rate_limiter s)))%nat eqn:Hfull.
    + apply Nat.leb_le in Hfull.
      destruct (prune now (jina_rate_limiter s)) as [| h l] eqn:Hl; [cbn in Hfull; lia |].
      assert (Qlt_bool (now - h) 60 = true) as Hh.
      { assert (In h (prune now (jina_rate_limiter s))) as Hin by (rewrite Hl; by left).
        unfold prune in Hin. apply filter_In in Hin. by destruct Hin. }
      cbn [hd].
      assert (Qlt_bool 0 (60 - (now - h)) = true) as ->.
      { apply Qlt_bool_true. apply Qlt_bool_true in Hh. lra. }
      intros [= <-]. split; cbn [clock jina_rate_limiter sleepers in_flight admissions].
      * exact Hpr.
      * lia.
      * split; [reflexivity | lra].
      * exact Hwindow.
    + apply Nat.leb_gt in Hfull. intros [= <-].
      assert (length (prune now (admissions s) ++ [now]) <= 20)%nat as Hnew.
      { rewrite <- Hpr, length_app. cbn. lia. }
      split; cbn [clock jina_rate_limiter sleepers in_flight admissions].
      * by rewrite prune_snoc, Hpr.
      * by rewrite Hpr.
      * exact I.
      * intros t. by apply window_after_admission.
  - destruct (sleepers s) as [| d rest] eqn:Hsl; [discriminate |].
    destruct (Qle_bool (clock s) now) eqn:Hclock; [| discriminate].
    destruct (Qle_bool d now) eqn:Hd; [| discriminate].
    apply Qle_bool_iff in Hclock. apply Qle_bool_iff in Hd. cbn [andb].
    intros [= <-]. destruct Hsleeper as [-> Hhead].
    assert (prune now (jina_rate_limiter s) = prune now (admissions s)) as Hpr
      by (rewrite Hlist; by apply prune_prune).
    assert (length (prune now (admissions s) ++ [now]) <= 20)%nat as Hnew.
    { rewrite <- Hpr, length_app. cbn.
      destruct (jina_rate_limiter s) as [| h l]; [contradiction |].
      assert (h + 60 <= now)%Q as Hh by lra.
      pose proof (prune_drops_head now h l Hh). cbn in Hlen. lia. }
    unfold resume. split; cbn [clock jina_rate_limiter sleepers in_flight admissions].
    + by rewrite prune_snoc, Hpr.
    + by rewrite Hpr.
    + exact I.
    + intros t. by apply window_after_admission.
  - destruct (sleepers s) as [| d rest] eqn:Hsl;
      (destruct (in_flight s); [discriminate |]; intros [= <-]; split;
       cbn [clock jina_rate_limiter sleepers in_flight admissions]; try done;
       by rewrite Hsl).
Qed.

Lemma run_alone_safe (evs : list Event) (s s' : State) :
  Safe s -> run_alone s evs = Some s' -> Safe s'.
Proof.
  revert s. induction evs as [| ev evs IH]; intros s Hs; cbn.
  - by intros [= <-].
  - destruct (step_alone s ev) as [s1 |] eqn:Hstep; [| discriminate].
    apply IH. by apply (step_alone_safe s s1 ev).
Qed.

(** When no call enters the limiter while another sleeps in it, no 60
    seconds hold more than 20 calls let through, whatever the arrival
    times and however long the sleeps last. *)
Lemma at_most_20_calls_when_alone (evs : list Event) (s : State) (t : Q) :
  run_alone initial evs = Some s -> (admitted_in_window t s <= 20)%nat.
Proof.
  intros Hrun. destruct (run_alone_safe evs initial s initial_safe Hrun) as [_ _ _ Hwindow].
  exact (Hwindow t).
Qed.

(** Such a run is a run of the limiter. *)
Lemma run_alone_run (evs : list Event) (s s' : State) :
  run_alone s evs = Some s' -> run s evs = Some s'.
Proof.
  revert s. induction evs as [| ev evs IH]; intros s; cbn; [done |].
  destruct (step_alone s ev) as [s1 |] eqn:Hstep; [| discriminate].
  assert (step s ev = Some s1) as ->.
  { unfold step_alone in Hstep. destruct ev; [destruct (sleepers s) |..]; congruence. }
  apply IH.
Qed.

(** The run of two sleepers is not one of them: its second call of time
    31 enters while the first sleeps. *)
Example two_sleepers_overlap : run_alone initial two_sleepers = None.
Proof. vm_compute. reflexivity. Qed.

End RateLimiterFacts.

(** ** The per-URL pipeline *)

Module PipelineFacts.
Import Stats SwaggerEnhancedScraper URLScraperApp.

(** The way a content extraction fails, if it does: the reason of the
    handler that catches its exception, or of the test of line 1095 on
    an empty content. *)
Definition fetch_failure (extracted : result string) : option FailureReason :=
  match extracted with
  | Raise e => fetch_failure_reason e
  | Ok content => if String.eqb content EmptyString then Some CONTENT_EXTRACTION_ERROR else None
  end.

(** The URL is in the failure map with this reason. *)
Definition failed_with (r : FailureReason) (url : string) (w : World) : Prop :=
  exists msg now,
    failed_urls (stats w) !! url = Some {| reason := value r; error_msg := msg; timestamp := now |}.

Section Pipeline.

Variable jina_get : nat -> string -> result (Z * string).
Variable swagger_extract : nat -> string -> string -> result ExtractResult.
Variable invoke_model : nat -> string -> InvokeOutcome.
Variable bedrock_client : bool.
Variable construct_prompt_for_aws_bedrock : string -> string -> string.
Variable format_swagger_content_for_llm : ExtractResult -> string -> string -> string.
Variable isoformat : nat -> string.
Variable str : exn -> string.

Local Abbreviation bedrock_attempts := (bedrock_attempts invoke_model).
Local Abbreviation process_with_bedrock :=
  (process_with_bedrock invoke_model bedrock_client construct_prompt_for_aws_bedrock).
Local Abbreviation process_content :=
  (process_content swagger_extract invoke_model bedrock_client
     construct_prompt_for_aws_bedrock format_swagger_content_for_llm isoformat str).
Local Abbreviation attempt_body :=
  (attempt_body jina_get swagger_extract invoke_model bedrock_client
     construct_prompt_for_aws_bedrock format_swagger_content_for_llm isoformat str).
Local Abbreviation attempts_loop :=
  (attempts_loop jina_get swagger_extract invoke_model bedrock_client
     construct_prompt_for_aws_bedrock format_swagger_content_for_llm isoformat str).
Local Abbreviation process_single_url :=
  (process_single_url jina_get swagger_extract invoke_model bedrock_client
     construct_prompt_for_aws_bedrock format_swagger_content_for_llm isoformat str).
Local Abbreviation run_single_url :=
  (run_single_url jina_get swagger_extract invoke_model bedrock_client
     construct_prompt_for_aws_bedrock format_swagger_content_for_llm isoformat str).
Local Abbreviation record_failure := (record_failure isoformat).

(** What a world keeps of another apart from the Bedrock calls and the
    sleeps. *)
Definition same_but_bedrock (w w' : World) : Prop :=
  stats w' = stats w /\ jina_calls w' = jina_calls w /\ swagger_calls w' = swagger_calls w
  /\ clock_reads w' = clock_reads w.

Lemma bedrock_attempts_frame (attempts : list nat) (prompt : string) (w : World) :
  same_but_bedrock w (fst (bedrock_attempts attempts prompt w)).
Proof.
  revert w. induction attempts as [| attempt rest IH]; intros w;
    cbn [URLScraperApp.bedrock_attempts].
  - by repeat split.
  - destruct (invoke_model (bedrock_calls w) prompt) as [text | kind]; [by repeat split |].
    destruct (attempt <? bedrock_max_retries - 1)%nat; [| by repeat split].
    destruct (IH (sleep (delay kind attempt) (count_bedrock w))) as (H1 & H2 & H3 & H4).
    unfold same_but_bedrock. rewrite H1, H2, H3, H4. by repeat split.
Qed.

Lemma process_with_bedrock_frame (content url : string) (w : World) :
  same_but_bedrock w (fst (process_with_bedrock content url w)).
Proof.
  unfold URLScraperApp.process_with_bedrock.
  destruct (negb bedrock_client); [by repeat split | apply bedrock_attempts_frame].
Qed.

Lemma record_failure_failed_with (url : string) (r : FailureReason) (msg : string) (w : World) :
  failed_with r url (record_failure url r msg w).
Proof.
  exists msg, (isoformat (clock_reads w)). cbn. apply lookup_insert_eq.
Qed.

(** *** Content extraction that fails on every attempt *)

Lemma retry_or_fail_retries (attempt : nat) (url : string) (r : FailureReason) (msg : string)
    (w : World) :
  (attempt < max_retries)%nat ->
  retry_or_fail isoformat attempt url r msg w = (sleep 2%float w, Continue).
Proof.
  intros H. unfold retry_or_fail. apply Nat.ltb_lt in H. by rewrite H.
Qed.

Lemma retry_or_fail_fails (url : string) (r : FailureReason) (msg : string) (w : World) :
  retry_or_fail isoformat max_retries url r msg w = (record_failure url r msg w, Return None).
Proof. reflexivity. Qed.

Lemma attempt_body_fetch_fails (attempt : nat) (url base_url : string) (w : World)
    (r : FailureReason) :
  fetch_failure (extract_content_via_jina (jina_get (jina_calls w) url)) = Some r ->
  exists msg,
    attempt_body attempt url base_url w = retry_or_fail isoformat attempt url r msg (count_jina w).
Proof.
  unfold URLScraperApp.attempt_body, extract_content_via_jina_rate_limited, fetch_failure.
  destruct (extract_content_via_jina (jina_get (jina_calls w) url)) as [content | e].
  - destruct (String.eqb content EmptyString); [| discriminate].
    intros [= <-]. eauto.
  - intros ->. eauto.
Qed.

Lemma fetch_exhausts_retries (url base_url : string) (w : World) :
  (forall n, is_Some (fetch_failure (extract_content_via_jina (jina_get n url)))) ->
  exists r w',
    process_single_url url base_url w = (w', Ok None)
    /\ fetch_failure (extract_content_via_jina (jina_get (jina_calls w + 2) url)) = Some r
    /\ failed_with r url w'
    /\ jina_calls w' = (jina_calls w + 3)%nat
    /\ swagger_calls w' = swagger_calls w
    /\ bedrock_calls w' = bedrock_calls w
    /\ sleeps w' = sleeps w ++ [2; 2]%float.
Proof.
  intros Hfail.
  destruct (Hfail (jina_calls w)) as [r0 H0].
  destruct (Hfail (S (jina_calls w))) as [r1 H1].
  destruct (Hfail (S (S (jina_calls w)))) as [r2 H2].
  exists r2. unfold URLScraperApp.process_single_url.
  cbn [seq Nat.add max_retries URLScraperApp.attempts_loop].
  destruct (attempt_body_fetch_fails 0 url base_url w r0 H0) as [msg0 ->].
  rewrite retry_or_fail_retries by (unfold max_retries; lia).
  destruct (attempt_body_fetch_fails 1 url base_url (sleep 2%float (count_jina w)) r1 H1)
    as [msg1 ->].
  rewrite retry_or_fail_retries by (unfold max_retries; lia).
  destruct (attempt_body_fetch_fails 2 url base_url
              (sleep 2%float (count_jina (sleep 2%float (count_jina w)))) r2 H2)
    as [msg2 ->].
  rewrite (retry_or_fail_fails url r2 msg2).
  eexists. split; [reflexivity |].
  split; [by replace (jina_calls w + 2)%nat with (S (S (jina_calls w))) by lia |].
  split; [apply record_failure_failed_with |].
  cbn. repeat split; try lia. by rewrite <- app_assoc.
Qed.

(** *** A transformation that fails on every attempt *)

Lemma bedrock_attempts_all_fail (prompt : string) (w : World) :
  (forall n p, exists kind, invoke_model n p = InvokeFailed kind) ->
  snd (bedrock_attempts (seq 0 bedrock_max_retries) prompt w) = None
  /\ bedrock_calls (fst (bedrock_attempts (seq 0 bedrock_max_retries) prompt w))
     = (bedrock_calls w + 3)%nat.
Proof.
  intros Hfail. cbn [seq bedrock_max_retries URLScraperApp.bedrock_attempts Nat.add].
  destruct (Hfail (bedrock_calls w) prompt) as [k0 ->]. cbn [Nat.ltb Nat.leb Nat.sub].
  cbn [bedrock_calls sleep count_bedrock].
  destruct (Hfail (S (bedrock_calls w)) prompt) as [k1 ->]. cbn [Nat.ltb Nat.leb Nat.sub].
  cbn [bedrock_calls sleep count_bedrock].
  destruct (Hfail (S (S (bedrock_calls w))) prompt) as [k2 ->]. cbn [Nat.ltb Nat.leb Nat.sub].
  cbn. split; [reflexivity | lia].
Qed.

Hypothesis detection_not_cancelled :
  forall n url content e, swagger_extract n url content = Raise e -> is_Exception e = true.

Lemma process_content_transform_fails (attempt : nat) (url base_url content : string)
    (w : World) :
  bedrock_client = true ->
  (forall n p, exists kind, invoke_model n p = InvokeFailed kind) ->
  exists w3,
    process_content attempt url base_url content w
    = retry_or_fail isoformat attempt url BEDROCK_ERROR
        "Failed to process content with Bedrock after all retries" w3
    /\ jina_calls w3 = jina_calls w
    /\ swagger_calls w3 = S (swagger_calls w)
    /\ bedrock_calls w3 = (bedrock_calls w + 3)%nat.
Proof using detection_not_cancelled.
  intros Hclient Hfail. unfold URLScraperApp.process_content.
  match goal with
  | |- context [match ?c with Ok _ => _ | Raise _ => _ end] =>
      assert (exists w2 sr c2, c = Ok (w2, sr, c2)
                               /\ jina_calls w2 = jina_calls w
                               /\ swagger_calls w2 = S (swagger_calls w)
                               /\ bedrock_calls w2 = bedrock_calls w)
        as (w2 & sr & c2 & -> & Hj & Hs & Hb)
  end.
  { destruct (swagger_extract (swagger_calls w) url content) as [r | e] eqn:Hsw.
    - destruct (result_is_swagger r && result_success r); by repeat eexists.
    - rewrite (detection_not_cancelled _ _ _ _ Hsw). by repeat eexists. }
  unfold process_with_bedrock_rate_limited, URLScraperApp.process_with_bedrock.
  rewrite Hclient. cbn [negb].
  pose proof (bedrock_attempts_all_fail (construct_prompt_for_aws_bedrock c2 url) w2 Hfail)
    as [Hnone Hcalls].
  pose proof (bedrock_attempts_frame (seq 0 bedrock_max_retries)
                (construct_prompt_for_aws_bedrock c2 url) w2) as (_ & Hj' & Hs' & _).
  destruct (bedrock_attempts (seq 0 bedrock_max_retries)
              (construct_prompt_for_aws_bedrock c2 url) w2) as [w3 processed].
  cbn [fst snd] in *. subst processed.
  exists w3. split; [reflexivity |]. repeat split; congruence.
Qed.

Lemma attempt_body_transform_fails (attempt : nat) (url base_url : string) (w : World) :
  (exists content, extract_content_via_jina (jina_get (jina_calls w) url) = Ok content
                   /\ content <> EmptyString) ->
  bedrock_client = true ->
  (forall n p, exists kind, invoke_model n p = InvokeFailed kind) ->
  exists w3,
    attempt_body attempt url base_url w
    = retry_or_fail isoformat attempt url BEDROCK_ERROR
        "Failed to process content with Bedrock after all retries" w3
    /\ jina_calls w3 = S (jina_calls w)
    /\ swagger_calls w3 = S (swagger_calls w)
    /\ bedrock_calls w3 = (bedrock_calls w + 3)%nat.
Proof using detection_not_cancelled.
  intros (content & Hcontent & Hne) Hclient Hfail.
  unfold URLScraperApp.attempt_body, extract_content_via_jina_rate_limited.
  rewrite Hcontent. apply String.eqb_neq in Hne. rewrite Hne.
  destruct (process_content_transform_fails attempt url base_url content (count_jina w)
              Hclient Hfail) as (w3 & -> & Hj & Hs & Hb).
  exists w3. by repeat split.
Qed.

Lemma transformation_exhausts_retries (url base_url : string) (w : World) :
  (forall n, exists content, extract_content_via_jina (jina_get n url) = Ok content
                             /\ content <> EmptyString) ->
  bedrock_client = true ->
  (forall n p, exists kind, invoke_model n p = InvokeFailed kind) ->
  exists w',
    process_single_url url base_url w = (w', Ok None)
    /\ failed_with BEDROCK_ERROR url w'
    /\ jina_calls w' = (jina_calls w + 3)%nat
    /\ swagger_calls w' = (swagger_calls w + 3)%nat
    /\ bedrock_calls w' = (bedrock_calls w + 9)%nat.
Proof using detection_not_cancelled.
  intros Hfetch Hclient Hfail. unfold URLScraperApp.process_single_url.
  cbn [seq Nat.add max_retries URLScraperApp.attempts_loop].
  destruct (attempt_body_transform_fails 0 url base_url w (Hfetch _) Hclient Hfail)
    as (w1 & -> & Hj1 & Hs1 & Hb1).
  rewrite retry_or_fail_retries by (unfold max_retries; lia).
  destruct (attempt_body_transform_fails 1 url base_url (sleep 2%float w1) (Hfetch _)
              Hclient Hfail) as (w2 & -> & Hj2 & Hs2 & Hb2).
  rewrite retry_or_fail_retries by (unfold max_retries; lia).
  destruct (attempt_body_transform_fails 2 url base_url (sleep 2%float w2) (Hfetch _)
              Hclient Hfail) as (w3 & -> & Hj3 & Hs3 & Hb3).
  rewrite retry_or_fail_fails.
  eexists. split; [reflexivity |]. split; [apply record_failure_failed_with |].
  cbn in *. repeat split; lia.
Qed.

(** C3, as the code has it.  A content extraction that fails on each
    attempt is called exactly 3 times, with a pause of 2 seconds between
    the attempts; no other stage is run and the URL is recorded as
    failed with the reason of the third failure.  A transformation whose
    Bedrock call raises each time is run 3 times by [process_single_url]
    and each run calls Bedrock 3 times: 9 calls of the underlying call,
    beside 3 content extractions and 3 Swagger checks, and the URL is
    recorded as failed with [bedrock_error]. *)
Theorem failing_stage_exhausts_its_retries (url base_url : string) (w : World) :
  ((forall n, is_Some (fetch_failure (extract_content_via_jina (jina_get n url)))) ->
   exists r w',
     process_single_url url base_url w = (w', Ok None)
     /\ fetch_failure (extract_content_via_jina (jina_get (jina_calls w + 2) url)) = Some r
     /\ failed_with r url w'
     /\ jina_calls w' = (jina_calls w + (max_retries + 1))%nat
     /\ swagger_calls w' = swagger_calls w
     /\ bedrock_calls w' = bedrock_calls w
     /\ sleeps w' = sleeps w ++ [2; 2]%float)
  /\ ((forall n, exists content, extract_content_via_jina (jina_get n url) = Ok content
                                 /\ content <> EmptyString) ->
      bedrock_client = true ->
      (forall n p, exists kind, invoke_model n p = InvokeFailed kind) ->
      exists w',
        process_single_url url base_url w = (w', Ok None)
        /\ failed_with BEDROCK_ERROR url w'
        /\ jina_calls w' = (jina_calls w + (max_retries + 1))%nat
        /\ swagger_calls w' = (swagger_calls w + (max_retries + 1))%nat
        /\ bedrock_calls w' = (bedrock_calls w + (max_retries + 1) * bedrock_max_retries)%nat).
Proof using detection_not_cancelled.
  split.
  - apply fetch_exhausts_retries.
  - apply transformation_exhausts_retries.
Qed.

(** *** A Swagger check that raises *)

Lemma retry_or_fail_no_result (attempt : nat) (url : string) (r : FailureReason) (msg : string)
    (w w' : World) (res : Result) :
  retry_or_fail isoformat attempt url r msg w <> (w', Return (Some res)).
Proof.
  unfold retry_or_fail. destruct (attempt <? max_retries)%nat; intros [=].
Qed.

Lemma process_content_returns (attempt : nat) (url base_url content : string)
    (w w' : World) (res : Result) :
  (forall n c, exists e, swagger_extract n url c = Raise e /\ is_Exception e = true) ->
  process_content attempt url base_url content w = (w', Return (Some res)) ->
  failed_with SWAGGER_DETECTION_ERROR url w'.
Proof.
  intros Hdet. unfold URLScraperApp.process_content.
  destruct (Hdet (swagger_calls w) content) as (e & -> & ->).
  unfold process_with_bedrock_rate_limited.
  pose proof (process_with_bedrock_frame content url
                (record_failure url SWAGGER_DETECTION_ERROR
                   ("Swagger detection failed: " ++ str e) (count_swagger w)))
    as (Hstats & _).
  destruct (process_with_bedrock content url
              (record_failure url SWAGGER_DETECTION_ERROR
                 ("Swagger detection failed: " ++ str e) (count_swagger w)))
    as [w3 processed].
  cbn [fst] in Hstats.
  destruct processed as [text |]; [| intros H; by apply retry_or_fail_no_result in H].
  destruct (String.eqb text EmptyString); [intros H; by apply retry_or_fail_no_result in H |].
  intros [= <- _].
  destruct (record_failure_failed_with url SWAGGER_DETECTION_ERROR
              ("Swagger detection failed: " ++ str e) (count_swagger w)) as (msg & now & Hl).
  exists msg, now. cbn [stats count_clock]. by rewrite Hstats.
Qed.

Lemma attempt_body_returns (attempt : nat) (url base_url : string) (w w' : World)
    (res : Result) :
  (forall n c, exists e, swagger_extract n url c = Raise e /\ is_Exception e = true) ->
  attempt_body attempt url base_url w = (w', Return (Some res)) ->
  failed_with SWAGGER_DETECTION_ERROR url w'.
Proof.
  intros Hdet. unfold URLScraperApp.attempt_body, extract_content_via_jina_rate_limited.
  destruct (extract_content_via_jina (jina_get (jina_calls w) url)) as [content | e].
  - destruct (String.eqb content EmptyString).
    + intros H. by apply retry_or_fail_no_result in H.
    + by apply process_content_returns.
  - destruct (fetch_failure_reason e); [| intros [=]].
    intros H. by apply retry_or_fail_no_result in H.
Qed.

Lemma attempts_loop_returns (attempts : list nat) (url base_url : string) (w w' : World)
    (res : Result) :
  (forall n c, exists e, swagger_extract n url c = Raise e /\ is_Exception e = true) ->
  attempts_loop attempts url base_url w = (w', Ok (Some res)) ->
  failed_with SWAGGER_DETECTION_ERROR url w'.
Proof.
  intros Hdet. revert w. induction attempts as [| attempt rest IH]; intros w;
    cbn [URLScraperApp.attempts_loop]; [intros [=] |].
  destruct (attempt_body attempt url base_url w) as [w1 flow] eqn:Hbody.
  destruct flow as [r | | e].
  - intros [= -> ->]. exact (attempt_body_returns _ _ _ _ _ _ Hdet Hbody).
  - apply IH.
  - intros [=].
Qed.


End Pipeline.

(** *** Runs on one URL *)

Definition jina_times_out (n : nat) (url : string) : result (Z * string) := Raise TimeoutError.

Definition jina_serves (n : nat) (url : string) : result (Z * string) := Ok (200%Z, "# Guide").

Definition check_finds_nothing (n : nat) (url content : string) : result ExtractResult :=
  Ok (NotSwagger 0%float []).

Definition check_raises (n : nat) (url content : string) : result ExtractResult :=
  Raise KeyError.

Definition bedrock_throttles (n : nat) (prompt : string) : InvokeOutcome :=
  InvokeFailed Throttling.

Definition bedrock_formats (n : nat) (prompt : string) : InvokeOutcome :=
  Completed "# Guide, formatted".

Definition the_prompt (content source_url : string) : string := content.

Definition no_formatting (r : ExtractResult) (content url : string) : string := content.

Definition midnight (n : nat) : string := "2025-01-01T00:00:00".

Definition message (e : exn) : string := "error".

Definition fresh : World := new_world (Stats.new "https://a.example").

(** A run whose fetches succeed and whose Bedrock calls are throttled. *)
Definition throttled_run : World * result (option Result) :=
  process_single_url jina_serves check_finds_nothing bedrock_throttles true the_prompt
    no_formatting midnight message "https://a.example/guide" "https://a.example" fresh.

(** A run whose Swagger check raises and that is processed all the same. *)
Definition checked_run : World :=
  run_single_url jina_serves check_raises bedrock_formats true the_prompt
    no_formatting midnight message "https://a.example/guide" "https://a.example".

(** C3 fails as stated: with a transformation that fails on every
    attempt, the underlying Bedrock call is made 9 times, not
    [max_retries + 1 = 3] times. *)
Lemma transformation_is_called_nine_times :
  snd throttled_run = Ok None
  /\ bedrock_calls (fst throttled_run) = 9%nat
  /\ bedrock_calls (fst throttled_run) <> (max_retries + 1)%nat.
Proof.
  split; [vm_compute; reflexivity |].
  split; [vm_compute; reflexivity | vm_compute; discriminate].
Qed.

Lemma failing_stage_witness :
  (exists r w',
      process_single_url jina_times_out check_finds_nothing bedrock_formats true the_prompt
        no_formatting midnight message "https://a.example/guide" "https://a.example" fresh
      = (w', Ok None)
      /\ fetch_failure (extract_content_via_jina (jina_times_out 2 "https://a.example/guide"))
         = Some r
      /\ failed_with r "https://a.example/guide" w'
      /\ jina_calls w' = 3%nat
      /\ bedrock_calls w' = 0%nat)
  /\ (exists w',
        throttled_run = (w', Ok None)
        /\ failed_with BEDROCK_ERROR "https://a.example/guide" w'
        /\ jina_calls w' = 3%nat
        /\ bedrock_calls w' = 9%nat).
Proof.
  split.
  - destruct (failing_stage_exhausts_its_retries jina_times_out check_finds_nothing
                bedrock_formats true the_prompt no_formatting midnight message
                ltac:(intros n u c e; discriminate)
                "https://a.example/guide" "https://a.example" fresh) as [Hfetch _].
    destruct (Hfetch ltac:(intros n; by eexists)) as (r & w' & H1 & H2 & H3 & H4 & _ & H6 & _).
    exists r, w'. by repeat split.
  - destruct (failing_stage_exhausts_its_retries jina_serves check_finds_nothing
                bedrock_throttles true the_prompt no_formatting midnight message
                ltac:(intros n u c e; discriminate)
                "https://a.example/guide" "https://a.example" fresh) as [_ Htransform].
    destruct (Htransform ltac:(intros n; eexists; split; [reflexivity | discriminate])
                eq_refl ltac:(intros n p; by eexists))
      as (w' & H1 & H2 & H3 & _ & H5).
    exists w'. by repeat split.
Defined.



End PipelineFacts.

(** * Further properties *)

(** ** ProcessingStats: failures and Swagger counters *)

Module StatsInvariants.
Import Stats.

(** A call of [add_failure]: the URL, the reason, the message, the time. *)
Definition FailureCall : Type := string * FailureReason * string * string.

Definition failure_url (c : FailureCall) : string := fst (fst (fst c)).

Definition record_failure_call (s : ProcessingStats) (c : FailureCall) : ProcessingStats :=
  add_failure (failure_url c) (snd (fst (fst c))) (snd (fst c)) (snd c) s.

(** A call of [add_swagger_detection]: the URL, the method, the count. *)
Definition Detection : Type := string * string * nat.

Definition record_detection (s : ProcessingStats) (d : Detection) : ProcessingStats :=
  add_swagger_detection (fst (fst d)) (snd (fst d)) (snd d) s.

(** The detections made with a method. *)
Definition detections_with (m : string) (ds : list Detection) : nat :=
  length (List.filter (fun d : Detection => String.eqb (snd (fst d)) m) ds).

Lemma record_failures_dom (calls : list FailureCall) (s : ProcessingStats) :
  dom (failed_urls (fold_left record_failure_call calls s))
  = dom (failed_urls s) ∪ list_to_set (map failure_url calls).
Proof.
  revert s. induction calls as [| c calls IH]; intros s; cbn [fold_left map].
  - set_solver.
  - rewrite IH. unfold record_failure_call, add_failure. cbn [failed_urls with_failed_urls].
    rewrite dom_insert_L. set_solver.
Qed.

Lemma record_failures_other (calls : list FailureCall) (s : ProcessingStats) (url : string) :
  url ∉ map failure_url calls ->
  failed_urls (fold_left record_failure_call calls s) !! url = failed_urls s !! url.
Proof.
  revert s. induction calls as [| c calls IH]; intros s Hnot; cbn [fold_left]; [reflexivity |].
  cbn [map] in Hnot. apply not_elem_of_cons in Hnot. destruct Hnot as [Hne Hnot].
  rewrite (IH _ Hnot). unfold record_failure_call, add_failure.
  cbn [failed_urls with_failed_urls]. by rewrite lookup_insert_ne.
Qed.

(** X1: after any sequence of [add_failure] calls on a fresh instance,
    [failure_count] is the number of distinct URLs that failed, and the
    entry of a URL is the one of its last call: a later failure of the
    same URL replaces the reason, the message and the time. *)
Theorem last_failure_of_a_url_wins
    (b : string) (before after : list FailureCall)
    (url : string) (r : FailureReason) (msg now : string) :
  url ∉ map failure_url after ->
  let s := fold_left record_failure_call (before ++ (url, r, msg, now) :: after) (Stats.new b) in
  failed_urls s !! url = Some {| reason := value r; error_msg := msg; timestamp := now |}
  /\ failure_count s
     = size (list_to_set (map failure_url (before ++ (url, r, msg, now) :: after))
               : gset string).
Proof.
  intros Hnot s. split.
  - unfold s. rewrite fold_left_app. cbn [fold_left].
    rewrite (record_failures_other after _ url Hnot).
    apply StatsFacts.add_failure_lookup.
  - unfold failure_count. rewrite <- size_dom. unfold s.
    rewrite record_failures_dom. cbn [Stats.new failed_urls]. f_equal. set_solver.
Qed.

Lemma last_failure_witness :
  let s := fold_left record_failure_call
             [("https://a.example/x", TIMEOUT_ERROR, "timed out", "10:00");
              ("https://a.example/y", BEDROCK_ERROR, "throttled", "10:01");
              ("https://a.example/x", PROCESSING_ERROR, "no result", "10:02")]
             (Stats.new "https://a.example") in
  failed_urls s !! "https://a.example/x"
  = Some {| reason := "processing_error"; error_msg := "no result"; timestamp := "10:02" |}
  /\ failure_count s
     = size (list_to_set ["https://a.example/x"; "https://a.example/y"; "https://a.example/x"]
               : gset string).
Proof.
  apply (last_failure_of_a_url_wins "https://a.example"
           [("https://a.example/x", TIMEOUT_ERROR, "timed out", "10:00");
            ("https://a.example/y", BEDROCK_ERROR, "throttled", "10:01")]
           [] "https://a.example/x" PROCESSING_ERROR "no result" "10:02").
  apply not_elem_of_nil.
Defined.

Lemma record_detections_snoc (ds : list Detection) (d : Detection) (s : ProcessingStats) :
  fold_left record_detection (ds ++ [d]) s = record_detection (fold_left record_detection ds s) d.
Proof. by rewrite fold_left_app. Qed.

(** X2: after any sequence of [add_swagger_detection] calls on a fresh
    instance, the number of pages detected is the number of calls, the
    Swagger URLs are the URLs of the calls in their order (a URL
    detected twice is listed twice), the endpoints extracted are the sum
    of the counts, and the counter of an extraction method is the number
    of calls made with it, a method never used having no entry. *)
Theorem swagger_counters_count_the_detections (b : string) (ds : list Detection) :
  let s := fold_left record_detection ds (Stats.new b) in
  swagger_pages_detected s = length ds
  /\ swagger_urls s = map (fun d : Detection => fst (fst d)) ds
  /\ api_endpoints_extracted s = list_sum (map (fun d : Detection => snd d) ds)
  /\ forall m,
       swagger_extraction_methods s !! m
       = if Nat.eqb (detections_with m ds) 0 then None else Some (detections_with m ds).
Proof.
  cbn zeta. induction ds as [| d ds IH] using rev_ind.
  - repeat split.
  - rewrite record_detections_snoc. destruct IH as (Hpages & Hurls & Hsum & Hmethods).
    set (s := fold_left record_detection ds (Stats.new b)) in *.
    unfold record_detection, add_swagger_detection.
    cbn [swagger_pages_detected swagger_urls api_endpoints_extracted swagger_extraction_methods].
    rewrite Hpages, Hurls, Hsum, !map_app, length_app, list_sum_app.
    cbn [map length list_sum fold_right].
    split; [lia |]. split; [reflexivity |]. split; [lia |].
    intros m. unfold detections_with. rewrite List.filter_app, length_app. cbn [List.filter].
    destruct (String.eqb (snd (fst d)) m) eqn:Hm.
    + apply String.eqb_eq in Hm. subst m. rewrite lookup_insert_eq, Hmethods.
      unfold detections_with. cbn [length].
      destruct (length (List.filter (fun d0 : Detection => String.eqb (snd (fst d0)) (snd (fst d)))
                          ds)) as [| n]; cbn [Nat.eqb default id].
      * reflexivity.
      * replace (S n + 1)%nat with (S (S n)) by lia. reflexivity.
    + apply String.eqb_neq in Hm. rewrite lookup_insert_ne by done. rewrite Hmethods.
      unfold detections_with. cbn [length]. by rewrite Nat.add_0_r.
Qed.

End StatsInvariants.

(** ** Grouping the results by website and the failures by reason *)

Module ReportsFacts.
Import Stats Reports.

Lemma group_add_assoc {A : Type} (k k' : string) (v : A) (groups : list (string * list A)) :
  J.assoc k' (group_add k v groups)
  = if String.eqb k' k then Some (default [] (J.assoc k' groups) ++ [v]) else J.assoc k' groups.
Proof.
  induction groups as [| [k0 vs] groups IH]; cbn [group_add J.assoc].
  - destruct (String.eqb k' k); reflexivity.
  - destruct (String.eqb k k0) eqn:Hk0; cbn [J.assoc].
    + apply String.eqb_eq in Hk0. subst k0.
      destruct (String.eqb k' k); reflexivity.
    + rewrite IH. destruct (String.eqb k' k0) eqn:Hk'; [| reflexivity].
      apply String.eqb_eq in Hk'. subst k0.
      rewrite String.eqb_sym, Hk0. reflexivity.
Qed.

Lemma group_add_keys {A : Type} (k : string) (v : A) (groups : list (string * list A)) :
  NoDup (map fst groups) -> NoDup (map fst (group_add k v groups))
  /\ forall k', k' ∈ map fst (group_add k v groups) -> k' = k \/ k' ∈ map fst groups.
Proof.
  induction groups as [| [k0 vs] groups IH]; cbn [group_add map fst]; intros Hnodup.
  - split; [apply NoDup_singleton |]. intros k' Hin. apply list_elem_of_singleton in Hin. by left.
  - apply NoDup_cons in Hnodup. destruct Hnodup as [Hnot Hnodup].
    destruct (String.eqb k k0) eqn:Hk0; cbn [map fst].
    + split; [by apply NoDup_cons |]. intros k' Hin. by right.
    + destruct (IH Hnodup) as [IH1 IH2]. split.
      * apply NoDup_cons. split; [| exact IH1]. intros Hin.
        destruct (IH2 _ Hin) as [-> | Hin']; [| done].
        by rewrite String.eqb_refl in Hk0.
      * intros k' Hin. apply elem_of_cons in Hin. destruct Hin as [-> | Hin].
        -- right. apply elem_of_cons. by left.
        -- destruct (IH2 _ Hin) as [-> | Hin']; [by left |]. right. apply elem_of_cons. by right.
Qed.

Lemma group_by_snoc {A : Type} (key : A -> string) (l : list A) (x : A) :
  group_by key (l ++ [x]) = group_add (key x) x (group_by key l).
Proof. unfold group_by. by rewrite fold_left_app. Qed.

Lemma group_by_assoc {A : Type} (key : A -> string) (l : list A) (k : string) :
  J.assoc k (group_by key l)
  = match List.filter (fun x => String.eqb (key x) k) l with
    | [] => None
    | x :: xs => Some (x :: xs)
    end.
Proof.
  induction l as [| x l IH] using rev_ind; [reflexivity |].
  rewrite group_by_snoc, group_add_assoc, IH, List.filter_app. cbn [List.filter].
  rewrite (String.eqb_sym k (key x)).
  destruct (String.eqb (key x) k); cbn [app].
  - destruct (List.filter (fun x0 => String.eqb (key x0) k) l); reflexivity.
  - rewrite app_nil_r. reflexivity.
Qed.

Lemma group_by_keys {A : Type} (key : A -> string) (l : list A) :
  NoDup (map fst (group_by key l)).
Proof.
  induction l as [| x l IH] using rev_ind; [apply NoDup_nil_2 |].
  rewrite group_by_snoc. by apply group_add_keys.
Qed.

(** X3: the grouping of [save_rag_optimized_results] and
    [export_results] has one group for each base URL that has a
    result, no base URL twice, and the group of a base URL holds the
    results that carry it, all of them, in the order of
    [processed_results] (so a URL processed twice is there twice). *)
Theorem results_by_website_groups_by_base_url
    (processed_results : list URLScraperApp.Result) (b : string) :
  NoDup (map fst (results_by_website processed_results))
  /\ J.assoc b (results_by_website processed_results)
     = match List.filter (fun r => String.eqb (URLScraperApp.result_base_url r) b)
               processed_results with
       | [] => None
       | r :: rs => Some (r :: rs)
       end.
Proof. split; [apply group_by_keys | apply group_by_assoc]. Qed.

Lemma assoc_map_groups {A B : Type} (f : list A -> list B) (k : string)
    (groups : list (string * list A)) :
  J.assoc k (map (fun g : string * list A => (fst g, f (snd g))) groups)
  = f <$> J.assoc k groups.
Proof.
  induction groups as [| [k0 vs] groups IH]; [reflexivity |].
  cbn [map J.assoc fst snd]. destruct (String.eqb k k0); [reflexivity | exact IH].
Qed.

Lemma elem_of_filter_list {A : Type} (p : A -> bool) (l : list A) (x : A) :
  x ∈ List.filter p l <-> x ∈ l /\ p x = true.
Proof. rewrite !list_elem_of_In. apply filter_In. Qed.

(** X4: [get_failures_by_reason] lists a URL under a reason exactly
    when the failure map holds the URL with that reason: every failed
    URL is under the reason of its last failure and under no other. *)
Theorem failures_are_grouped_by_recorded_reason (s : ProcessingStats) (r url : string) :
  (exists urls, J.assoc r (get_failures_by_reason s) = Some urls /\ url ∈ urls)
  <-> exists info, failed_urls s !! url = Some info /\ reason info = r.
Proof.
  unfold get_failures_by_reason. rewrite assoc_map_groups, group_by_assoc.
  set (entries := List.filter _ _).
  assert (Hentries : forall entry, entry ∈ entries
            <-> failed_urls s !! fst entry = Some (snd entry) /\ reason (snd entry) = r).
  { intros [u info]. unfold entries. rewrite elem_of_filter_list, elem_of_map_to_list.
    cbn [fst snd]. by rewrite String.eqb_eq. }
  split.
  - intros (urls & Hgroup & Hin).
    assert (Hurls : urls = map fst entries).
    { destruct entries; cbn in Hgroup; [discriminate | injection Hgroup as <-; reflexivity]. }
    subst urls. apply list_elem_of_fmap in Hin. destruct Hin as ([u info] & -> & Hin).
    apply Hentries in Hin. by exists info.
  - intros (info & Hlookup & Hreason).
    assert (Hin : (url, info) ∈ entries) by by apply Hentries.
    exists (map fst entries). split.
    + destruct entries; [by apply elem_of_nil in Hin | reflexivity].
    + apply list_elem_of_fmap. by exists (url, info).
Qed.

End ReportsFacts.

(** ** File names of the saved documents *)

Module NamingFacts.
Import Naming.

(** What the file name keeps of an ASCII character of the path:
    letters, digits, [-], [_] and the separator [/]; any other ASCII
    character reads as [_].  Characters outside ASCII are left alone. *)
Definition blur (c : ascii) : ascii :=
  if is_word c || Ascii.eqb c "-"%char || Ascii.eqb c "/"%char || (128 <=? nat_of_ascii c)%nat
  then c else "_"%char.

Lemma blur_slash (d : ascii) : Ascii.eqb "/"%char (blur d) = Ascii.eqb "/"%char d.
Proof. destruct d as [[] [] [] [] [] [] [] []]; reflexivity. Qed.

Lemma blur_kept (d : ascii) :
  (if is_word (blur d) || Ascii.eqb (blur d) "-"%char then blur d else "_"%char)
  = (if is_word d || Ascii.eqb d "-"%char then d else "_"%char).
Proof. destruct d as [[] [] [] [] [] [] [] []]; reflexivity. Qed.

Lemma map_string_app (f : ascii -> ascii) (a b : string) :
  Py.map_string f (a ++ b) = (Py.map_string f a ++ Py.map_string f b)%string.
Proof.
  induction a as [| c a IH]; [reflexivity |].
  change (String c a ++ b)%string with (String c (a ++ b)).
  cbn [Py.map_string]. rewrite IH. reflexivity.
Qed.

Lemma map_string_empty (f : ascii -> ascii) (s : string) :
  String.eqb (Py.map_string f s) EmptyString = String.eqb s EmptyString.
Proof. by destruct s. Qed.

Lemma split_blur (s : string) :
  split "/" (Py.map_string blur s) = map (Py.map_string blur) (split "/" s).
Proof.
  induction s as [| d s IH]; [reflexivity |].
  cbn [Py.map_string split]. rewrite blur_slash, IH.
  destruct (Ascii.eqb "/" d); [reflexivity |].
  destruct (split "/" s); reflexivity.
Qed.

Lemma nonempty_parts_blur (parts : list string) :
  List.filter (fun p => negb (String.eqb p EmptyString)) (map (Py.map_string blur) parts)
  = map (Py.map_string blur) (List.filter (fun p => negb (String.eqb p EmptyString)) parts).
Proof.
  induction parts as [| p parts IH]; [reflexivity |].
  cbn [map List.filter]. rewrite map_string_empty, IH.
  by destruct (negb (String.eqb p EmptyString)).
Qed.

Lemma join_blur (parts : list string) :
  join "_" (map (Py.map_string blur) parts) = Py.map_string blur (join "_" parts).
Proof.
  induction parts as [| p parts IH]; [reflexivity |].
  destruct parts as [| q parts]; [reflexivity |].
  change (join "_" (map (Py.map_string blur) (p :: q :: parts)))
    with (Py.map_string blur p ++ "_" ++ join "_" (map (Py.map_string blur) (q :: parts)))%string.
  rewrite IH.
  change (join "_" (p :: q :: parts)) with (p ++ "_" ++ join "_" (q :: parts))%string.
  by rewrite !map_string_app.
Qed.

Lemma sanitize_blur (s : string) : sanitize (Py.map_string blur s) = sanitize s.
Proof.
  unfold sanitize. induction s as [| d s IH]; [reflexivity |].
  cbn [Py.map_string]. by rewrite blur_kept, IH.
Qed.

(** X5: the file name of a document depends on the path of its URL
    only up to the ASCII characters that are neither letters, digits,
    [-], [_] nor [/]: replacing any of them by [_] gives the same name,
    so the documents of [/api/v1.0] and [/api/v1_0] are written to the
    same file. *)
Theorem document_name_ignores_other_characters (path numbered : string) :
  document_name (Py.map_string blur path) numbered = document_name path numbered.
Proof.
  unfold document_name. rewrite split_blur, nonempty_parts_blur, length_map, join_blur.
  destruct (negb (Nat.eqb (length _) 0)); [| reflexivity].
  by rewrite sanitize_blur.
Qed.

Lemma join_nonempty (parts : list string) :
  Forall (fun p => p <> EmptyString) parts -> parts <> [] -> join "_" parts <> EmptyString.
Proof.
  intros Hparts Hne. destruct parts as [| p parts]; [done |].
  apply Forall_cons in Hparts. destruct Hparts as [Hp _].
  destruct p as [| c p]; [done |]. by destruct parts.
Qed.

Lemma nonempty_parts (parts : list string) :
  Forall (fun p => p <> EmptyString)
    (List.filter (fun p => negb (String.eqb p EmptyString)) parts).
Proof.
  apply Forall_forall. intros p Hin. apply list_elem_of_In, filter_In in Hin.
  destruct Hin as [_ Hp]. intros ->. discriminate Hp.
Qed.

(** X6: the name of a document is never empty, whatever the path, so
    the numbered name ([doc_007], [page_7]) that the code keeps for an
    empty name is never used. *)
Theorem numbered_document_name_is_never_used (path numbered : string) :
  document_name path numbered <> EmptyString
  /\ forall other, document_name path other = document_name path numbered.
Proof.
  unfold document_name.
  set (path_parts := List.filter _ _).
  set (filename := if negb (Nat.eqb (length path_parts) 0) then _ else _).
  assert (Hname : filename <> EmptyString).
  { unfold filename. destruct path_parts as [| p parts] eqn:Hparts; [done |].
    cbn [length Nat.eqb negb]. rewrite <- Hparts. apply join_nonempty.
    - apply nonempty_parts.
    - by rewrite Hparts. }
  assert (Hsafe : String.eqb (sanitize filename) EmptyString = false).
  { unfold sanitize. rewrite map_string_empty. by apply String.eqb_neq. }
  rewrite Hsafe. split; [by apply String.eqb_neq | reflexivity].
Qed.

Lemma split_not_nil (c : ascii) (s : string) : split c s <> [].
Proof.
  destruct s as [| d s]; [done |]. cbn [split].
  destruct (Ascii.eqb c d); [done |]. by destruct (split c s).
Qed.

Lemma join_split (c : ascii) (s : string) : join (String c EmptyString) (split c s) = s.
Proof.
  induction s as [| d s IH]; [reflexivity |].
  cbn [split]. destruct (Ascii.eqb c d) eqn:Hc.
  - apply Ascii.eqb_eq in Hc. subst d.
    pose proof (split_not_nil c s) as Hne.
    destruct (split c s) as [| p parts]; [done |].
    change (join (String c EmptyString) (EmptyString :: p :: parts))
      with (String c (join (String c EmptyString) (p :: parts))).
    by rewrite IH.
  - pose proof (split_not_nil c s) as Hne.
    destruct (split c s) as [| p parts]; [done |].
    destruct parts as [| q parts].
    + cbn [join] in *. by rewrite IH.
    + change (join (String c EmptyString) (String d p :: q :: parts))
        with (String d (join (String c EmptyString) (p :: q :: parts))).
      by rewrite IH.
Qed.

Lemma split_parts (c : ascii) (s p : string) : p ∈ split c s -> split c p = [p].
Proof.
  revert p. induction s as [| d s IH]; intros p Hin.
  - apply list_elem_of_singleton in Hin. by subst p.
  - cbn [split] in Hin. destruct (Ascii.eqb c d) eqn:Hc.
    + apply elem_of_cons in Hin. destruct Hin as [-> | Hin]; [reflexivity | by apply IH].
    + pose proof (split_not_nil c s) as Hne.
      destruct (split c s) as [| q parts]; [done |].
      apply elem_of_cons in Hin. destruct Hin as [-> | Hin].
      * cbn [split]. rewrite Hc, (IH q); [reflexivity | apply elem_of_cons; by left].
      * apply IH. apply elem_of_cons. by right.
Qed.

Lemma from_end_is_Some {A : Type} (k : nat) (l : list A) :
  (1 <= k <= length l)%nat -> is_Some (from_end k l).
Proof.
  intros Hk. unfold from_end.
  destruct (Nat.leb_spec k (length l)) as [_ | Hlt]; [| lia].
  destruct (nth_error l (length l - k)) eqn:Hnth; [by eexists |].
  apply nth_error_None in Hnth. lia.
Qed.

(** X7: computing the prefix of the file names of a website raises
    [IndexError] exactly for the domains [www.] followed by a label
    without a dot (a label whose split at the dots is itself), such as
    [www.localhost]; for every other domain, the empty one included, it
    returns. *)
Theorem website_prefix_fails_on_www_and_one_label (domain : string) :
  website_prefix domain = None
  <-> exists label, split "." label = [label] /\ domain = ("www." ++ label)%string.
Proof.
  split.
  - intros Hnone. unfold website_prefix in Hnone.
    pose proof (join_split "." domain) as Hjoin.
    pose proof (split_parts "." domain) as Hparts.
    pose proof (split_not_nil "." domain) as Hne.
    destruct (split "." domain) as [| a [| b [| c parts]]].
    + done.
    + discriminate Hnone.
    + change (from_end 2 [a; b]) with (Some a) in Hnone. cbn [length Nat.leb mbind option_bind] in Hnone.
      destruct (String.eqb a "www") eqn:Ha; cbn [negb] in Hnone; [| discriminate Hnone].
      apply String.eqb_eq in Ha. subst a. exists b. split.
      * apply Hparts. apply elem_of_cons. right. apply elem_of_cons. by left.
      * by rewrite <- Hjoin.
    + exfalso.
      destruct (from_end_is_Some 2 (a :: b :: c :: parts)) as [x Hx]; [cbn [length]; lia |].
      destruct (from_end_is_Some 3 (a :: b :: c :: parts)) as [y Hy]; [cbn [length]; lia |].
      rewrite Hx, Hy in Hnone. cbn [length Nat.leb mbind option_bind] in Hnone.
      by destruct (negb (String.eqb x "www")).
  - intros (label & Hlabel & ->). unfold website_prefix.
    assert (Hsplit : split "." ("www." ++ label) = ["www"; label]).
    { change ("www." ++ label)%string
        with (String "w" (String "w" (String "w" (String "." label)))).
      cbn [split Ascii.eqb Bool.eqb]. by rewrite Hlabel. }
    rewrite Hsplit. reflexivity.
Qed.

End NamingFacts.

(** ** The loop over the completed tasks *)

Module CompletionFacts.
Import Stats URLScraperApp Completion.

(** The results that the tasks returned, in their order of completion. *)
Definition returned (outcomes : list (result (option Result))) : list Result :=
  omap (fun o : result (option Result) => match o with Ok (Some r) => Some r | _ => None end)
       outcomes.

(** A task that was cancelled. *)
Definition cancelled (o : result (option Result)) : bool :=
  match o with
  | Raise e => negb (is_Exception e)
  | Ok _ => false
  end.

Lemma rfold_snoc {A B : Type} (f : B -> A -> result B) (l : list A) (x : A) (b : B) :
  rfold f (l ++ [x]) b = (b' <-? rfold f l b ;; f b' x).
Proof.
  revert b. induction l as [| y l IH]; intros b; cbn [app rfold].
  - unfold rbind. by destruct (f b x).
  - unfold rbind at 1 3. destruct (f b y); [apply IH | reflexivity].
Qed.

Lemma add_success_elem_iff (url url' : string) (s : ProcessingStats) :
  url' ∈ successful_urls (add_success url s) <-> url' ∈ successful_urls s \/ url' = url.
Proof.
  unfold add_success. destruct (Py.in_list url (successful_urls s)) eqn:E.
  - apply StatsFacts.in_list_elem_of in E. split; [by left |].
    intros [Hin | ->]; done.
  - cbn. rewrite elem_of_app, list_elem_of_singleton. reflexivity.
Qed.

Section Loop.

Variable isoformat : nat -> string.
Variable str : exn -> string.

Local Abbreviation file_outcome := (Completion.file_outcome isoformat str).
Local Abbreviation file_outcomes := (Completion.file_outcomes isoformat str).

Lemma file_outcomes_snoc (urls : list (string * string))
    (outcomes : list (result (option Result))) (o : result (option Result)) (st : LoopState) :
  file_outcomes urls (outcomes ++ [o]) st
  = (st' <-? file_outcomes urls outcomes st ;; file_outcome urls st' (length outcomes, o)).
Proof.
  unfold Completion.file_outcomes. rewrite imap_app. cbn [imap].
  rewrite Nat.add_0_r. apply rfold_snoc.
Qed.

(** What the loop keeps, for the statistics of one base URL. *)
Definition filed (urls : list (string * string)) (outcomes : list (result (option Result)))
    (b : string) (s s' : ProcessingStats) : Prop :=
  forall url,
    url ∈ successful_urls s'
    <-> url ∈ successful_urls s
        \/ exists i r, outcomes !! i = Some (Ok (Some r)) /\ urls !! i = Some (url, b).

Lemma file_failure_filed (url_info : option (string * string)) (msg : string)
    (st : LoopState) :
  (forall url b, url_info = Some (url, b) -> is_Some (processing_stats st !! b)) ->
  exists st', file_failure isoformat url_info msg st = Ok st'
    /\ processed_results st' = processed_results st
    /\ forall b s, processing_stats st !! b = Some s ->
         exists s', processing_stats st' !! b = Some s'
                    /\ successful_urls s' = successful_urls s.
Proof.
  intros Hkey. unfold file_failure. destruct url_info as [[url base] |].
  - destruct (Hkey url base eq_refl) as [s0 Hs0]. unfold update_stats. rewrite Hs0.
    cbn [rbind]. eexists. split; [reflexivity |]. cbn [processed_results processing_stats].
    split; [reflexivity |]. intros b s Hs.
    destruct (decide (b = base)) as [-> | Hne].
    + rewrite lookup_insert_eq. eexists. split; [reflexivity |].
      assert (Heq : s0 = s) by congruence. by subst s0.
    + rewrite lookup_insert_ne by done. by exists s.
  - exists st. split; [reflexivity |]. split; [reflexivity |]. intros b s Hs. by exists s.
Qed.

Lemma file_outcomes_filed (urls : list (string * string))
    (outcomes : list (result (option Result))) (st : LoopState) :
  (forall i url b, urls !! i = Some (url, b) -> is_Some (processing_stats st !! b)) ->
  Forall (fun o => cancelled o = false) outcomes ->
  exists st', file_outcomes urls outcomes st = Ok st'
    /\ processed_results st' = processed_results st ++ returned outcomes
    /\ forall b s, processing_stats st !! b = Some s ->
         exists s', processing_stats st' !! b = Some s' /\ filed urls outcomes b s s'.
Proof.
  intros Hkeys. induction outcomes as [| o outcomes IH] using rev_ind; intros Hnot.
  - exists st. split; [reflexivity |]. split; [by rewrite app_nil_r |].
    intros b s Hs. exists s. split; [done |]. intros url. split; [by left |].
    intros [Hin | (i & r & Hi & _)]; [done | by rewrite lookup_nil in Hi].
  - apply Forall_app in Hnot. destruct Hnot as [Hnot Ho].
    apply (proj1 (Forall_singleton _ _)) in Ho.
    destruct (IH Hnot) as (st1 & Hrun & Hresults & Hstats).
    rewrite file_outcomes_snoc, Hrun. cbn [rbind].
    assert (Hkeys1 : forall url b, urls !! length outcomes = Some (url, b) ->
                       is_Some (processing_stats st1 !! b)).
    { intros url b Hi. destruct (Hkeys _ _ _ Hi) as [s Hs].
      destruct (Hstats _ _ Hs) as (s1 & Hs1 & _). by exists s1. }
    assert (Hsame : forall msg,
      exists st', file_failure isoformat (urls !! length outcomes) msg st1 = Ok st'
        /\ processed_results st' = processed_results st ++ returned outcomes
        /\ forall b s, processing_stats st !! b = Some s ->
             exists s', processing_stats st' !! b = Some s'
                        /\ forall url, url ∈ successful_urls s'
                             <-> url ∈ successful_urls s
                                 \/ exists i r, outcomes !! i = Some (Ok (Some r))
                                                /\ urls !! i = Some (url, b)).
    { intros msg. destruct (file_failure_filed (urls !! length outcomes) msg st1 Hkeys1)
        as (st' & Hfile & Hres & Hst').
      exists st'. split; [exact Hfile |]. split; [congruence |]. intros b s Hs.
      destruct (Hstats _ _ Hs) as (s1 & Hs1 & Hfiled).
      destruct (Hst' _ _ Hs1) as (s' & Hs' & Heq). exists s'. split; [exact Hs' |].
      intros url. rewrite Heq. apply Hfiled. }
    assert (Hskip : forall b url,
      (exists i r, (outcomes ++ [o]) !! i = Some (Ok (Some r)) /\ urls !! i = Some (url, b))
      <-> (exists i r, outcomes !! i = Some (Ok (Some r)) /\ urls !! i = Some (url, b))
          \/ exists r, o = Ok (Some r) /\ urls !! length outcomes = Some (url, b)).
    { intros b url. split.
      - intros (i & r & Hi & Hu). apply lookup_snoc_Some in Hi.
        destruct Hi as [[_ Hi] | [-> Hi]]; [left; by exists i, r | right; by exists r].
      - intros [(i & r & Hi & Hu) | (r & -> & Hu)].
        + exists i, r. split; [| done]. apply lookup_app_l_Some. exact Hi.
        + exists (length outcomes), r. split; [| done]. apply list_lookup_middle. reflexivity. }
    unfold returned. rewrite omap_app. fold (returned outcomes). cbn [omap].
    unfold Completion.file_outcome.
    destruct o as [[r |] | e].
    + (* a result *)
      destruct (urls !! length outcomes) as [[url0 base] |] eqn:Hu.
      * destruct (Hkeys1 url0 base eq_refl) as [s0 Hs0]. unfold update_stats. rewrite Hs0.
        cbn [rbind]. eexists. split; [reflexivity |].
        cbn [processed_results processing_stats]. split; [by rewrite Hresults, app_assoc |].
        intros b s Hs. destruct (Hstats _ _ Hs) as (s1 & Hs1 & Hfiled).
        destruct (decide (b = base)) as [-> | Hne].
        -- rewrite lookup_insert_eq. eexists. split; [reflexivity |]. intros url.
           assert (Hs01 : s0 = s1) by congruence. subst s0.
           rewrite add_success_elem_iff, Hskip, (Hfiled url).
           split.
           ++ intros [[Hin | Hex] | ->]; [by left | right; by left |].
              right. right. by exists r.
           ++ intros [Hin | [Hex | (r' & _ & Heq)]];
                [left; by left | left; by right | right; congruence].
        -- rewrite lookup_insert_ne by done. exists s1. split; [done |]. intros url.
           rewrite Hskip, (Hfiled url). split.
           ++ intros [Hin | Hex]; [by left | right; by left].
           ++ intros [Hin | [Hex | (r' & _ & Heq)]]; [by left | by right | congruence].
      * eexists. split; [reflexivity |].
        cbn [processed_results processing_stats]. split; [by rewrite Hresults, app_assoc |].
        intros b s Hs. destruct (Hstats _ _ Hs) as (s1 & Hs1 & Hfiled).
        exists s1. split; [done |]. intros url. rewrite Hskip, (Hfiled url). split.
        -- intros [Hin | Hex]; [by left | right; by left].
        -- intros [Hin | [Hex | (r' & _ & Heq)]]; [by left | by right | congruence].
    + (* no result *)
      destruct (Hsame "Processing returned None result") as (st' & Hfile & Hres & Hst').
      exists st'. split; [exact Hfile |]. split; [by rewrite app_nil_r |].
      intros b s Hs. destruct (Hst' _ _ Hs) as (s' & Hs' & Hiff). exists s'.
      split; [done |]. intros url. rewrite Hskip, (Hiff url). split.
      * intros [Hin | Hex]; [by left | right; by left].
      * intros [Hin | [Hex | (r' & Heq & _)]]; [by left | by right | discriminate Heq].
    + (* an exception *)
      cbn [cancelled] in Ho. apply negb_false_iff in Ho. rewrite Ho.
      destruct (Hsame (str e)) as (st' & Hfile & Hres & Hst').
      exists st'. split; [exact Hfile |]. split; [by rewrite app_nil_r |].
      intros b s Hs. destruct (Hst' _ _ Hs) as (s' & Hs' & Hiff). exists s'.
      split; [done |]. intros url. rewrite Hskip, (Hiff url). split.
      * intros [Hin | Hex]; [by left | right; by left].
      * intros [Hin | [Hex | (r' & Heq & _)]]; [by left | by right | discriminate Heq].
Qed.

(** X8: when every base URL has its statistics and no task is
    cancelled, the loop of [scrape_and_process] ends, the results list
    receives the results the tasks returned, in their order of
    completion, and the success list of a base URL receives the URL of
    [all_crawled_urls[i]] for each rank [i] at which a task completed
    with a result: the URL of the rank, not the URL the result is for. *)
Theorem outcomes_are_filed_under_the_url_of_their_rank (urls : list (string * string))
    (outcomes : list (result (option Result))) (st : LoopState) :
  (forall i url b, urls !! i = Some (url, b) -> is_Some (processing_stats st !! b)) ->
  Forall (fun o => cancelled o = false) outcomes ->
  exists st', file_outcomes urls outcomes st = Ok st'
    /\ processed_results st' = processed_results st ++ returned outcomes
    /\ forall b s, processing_stats st !! b = Some s ->
         exists s', processing_stats st' !! b = Some s'
           /\ forall url,
                url ∈ successful_urls s'
                <-> url ∈ successful_urls s
                    \/ exists i r, outcomes !! i = Some (Ok (Some r))
                                   /\ urls !! i = Some (url, b).
Proof. apply file_outcomes_filed. Qed.

End Loop.

(** Two URLs of a site; the task of the second completes first, with
    its result, and the task of the first returns nothing. *)
Definition site : string := "https://a.example".

Definition two_urls : list (string * string) :=
  [("https://a.example/x", site); ("https://a.example/y", site)].

Definition result_of_y : Result :=
  {| original_url := "https://a.example/y";
     result_base_url := site;
     raw_markdown := "# y";
     processed_content := "y";
     result_timestamp := "10:00";
     swagger_info := None |}.

Definition second_completes_first : list (result (option Result)) :=
  [Ok (Some result_of_y); Ok None].

Definition before_the_loop : LoopState :=
  {| processing_stats := {[ site := Stats.new site ]};
     processed_results := [];
     readings := 0 |}.

Lemma outcomes_are_filed_witness :
  exists st',
    Completion.file_outcomes (fun _ => "10:01") (fun _ => "error") two_urls
      second_completes_first before_the_loop = Ok st'
    /\ processed_results st' = processed_results before_the_loop ++ returned second_completes_first
    /\ forall b s, processing_stats before_the_loop !! b = Some s ->
         exists s', processing_stats st' !! b = Some s'
           /\ forall url,
                url ∈ successful_urls s'
                <-> url ∈ successful_urls s
                    \/ exists i r, second_completes_first !! i = Some (Ok (Some r))
                                   /\ two_urls !! i = Some (url, b).
Proof.
  apply (outcomes_are_filed_under_the_url_of_their_rank (fun _ => "10:01") (fun _ => "error")
           two_urls second_completes_first before_the_loop).
  - intros i url b Hi. exists (Stats.new site).
    destruct i as [| [| i]]; cbn in Hi; [| | discriminate Hi];
      injection Hi as _ <-; apply lookup_singleton_eq.
  - repeat constructor.
Defined.

End CompletionFacts.

(** ** The detector: indicators, threshold and candidates *)

Module IndicatorFacts.
Import J Model SwaggerEnhancedScraper.

(** The names of lines 99-120, in their order. *)
Definition names : list string :=
  ["swagger-ui div/id"; "swagger-ui class"; "swagger.json link"; "openapi.json link";
   "swagger in title"; "opblock class"; "swagger-ui bundle"; "try it out button";
   "swagger text"; "openapi text"; "api documentation"; "api.html path"; "api docs path";
   "rest api indicators"; "http methods"; "json response"].

(** The names of the checks that fired. *)
Fixpoint selected (names : list string) (outcome : list bool) : list string :=
  match names, outcome with
  | n :: names', b :: outcome' => if b then n :: selected names' outcome' else selected names' outcome'
  | _, _ => []
  end.

Fixpoint same_list (a b : list string) : bool :=
  match a, b with
  | [], [] => true
  | x :: a', y :: b' => String.eqb x y && same_list a' b'
  | _, _ => false
  end.

(** The indicators that leave the confidence at or under 0.3. *)
Definition weak (l : list string) : bool :=
  same_list l [] || same_list l ["api documentation"] || same_list l ["json response"].

Lemma same_list_eq (a b : list string) : same_list a b = true <-> a = b.
Proof.
  revert b. induction a as [| x a IH]; intros [| y b]; cbn; try done.
  rewrite andb_true_iff, String.eqb_eq, IH. split; [intros [-> ->]; done | intros [= -> ->]; done].
Qed.

Lemma weak_spec (l : list string) :
  weak l = true <-> l = [] \/ l = ["api documentation"] \/ l = ["json response"].
Proof. unfold weak. rewrite !orb_true_iff, !same_list_eq. tauto. Qed.

Lemma run_checks_names_fold (cs : list (string * result bool * float))
    (acc : list string * float) :
  fst (fold_left
         (fun (acc : list string * float) (c : string * result bool * float) =>
            match snd (fst c) with
            | Ok true => (fst acc ++ [fst (fst c)], (snd acc + snd c)%float)
            | _ => acc
            end) cs acc)
  = fst acc ++ selected (map (fun c => fst (fst c)) cs) (map DetectorFacts.fired cs).
Proof.
  revert acc. induction cs as [| c cs IH]; intros acc; cbn [fold_left map selected].
  - by rewrite app_nil_r.
  - rewrite IH. unfold DetectorFacts.fired at 2.
    destruct (snd (fst c)) as [[|] | e]; cbn [fst]; [| reflexivity | reflexivity].
    by rewrite <- app_assoc.
Qed.

Lemma run_checks_names (cs : list (string * result bool * float)) :
  fst (run_checks cs) = selected (map (fun c => fst (fst c)) cs) (map DetectorFacts.fired cs).
Proof. unfold run_checks. apply run_checks_names_fold. Qed.

(** The threshold on all 65536 outcomes of the sixteen checks. *)
Lemma threshold_on_every_outcome :
  forallb (fun outcome =>
             Bool.eqb (PrimFloat.ltb 0.3%float
                         (Py.min (DetectorFacts.score DetectorFacts.weights outcome 0%float)
                                 1%float))
                      (negb (weak (selected names outcome))))
          (DetectorFacts.outcomes 16) = true.
Proof. vm_compute. reflexivity. Qed.

Lemma threshold_of_outcome (outcome : list bool) :
  length outcome = 16%nat ->
  PrimFloat.ltb 0.3%float
    (Py.min (DetectorFacts.score DetectorFacts.weights outcome 0%float) 1%float)
  = negb (weak (selected names outcome)).
Proof.
  intros Hlen. pose proof threshold_on_every_outcome as Hall.
  rewrite forallb_forall in Hall. apply Bool.eqb_prop, Hall.
  rewrite <- Hlen. apply DetectorFacts.outcomes_complete.
Qed.

Section Detection.

Variable BeautifulSoup : string -> Soup.
Variable count_http_methods : string -> nat.
Variable spec_matches : SpecPattern -> string -> list string.
Variable urljoin : string -> string -> string.
Variable urlparse : string -> ParseResult.

Local Abbreviation detect_html :=
  (detect_html BeautifulSoup count_http_methods spec_matches urljoin urlparse).

Lemma checks_names (soup : Soup) (html content_lower clean_url : string) :
  map (fun c => fst (fst c)) (checks count_http_methods soup html content_lower clean_url)
  = names.
Proof. reflexivity. Qed.

Lemma detect_html_indicators_eq (url html : string) :
  indicators (detect_html url html)
  = fst (run_checks (checks count_http_methods (BeautifulSoup html) html
                       (Py.lower html) (Py.before_first "#" url))).
Proof. reflexivity. Qed.

(** X9: the confidence of a detection is above the threshold of 0.3
    exactly when some indicator was found other than
    [api documentation] alone or [json response] alone, the two
    indicators of weight 0.3. *)
Theorem confidence_exceeds_threshold_unless_indicators_are_weak (url html : string) :
  PrimFloat.ltb 0.3%float (confidence (detect_html url html)) = false
  <-> indicators (detect_html url html) = []
      \/ indicators (detect_html url html) = ["api documentation"]
      \/ indicators (detect_html url html) = ["json response"].
Proof.
  rewrite DetectorFacts.detect_html_confidence_eq, detect_html_indicators_eq.
  rewrite DetectorFacts.run_checks_score, run_checks_names.
  rewrite DetectorFacts.checks_weights, checks_names.
  rewrite threshold_of_outcome by apply DetectorFacts.checks_length.
  rewrite <- weak_spec. by destruct (weak _).
Qed.

End Detection.

End IndicatorFacts.

Module CandidateFacts.
Import J Model SwaggerEnhancedScraper.

(** What a step on the candidate list keeps: the candidates already
    there, in their place, and the absence of duplicates. *)
Definition extends (l l' : list string) : Prop :=
  (exists added, l' = l ++ added) /\ (NoDup l -> NoDup l').

Lemma extends_refl (l : list string) : extends l l.
Proof. split; [exists []; by rewrite app_nil_r | done]. Qed.

Lemma extends_trans (l1 l2 l3 : list string) : extends l1 l2 -> extends l2 l3 -> extends l1 l3.
Proof.
  intros [[a1 ->] H1] [[a2 ->] H2]. split; [| auto].
  exists (a1 ++ a2). by rewrite app_assoc.
Qed.

Lemma append_new_extends (l : list string) (u : string) : extends l (append_new l u).
Proof.
  unfold append_new. destruct (Py.in_list u l) eqn:E; [apply extends_refl |].
  apply StatsFacts.in_list_false in E. split; [by exists [u] |].
  intros Hl. apply NoDup_app. split; [exact Hl |]. split.
  - intros x Hx Hu. apply list_elem_of_singleton in Hu. by subst x.
  - apply NoDup_singleton.
Qed.

Lemma append_new_elem (l : list string) (u : string) : u ∈ append_new l u.
Proof.
  unfold append_new. destruct (Py.in_list u l) eqn:E.
  - by apply StatsFacts.in_list_elem_of.
  - apply elem_of_app. right. by apply list_elem_of_singleton.
Qed.

Lemma extends_elem (l l' : list string) (u : string) : extends l l' -> u ∈ l -> u ∈ l'.
Proof. intros [[a ->] _] Hin. apply elem_of_app. by left. Qed.

Lemma fold_append_new_extends {A : Type} (f : A -> string) (xs : list A) (l : list string) :
  extends l (fold_left (fun acc x => append_new acc (f x)) xs l).
Proof.
  revert l. induction xs as [| x xs IH]; intros l; cbn [fold_left]; [apply extends_refl |].
  eapply extends_trans; [apply append_new_extends | apply IH].
Qed.

Lemma fold_append_new_elem {A : Type} (f : A -> string) (xs : list A) (l : list string) (x : A) :
  x ∈ xs -> f x ∈ fold_left (fun acc x => append_new acc (f x)) xs l.
Proof.
  revert l. induction xs as [| y xs IH]; intros l Hin; [by apply elem_of_nil in Hin |].
  cbn [fold_left]. apply elem_of_cons in Hin. destruct Hin as [-> | Hin]; [| by apply IH].
  eapply extends_elem; [apply fold_append_new_extends | apply append_new_elem].
Qed.

Lemma path_candidates_extends (base_url path : string) (l : list string) :
  extends l (path_candidates base_url path l).
Proof.
  unfold path_candidates.
  repeat match goal with
         | |- context [if ?c then _ else _] => destruct c
         end;
    eauto using extends_refl, extends_trans, append_new_extends.
Qed.

Section Detection.

Variable BeautifulSoup : string -> Soup.
Variable count_http_methods : string -> nat.
Variable spec_matches : SpecPattern -> string -> list string.
Variable urljoin : string -> string -> string.
Variable urlparse : string -> ParseResult.

Local Abbreviation detect_html :=
  (detect_html BeautifulSoup count_http_methods spec_matches urljoin urlparse).
Local Abbreviation scanned_candidates := (scanned_candidates spec_matches urljoin).

Lemma scanned_candidates_NoDup (url html : string) : NoDup (scanned_candidates url html).
Proof.
  unfold SwaggerEnhancedScraper.scanned_candidates.
  assert (H : forall patterns l, NoDup l ->
            NoDup (fold_left
                     (fun spec_urls pattern =>
                        fold_left (fun spec_urls m => append_new spec_urls (urljoin url m))
                                  (spec_matches pattern html) spec_urls)
                     patterns l)).
  { induction patterns as [| p patterns IH]; intros l Hl; cbn [fold_left]; [exact Hl |].
    apply IH. by apply (fold_append_new_extends (urljoin url)). }
  apply H, NoDup_nil_2.
Qed.

Lemma detect_html_spec_urls_eq (url html : string) :
  spec_urls (detect_html url html)
  = let parsed_url := urlparse (Py.before_first "#" url) in
    let base_url := (scheme parsed_url ++ "://" ++ netloc parsed_url)%string in
    path_candidates base_url (url_path parsed_url)
      (fold_left (fun spec_urls pattern => append_new spec_urls (base_url ++ pattern))
                 base_patterns (scanned_candidates url html)).
Proof. reflexivity. Qed.

Lemma detect_html_candidates (url html : string) :
  let parsed_url := urlparse (Py.before_first "#" url) in
  let base_url := (scheme parsed_url ++ "://" ++ netloc parsed_url)%string in
  let candidates := spec_urls (detect_html url html) in
  NoDup candidates
  /\ (exists added, candidates = scanned_candidates url html ++ added)
  /\ forall pattern, pattern ∈ base_patterns -> (base_url ++ pattern)%string ∈ candidates.
Proof.
  cbn zeta. rewrite detect_html_spec_urls_eq. cbn zeta.
  set (base_url := (scheme _ ++ "://" ++ netloc _)%string).
  pose proof (fold_append_new_extends (String.append base_url) base_patterns
                (scanned_candidates url html)) as Hroot.
  pose proof (path_candidates_extends base_url
                (url_path (urlparse (Py.before_first "#" url)))
                (fold_left (fun acc pattern => append_new acc (base_url ++ pattern))
                           base_patterns (scanned_candidates url html))) as Hpath.
  pose proof (extends_trans _ _ _ Hroot Hpath) as [Hprefix Hnodup].
  split; [apply Hnodup, scanned_candidates_NoDup |]. split; [exact Hprefix |].
  intros pattern Hin. eapply extends_elem; [exact Hpath |].
  by apply (fold_append_new_elem (String.append base_url)).
Qed.


Lemma before_first_fragment (url fragment : string) :
  Py.before_first "#" (url ++ "#" ++ fragment) = Py.before_first "#" url.
Proof.
  induction url as [| d url IH].
  - reflexivity.
  - change (String d url ++ "#" ++ fragment)%string
      with (String d (url ++ "#" ++ fragment)).
    cbn [Py.before_first]. by rewrite IH.
Qed.


End Detection.

End CandidateFacts.

(** ** The cleaning of commented JSON *)

Module CleaningFacts.
Import J LenientJSON.

Lemma prefix_cons_false (p : string) (c d : ascii) (s : string) :
  c <> d -> String.prefix (String c p) (String d s) = false.
Proof. intros Hne. cbn [String.prefix]. by destruct (ascii_dec c d). Qed.

Lemma contains_cons (needle : string) (c : ascii) (s : string) :
  Py.contains needle (String c s) = false ->
  String.prefix needle (String c s) = false /\ Py.contains needle s = false.
Proof. cbn [Py.contains]. apply orb_false_elim. Qed.

Lemma contains_char_cons (c d : ascii) (s : string) :
  Py.contains (String c EmptyString) (String d s) = false ->
  c <> d /\ Py.contains (String c EmptyString) s = false.
Proof.
  intros H. apply contains_cons in H. destruct H as [Hp Hs]. split; [| exact Hs].
  intros ->. cbn [String.prefix] in Hp. destruct (ascii_dec d d); [| done].
  by destruct s.
Qed.

Lemma strip_line_comments_clean (s : string) :
  Py.contains "//" s = false -> strip_line_comments_go s false = s.
Proof.
  induction s as [| c s IH]; intros H; [reflexivity |].
  apply contains_cons in H. destruct H as [Hp Hs].
  cbn [strip_line_comments_go]. rewrite Hp. by rewrite IH.
Qed.

Lemma strip_block_comments_clean (s : string) :
  Py.contains "/*" s = false -> strip_block_comments_go s 0 = s.
Proof.
  induction s as [| c s IH]; intros H; [reflexivity |].
  apply contains_cons in H. destruct H as [Hp Hs].
  cbn [strip_block_comments_go]. rewrite Hp. by rewrite IH.
Qed.

Lemma no_slash_no_block_comment (s : string) :
  Py.contains "/" s = false -> Py.contains "/*" s = false.
Proof.
  induction s as [| c s IH]; intros H; [reflexivity |].
  apply contains_char_cons in H. destruct H as [Hne Hs].
  cbn [Py.contains]. rewrite (prefix_cons_false _ _ _ _ Hne). by apply IH.
Qed.

Lemma comment_runs_to_the_end_of_the_line (b rest : string) :
  Py.contains (String newline EmptyString) b = false ->
  strip_line_comments_go (b ++ rest) true = strip_line_comments_go rest true.
Proof.
  induction b as [| d b IH]; intros H; [reflexivity |].
  apply contains_char_cons in H. destruct H as [Hne Hb].
  change (String d b ++ rest)%string with (String d (b ++ rest)).
  cbn [strip_line_comments_go].
  assert (Hd : Ascii.eqb d newline = false) by (apply Ascii.eqb_neq; congruence).
  rewrite Hd. by apply IH.
Qed.

Lemma prefix_line_comment (s : string) : String.prefix "//" (String "/" (String "/" s)) = true.
Proof. cbn [String.prefix]. destruct (ascii_dec "/" "/"); [by destruct s | done]. Qed.

Lemma line_comment_after_text (a b rest : string) :
  Py.contains "/" a = false ->
  Py.contains (String newline EmptyString) b = false ->
  strip_line_comments_go (a ++ "//" ++ b ++ rest) false
  = (a ++ strip_line_comments_go rest true)%string.
Proof.
  intros Ha Hb. induction a as [| d a IH].
  - change (EmptyString ++ "//" ++ b ++ rest)%string
      with (String "/" (String "/" (b ++ rest))).
    cbn [strip_line_comments_go]. rewrite prefix_line_comment.
    change (Ascii.eqb "/" newline) with false. cbn iota.
    by apply comment_runs_to_the_end_of_the_line.
  - apply contains_char_cons in Ha. destruct Ha as [Hne Ha].
    change (String d a ++ "//" ++ b ++ rest)%string
      with (String d (a ++ "//" ++ b ++ rest)).
    cbn [strip_line_comments_go]. rewrite (prefix_cons_false _ _ _ _ Hne).
    rewrite (IH Ha). reflexivity.
Qed.

Section Parser.

Variable json_loads : string -> result json.

Local Abbreviation parse := (_parse_json_with_comments json_loads).

(** X12: a text that contains neither [//] nor [/*] is left as it is
    by the cleaning, and on such a text the lenient parser is the
    strict one with every [Exception] turned into [None]: it raises
    only what is no [Exception]. *)
Theorem text_without_comment_markers_is_parsed_strictly (text : string) :
  Py.contains "//" text = false ->
  Py.contains "/*" text = false ->
  LenientJSONFacts.cleaned text = text
  /\ parse text = match json_loads text with
                  | Ok v => Ok v
                  | Raise e => if is_Exception e then Ok JNull else Raise e
                  end.
Proof.
  intros Hline Hblock.
  assert (Hclean : LenientJSONFacts.cleaned text = text).
  { unfold LenientJSONFacts.cleaned, strip_line_comments, strip_block_comments.
    rewrite (strip_line_comments_clean _ Hline). by apply strip_block_comments_clean. }
  split; [exact Hclean |].
  unfold _parse_json_with_comments. fold (LenientJSONFacts.cleaned text). rewrite Hclean.
  destruct (json_loads text) as [v | e] eqn:Hloads; [reflexivity |].
  destruct (is_JSONDecodeError e) eqn:Hd; [| reflexivity].
  by destruct e.
Qed.

End Parser.

Lemma text_without_comment_markers_witness :
  LenientJSONFacts.cleaned "{a: 1/2}" = "{a: 1/2}"
  /\ _parse_json_with_comments LenientJSONFacts.loads_invalid "{a: 1/2}"
     = match LenientJSONFacts.loads_invalid "{a: 1/2}" with
       | Ok v => Ok v
       | Raise e => if is_Exception e then Ok JNull else Raise e
       end.
Proof.
  apply (text_without_comment_markers_is_parsed_strictly LenientJSONFacts.loads_invalid
           "{a: 1/2}"); reflexivity.
Defined.

(** X13: the cleaning does not know of JSON strings.  On a line whose
    first slash begins a [//], be it the [//] of a URL inside a string
    value, everything from that [//] to the end of the line is removed;
    a one-line text is cut there. *)
Theorem line_comment_marker_cuts_the_line (a b rest : string) :
  Py.contains "/" a = false ->
  Py.contains (String newline EmptyString) b = false ->
  strip_line_comments (a ++ "//" ++ b ++ String newline rest)
  = (a ++ String newline (strip_line_comments rest))%string
  /\ LenientJSONFacts.cleaned (a ++ "//" ++ b) = a.
Proof.
  intros Ha Hb. split.
  - unfold strip_line_comments. rewrite (line_comment_after_text a b _ Ha Hb).
    cbn [strip_line_comments_go]. by rewrite Ascii.eqb_refl.
  - unfold LenientJSONFacts.cleaned, strip_line_comments, strip_block_comments.
    pose proof (line_comment_after_text a b EmptyString Ha Hb) as H.
    replace (b ++ EmptyString)%string with b in H.
    + rewrite H. cbn [strip_line_comments_go].
      replace (a ++ EmptyString)%string with a.
      * apply strip_block_comments_clean. by apply no_slash_no_block_comment.
      * clear. induction a as [| d a IH]; [reflexivity |].
        change (String d a ++ EmptyString)%string with (String d (a ++ EmptyString)).
        by rewrite <- IH.
    + clear. induction b as [| d b IH]; [reflexivity |].
      change (String d b ++ EmptyString)%string with (String d (b ++ EmptyString)).
      by rewrite <- IH.
Qed.

Lemma line_comment_marker_witness :
  strip_line_comments ("{url: https:" ++ "//" ++ "example.com/api," ++ String newline " n: 1}")
  = ("{url: https:" ++ String newline (strip_line_comments " n: 1}"))%string
  /\ LenientJSONFacts.cleaned ("{url: https:" ++ "//" ++ "example.com/api,") = "{url: https:".
Proof.
  apply (line_comment_marker_cuts_the_line "{url: https:" "example.com/api," " n: 1}");
    reflexivity.
Defined.

End CleaningFacts.

(** ** The endpoints scraped from the HTML *)

Module ScrapeFacts.
Import J Model SwaggerEnhancedScraper.

Lemma upper_ascii_idempotent (c : ascii) : Py.upper_ascii (Py.upper_ascii c) = Py.upper_ascii c.
Proof. destruct c as [[] [] [] [] [] [] [] []]; reflexivity. Qed.

Lemma upper_idempotent (s : string) : Py.upper (Py.upper s) = Py.upper s.
Proof.
  unfold Py.upper. induction s as [| c s IH]; [reflexivity |].
  cbn [Py.map_string]. by rewrite upper_ascii_idempotent, IH.
Qed.

(** What every scraped endpoint satisfies. *)
Definition complete (e : Endpoint) : Prop :=
  method e <> EmptyString
  /\ path e <> EmptyString
  /\ Py.upper (method e) = method e
  /\ responses e = []
  /\ Forall (fun x => exists t, x = RawExample (JStr t) /\ (5 < String.length t)%nat)
            (examples e).

Lemma scrape_block_complete (b : Block) (e : Endpoint) :
  scrape_block b = Some e -> complete e.
Proof.
  unfold scrape_block.
  destruct (negb (String.eqb (from_option Py.upper EmptyString (block_method b)) EmptyString))
    eqn:Hm; [| discriminate].
  destruct (negb (String.eqb (from_option id EmptyString (block_path b)) EmptyString))
    eqn:Hp; [| discriminate].
  cbn [andb]. intros [= <-]. unfold complete. cbn [method path responses examples].
  apply negb_true_iff, String.eqb_neq in Hm. apply negb_true_iff, String.eqb_neq in Hp.
  split; [exact Hm |]. split; [exact Hp |]. split.
  - destruct (block_method b) as [m |]; [apply upper_idempotent | reflexivity].
  - split; [reflexivity |]. apply Forall_forall. intros x Hx.
    apply list_elem_of_fmap in Hx. destruct Hx as (t & -> & Ht).
    apply list_elem_of_In, filter_In in Ht. destruct Ht as [_ Ht].
    apply andb_prop in Ht. destruct Ht as [_ Ht]. apply Nat.ltb_lt in Ht. by exists t.
Qed.

Section Scraper.

Variable BeautifulSoup : string -> Soup.
Variable http_get : string -> result (Z * string).

Local Abbreviation scrape_swagger_html := (scrape_swagger_html BeautifulSoup http_get).


End Scraper.

End ScrapeFacts.

(** ** What the scraper can raise *)

Module RaiseFacts.
Import J Model.

(** A computation that raises nothing but an [Exception]. *)
Definition safe {A : Type} (m : result A) : Prop :=
  forall e, m = Raise e -> is_Exception e = true.

Lemma safe_Ok {A : Type} (x : A) : safe (Ok x).
Proof. intros e [=]. Qed.

Lemma safe_Raise {A : Type} (e : exn) : is_Exception e = true -> safe (@Raise A e).
Proof. intros He e' [= <-]. exact He. Qed.

Lemma safe_bind {A B : Type} (m : result A) (k : A -> result B) :
  safe m -> (forall x, safe (k x)) -> safe (x <-? m ;; k x).
Proof.
  intros Hm Hk e. unfold rbind. destruct m as [x | e']; [apply Hk |].
  intros [= <-]. by apply Hm.
Qed.

Lemma safe_rfold {A B : Type} (f : B -> A -> result B) (l : list A) (b : B) :
  (forall b x, safe (f b x)) -> safe (rfold f l b).
Proof.
  intros Hf. revert b. induction l as [| x l IH]; intros b; cbn [rfold]; [apply safe_Ok |].
  apply safe_bind; [apply Hf | exact IH].
Qed.

Lemma safe_rmap {A B : Type} (f : A -> result B) (l : list A) :
  (forall x, safe (f x)) -> safe (ExampleEnricher.rmap f l).
Proof.
  intros Hf. induction l as [| x l IH]; cbn [ExampleEnricher.rmap]; [apply safe_Ok |].
  apply safe_bind; [apply Hf |]. intros y.
  apply safe_bind; [exact IH |]. intros ys. apply safe_Ok.
Qed.

Lemma safe_get (v : json) (k : string) (d : json) : safe (get v k d).
Proof. destruct v; (apply safe_Ok || by apply safe_Raise). Qed.

Lemma safe_items (v : json) : safe (items v).
Proof. destruct v; (apply safe_Ok || by apply safe_Raise). Qed.

Lemma safe_has (k : string) (v : json) : safe (has k v).
Proof. destruct v; (apply safe_Ok || by apply safe_Raise). Qed.

Lemma safe_subscript (v : json) (k : string) : safe (subscript v k).
Proof.
  destruct v; try by apply safe_Raise. cbn [subscript].
  destruct (assoc k kvs); [apply safe_Ok | by apply safe_Raise].
Qed.

Lemma safe_iter (v : json) : safe (iter v).
Proof. destruct v; (apply safe_Ok || by apply safe_Raise). Qed.

Lemma safe_update_then_items (d : list (string * json)) (v : json) :
  safe (SpecParser.update_then_items d v).
Proof. destruct v; (apply safe_Ok || by apply safe_Raise). Qed.

Lemma safe_str_lower (v : json) : safe (ExampleEnricher.str_lower v).
Proof. destruct v; (apply safe_Ok || by apply safe_Raise). Qed.

Create HintDb safe.

#[local] Hint Resolve safe_get safe_items safe_has safe_subscript safe_iter
  safe_update_then_items safe_str_lower : safe.

(** One step through a computation: a bind, a loop, a test. *)
Ltac safe_step :=
  match goal with
  | |- safe (Ok _) => apply safe_Ok
  | |- safe (Raise _) => by apply safe_Raise
  | |- safe (rbind _ _) => apply safe_bind; [| intros ?]
  | |- safe (rfold _ _ _) => apply safe_rfold; intros ? ?
  | |- safe (ExampleEnricher.rmap _ _) => apply safe_rmap; intros ?
  | |- safe (if ?b then _ else _) => destruct b
  | |- safe (match ?x with _ => _ end) => destruct x
  | |- safe _ => solve [eauto with safe]
  end.

Ltac safe_steps := repeat safe_step.

Lemma safe_parse_parameter (param : json) : safe (SpecParser.parse_parameter param).
Proof. unfold SpecParser.parse_parameter. safe_steps. Qed.

Lemma safe_request_content_examples (exs : list ExampleRecord) (entry : string * json) :
  safe (SpecParser.request_content_examples exs entry).
Proof. unfold SpecParser.request_content_examples. safe_steps. Qed.

Lemma safe_response_content_examples (status_code : string)
    (st : list (string * json) * list ExampleRecord) (entry : string * json) :
  safe (SpecParser.response_content_examples status_code st entry).
Proof. unfold SpecParser.response_content_examples. safe_steps. Qed.

#[local] Hint Resolve safe_parse_parameter safe_request_content_examples
  safe_response_content_examples : safe.

Lemma safe_request_body_examples (operation : json) :
  safe (SpecParser.request_body_examples operation).
Proof. unfold SpecParser.request_body_examples. safe_steps. Qed.

Lemma safe_parse_response (st : list (string * ResponseInfo) * list ExampleRecord)
    (entry : string * json) :
  safe (SpecParser.parse_response st entry).
Proof. unfold SpecParser.parse_response. safe_steps. Qed.

Lemma safe_operation_examples (operation : json) (exs : list ExampleRecord) :
  safe (SpecParser.operation_examples operation exs).
Proof. unfold SpecParser.operation_examples. safe_steps. Qed.

#[local] Hint Resolve safe_request_body_examples safe_parse_response
  safe_operation_examples : safe.

Lemma safe_parse_operation (path method : string) (operation : json) :
  safe (SpecParser.parse_operation path method operation).
Proof. unfold SpecParser.parse_operation. safe_steps. Qed.

#[local] Hint Resolve safe_parse_operation : safe.

Lemma safe_parse_methods (path : string) (eps : list Endpoint) (entry : string * json) :
  safe (SpecParser.parse_methods path eps entry).
Proof. unfold SpecParser.parse_methods. safe_steps. Qed.

#[local] Hint Resolve safe_parse_methods : safe.

Lemma safe_parse_path (eps : list Endpoint) (entry : string * json) :
  safe (SpecParser.parse_path eps entry).
Proof. unfold SpecParser.parse_path. safe_steps. Qed.

#[local] Hint Resolve safe_parse_path : safe.

Lemma safe_parse_openapi_spec (py_add : json -> json -> result json) (spec_data : json) :
  (forall a b, safe (py_add a b)) -> safe (SpecParser.parse_openapi_spec py_add spec_data).
Proof. intros Hadd. unfold SpecParser.parse_openapi_spec. safe_steps. Qed.

Lemma safe_enhance_parameter (h : HtmlExamples) (param : ParamInfo) :
  safe (ExampleEnricher.enhance_parameter h param).
Proof. unfold ExampleEnricher.enhance_parameter. safe_steps. Qed.

#[local] Hint Resolve safe_enhance_parameter : safe.

Lemma safe_enhance_endpoints (endpoints : list Endpoint) (html_examples : option HtmlExamples) :
  safe (ExampleEnricher._enhance_endpoints_with_html_examples endpoints html_examples).
Proof.
  unfold ExampleEnricher._enhance_endpoints_with_html_examples, ExampleEnricher.enhance_endpoint.
  safe_steps.
Qed.

End RaiseFacts.

(** ** The parser: methods, and documents it rejects *)

Module ParserFacts.
Import J Model SpecParser.

(** The method names an endpoint can carry. *)
Definition UPPER_METHODS : list string :=
  ["GET"; "POST"; "PUT"; "DELETE"; "PATCH"; "OPTIONS"; "HEAD"].

Lemma upper_lower_ascii (c : ascii) :
  Py.upper_ascii (Py.lower_ascii c) = Py.upper_ascii c.
Proof. destruct c as [[] [] [] [] [] [] [] []]; reflexivity. Qed.

Lemma upper_lower (s : string) : Py.upper (Py.lower s) = Py.upper s.
Proof.
  unfold Py.upper, Py.lower. induction s as [| c s IH]; [reflexivity |].
  cbn [Py.map_string]. by rewrite upper_lower_ascii, IH.
Qed.

Lemma recognized_upper (m : string) : recognized m = true -> In (Py.upper m) UPPER_METHODS.
Proof.
  unfold recognized, Py.in_list, HTTP_METHODS. cbn [existsb]. intros H.
  rewrite <- upper_lower.
  repeat (apply orb_prop in H; destruct H as [H | H];
          [apply String.eqb_eq in H; rewrite H; cbn; tauto |]).
  discriminate H.
Qed.

Lemma operations_where_test (test : string -> bool) (spec_data : json) (pm : string * string) :
  In pm (operations_where test spec_data) -> test (snd pm) = true.
Proof.
  unfold operations_where. destruct spec_data as [| | | | | | kvs]; try done.
  destruct (assoc "paths" kvs) as [[| | | | | | path_items] |]; try done.
  intros Hin. apply in_flat_map in Hin. destruct Hin as ([p item] & _ & Hin).
  cbn [snd fst] in Hin. destruct item as [| | | | | | method_items]; try done.
  apply in_map_iff in Hin. destruct Hin as ([m op] & <- & Hin).
  apply filter_In in Hin. by destruct Hin as [_ Hin].
Qed.

Section Parse.

Variable py_add : json -> json -> result json.

(** X15: whenever the parser returns, the method of every endpoint is
    one of [GET], [POST], [PUT], [DELETE], [PATCH], [OPTIONS], [HEAD]:
    the keys of a path item are matched without regard to case and
    written in upper case, so the keys [get] and [GET] of one path item
    give two endpoints with the same path and method. *)
Theorem endpoint_methods_are_upper_case_http_methods (spec_data : json) (api : ApiData) :
  parse_openapi_spec py_add spec_data = Ok api ->
  Forall (fun e => In (method e) UPPER_METHODS) (endpoints api).
Proof.
  intros Hparse.
  destruct (SpecParserFacts.parse_openapi_spec_keys py_add spec_data api Hparse) as [Hkeys _].
  apply Forall_forall. intros e He.
  assert (Hin : In (SpecParserFacts.key e)
                  (map SpecParserFacts.upper_method (recognized_operations spec_data))).
  { rewrite <- Hkeys. apply in_map. by apply list_elem_of_In. }
  apply in_map_iff in Hin. destruct Hin as (pm & Hpm & Hin).
  apply operations_where_test in Hin. injection Hpm as _ <-.
  by apply recognized_upper.
Qed.

(** A step that raises on an entry, whatever the state, makes the loop
    raise. *)
Lemma rfold_raises {A B : Type} (f : B -> A -> result B) (l : list A) (x : A) :
  In x l -> (forall b, exists e, f b x = Raise e) ->
  forall b, exists e, rfold f l b = Raise e.
Proof.
  intros Hin Hx. induction l as [| y l IH]; [done |]. intros b. cbn [rfold].
  destruct Hin as [-> | Hin].
  - destruct (Hx b) as [e ->]. by exists e.
  - destruct (f b y) as [b' | e]; [apply (IH Hin) | by exists e].
Qed.

(** X16: a document one of whose path items is not an object ([null],
    a string, a list), or holds under a method key something that is
    not an object, is not parsed: the parser raises an [Exception], and
    returns no endpoint of the other paths. *)
Theorem malformed_path_item_makes_the_parser_raise
    (kvs path_items : list (string * json)) (p : string) (item : json) :
  (forall a b, RaiseFacts.safe (py_add a b)) ->
  assoc "paths" kvs = Some (JObj path_items) ->
  In (p, item) path_items ->
  is_object item = false
  \/ (exists method_items m operation,
        item = JObj method_items /\ In (m, operation) method_items
        /\ recognized m = true /\ is_object operation = false) ->
  exists e, parse_openapi_spec py_add (JObj kvs) = Raise e /\ is_Exception e = true.
Proof.
  intros Hadd Hpaths Hin Hbad.
  assert (Hraise : exists e, parse_openapi_spec py_add (JObj kvs) = Raise e).
  { unfold parse_openapi_spec. cbn [get rbind]. rewrite Hpaths. cbn [from_option id items rbind].
    destruct (rfold_raises parse_path path_items (p, item) Hin) with (b := @nil Endpoint)
      as [e ->]; [| by exists e].
    intros eps.
    change (parse_path eps (p, item))
      with (method_items <-? items item ;; rfold (parse_methods p) method_items eps).
    destruct Hbad as [Hitem | (method_items & m & operation & -> & Hm & Hrec & Hop)].
    - destruct item; try discriminate Hitem; by eexists.
    - cbn [items rbind].
      apply (rfold_raises (parse_methods p) method_items (m, operation) Hm).
      intros eps'.
      change (parse_methods p eps' (m, operation))
        with (if recognized m
              then ep <-? parse_operation p m operation ;; Ok (eps' ++ [ep])
              else Ok eps').
      rewrite Hrec. unfold parse_operation.
      destruct operation; try discriminate Hop; by eexists. }
  destruct Hraise as [e He]. exists e. split; [exact He |].
  by apply (RaiseFacts.safe_parse_openapi_spec py_add (JObj kvs) Hadd).
Qed.

End Parse.

(** A document whose second path has no item. *)
Definition second_path_is_null : list (string * json) :=
  [("openapi", JStr "3.0.0");
   ("paths", JObj [("/pets", JObj [("get", JObj [])]); ("/owners", JNull)])].

Lemma endpoint_methods_witness :
  exists api,
    parse_openapi_spec SpecParserFacts.add_strings
      (JObj [("paths", JObj [("/pets", JObj [("get", JObj []); ("GET", JObj [])])])]) = Ok api
    /\ map method (endpoints api) = ["GET"; "GET"]
    /\ Forall (fun e => In (method e) UPPER_METHODS) (endpoints api).
Proof.
  eexists. split; [vm_compute; reflexivity |]. split; [reflexivity |].
  apply (endpoint_methods_are_upper_case_http_methods SpecParserFacts.add_strings
           (JObj [("paths", JObj [("/pets", JObj [("get", JObj []); ("GET", JObj [])])])])).
  vm_compute. reflexivity.
Defined.

Lemma malformed_path_item_witness :
  exists e,
    parse_openapi_spec SpecParserFacts.add_strings (JObj second_path_is_null) = Raise e
    /\ is_Exception e = true.
Proof.
  apply (malformed_path_item_makes_the_parser_raise SpecParserFacts.add_strings
           second_path_is_null
           [("/pets", JObj [("get", JObj [])]); ("/owners", JNull)] "/owners" JNull).
  - intros a b e. destruct a, b; cbn; intros [= <-]; reflexivity.
  - reflexivity.
  - right. by left.
  - by left.
Defined.

End ParserFacts.

(** ** enhanced_extract: what it returns and when *)

Module ExtractionFacts.
Import J Model SwaggerEnhancedScraper RaiseFacts.

Section Extraction.

Variable BeautifulSoup : string -> Soup.
Variable count_http_methods : string -> nat.
Variable spec_matches : SpecPattern -> string -> list string.
Variable urljoin : string -> string -> string.
Variable urlparse : string -> ParseResult.
Variable extract_examples_from_html : string -> result HtmlExamples.
Variable json_loads : string -> result json.
Variable py_add : json -> json -> result json.
Variable http_get : string -> result (Z * string).

Local Abbreviation detect_html :=
  (detect_html BeautifulSoup count_http_methods spec_matches urljoin urlparse).
Local Abbreviation detect_swagger_page :=
  (detect_swagger_page BeautifulSoup count_http_methods spec_matches urljoin urlparse http_get).
Local Abbreviation extract_openapi_spec := (extract_openapi_spec json_loads http_get).
Local Abbreviation extract_detected :=
  (extract_detected BeautifulSoup extract_examples_from_html json_loads py_add http_get).
Local Abbreviation enhanced_extract :=
  (enhanced_extract BeautifulSoup count_http_methods spec_matches urljoin urlparse
     extract_examples_from_html json_loads py_add http_get).

Lemma safe_valid_spec (spec_data : json) : safe (valid_spec spec_data).
Proof. unfold valid_spec. safe_steps; apply safe_has. Qed.

Lemma extract_detected_is_swagger (url : string) (html_content : option string)
    (d : DetectionResult) (r : ExtractResult) :
  is_swagger d = true ->
  extract_detected url html_content (Detected d) = Ok r ->
  result_is_swagger r = true.
Proof.
  intros Hd. unfold SwaggerEnhancedScraper.extract_detected. rewrite Hd. cbn [negb].
  intros H. unfold rbind in H.
  repeat match type of H with
         | match ?m with Ok _ => _ | Raise _ => _ end = Ok _ => destruct m; [| discriminate H]
         | match ?o with Some _ => _ | None => _ end = Ok _ => destruct o
         end;
    by injection H as <-.
Qed.

(** X17: a spec that passes the validity test and that the parser
    rejects is not replaced by the HTML fall-back: [enhanced_extract]
    reports the error of the parser, with [is_swagger] true and no
    success, whatever endpoint blocks the page holds. *)
Theorem rejected_spec_is_not_replaced_by_html_scraping
    (url html : string) (h : HtmlExamples) (found : SpecResult) (e : exn) :
  html <> EmptyString ->
  extract_examples_from_html html = Ok h ->
  snd (extract_openapi_spec (spec_urls (detect_html url html))) = Ok (Some found) ->
  SpecParser.parse_openapi_spec py_add (spec found) = Raise e ->
  is_Exception e = true ->
  enhanced_extract url (Some html) = Ok (ExtractError true e).
Proof.
  intros Hhtml Hex Hfound Hparse He.
  unfold SwaggerEnhancedScraper.enhanced_extract, SwaggerEnhancedScraper.detect_swagger_page.
  assert (Hraise : extract_detected url (Some html) (Detected (detect_html url html)) = Raise e).
  { unfold SwaggerEnhancedScraper.extract_detected.
    rewrite (ClassificationFacts.detect_html_is_swagger BeautifulSoup count_http_methods
               spec_matches urljoin urlparse url html).
    cbn [negb rbind]. apply String.eqb_neq in Hhtml. rewrite Hhtml, Hex. cbn [rbind].
    rewrite (ClassificationFacts.length_nonzero _
               (ClassificationFacts.spec_urls_nonempty BeautifulSoup count_http_methods
                  spec_matches urljoin urlparse url html)).
    rewrite Hfound. cbn [rbind]. rewrite Hparse. reflexivity. }
  rewrite Hraise, He. cbn [detection_is_swagger].
  by rewrite (ClassificationFacts.detect_html_is_swagger BeautifulSoup count_http_methods
                spec_matches urljoin urlparse url html).
Qed.

(** X18: when no HTML is given and the page cannot be fetched,
    [enhanced_extract] reports [is_swagger] false and no success, and
    the error it reports is the [KeyError] of the key [confidence] that
    the error dict of the detection lacks, not the error of the fetch. *)
Theorem failed_fetch_is_reported_as_a_missing_key (url : string) (e : exn) :
  http_get (Py.before_first "#" url) = Raise e ->
  is_Exception e = true ->
  detect_swagger_page url None = Ok (DetectionFailed e)
  /\ enhanced_extract url None = Ok (ExtractError false KeyError).
Proof.
  intros Hget He.
  unfold SwaggerEnhancedScraper.enhanced_extract, SwaggerEnhancedScraper.detect_swagger_page.
  rewrite Hget, He. split; reflexivity.
Qed.

Lemma enhanced_extract_raises (url : string) (html_content : option string) (e : exn) :
  enhanced_extract url html_content = Raise e -> is_Exception e = false.
Proof.
  unfold SwaggerEnhancedScraper.enhanced_extract.
  destruct (detect_swagger_page url html_content) as [detection | e1].
  - destruct (extract_detected url html_content detection) as [r | e2]; [discriminate |].
    destruct (is_Exception e2) eqn:He2; [discriminate | by intros [= <-]].
  - destruct (is_Exception e1) eqn:He1; [discriminate | by intros [= <-]].
Qed.

Lemma enhanced_extract_given_html (url html : string) (r : ExtractResult) :
  enhanced_extract url (Some html) = Ok r -> result_is_swagger r = true.
Proof.
  unfold SwaggerEnhancedScraper.enhanced_extract, SwaggerEnhancedScraper.detect_swagger_page.
  pose proof (ClassificationFacts.detect_html_is_swagger BeautifulSoup count_http_methods
                spec_matches urljoin urlparse url html) as Hd.
  generalize dependent (detect_html url html). intros d Hd.
  destruct (extract_detected url (Some html) (Detected d)) as [r' | e] eqn:Hextract.
  - intros [= <-]. exact (extract_detected_is_swagger url (Some html) d r' Hd Hextract).
  - destruct (is_Exception e); [| discriminate]. intros [= <-]. exact Hd.
Qed.

Hypothesis fetch_is_safe : forall u, safe (http_get u).
Hypothesis loads_is_safe : forall t, safe (json_loads t).
Hypothesis add_is_safe : forall a b, safe (py_add a b).
Hypothesis mining_is_safe : forall html, safe (extract_examples_from_html html).

Lemma safe_parse_json (text : string) :
  safe (LenientJSON._parse_json_with_comments json_loads text).
Proof using loads_is_safe.
  intros e He. apply LenientJSONFacts.parse_raises in He.
  destruct He as [(_ & He & _) | (He & _)]; by apply loads_is_safe in He.
Qed.

Lemma safe_try_candidate (spec_url : string) : safe (try_candidate json_loads http_get spec_url).
Proof using fetch_is_safe loads_is_safe.
  unfold try_candidate. apply safe_bind; [apply fetch_is_safe |]. intros response.
  destruct (fst response =? 200)%Z; [| apply safe_Ok].
  apply safe_bind; [apply safe_parse_json |]. intros spec_data.
  apply safe_bind; [apply safe_valid_spec |]. intros [|]; apply safe_Ok.
Qed.

Lemma safe_extract_openapi_spec (candidates : list string) :
  safe (snd (extract_openapi_spec candidates)).
Proof using fetch_is_safe loads_is_safe.
  induction candidates as [| u rest IH]; cbn [SwaggerEnhancedScraper.extract_openapi_spec];
    [apply safe_Ok |].
  pose proof (safe_try_candidate u) as Hu.
  destruct (try_candidate json_loads http_get u) as [[found |] | e]; cbn [snd];
    [apply safe_Ok | exact IH |].
  rewrite (Hu e eq_refl). exact IH.
Qed.

Lemma safe_extract_detected (url : string) (html_content : option string)
    (detection : Detection) :
  safe (extract_detected url html_content detection).
Proof using fetch_is_safe loads_is_safe add_is_safe mining_is_safe.
  unfold SwaggerEnhancedScraper.extract_detected.
  destruct detection as [d | error]; [| by apply safe_Raise].
  destruct (negb (is_swagger d)); [apply safe_Ok |].
  apply safe_bind.
  { destruct html_content as [html |]; [apply safe_Ok |].
    pose proof (fetch_is_safe (Py.before_first "#" url)) as Hget.
    destruct (http_get (Py.before_first "#" url)) as [response | e]; [apply safe_Ok |].
    rewrite (Hget e eq_refl). apply safe_Ok. }
  intros html. apply safe_bind.
  { destruct (String.eqb html EmptyString); [apply safe_Ok |].
    apply safe_bind; [apply mining_is_safe | intros h; apply safe_Ok]. }
  intros html_examples. apply safe_bind.
  { destruct (Nat.eqb (length (spec_urls d)) 0); [apply safe_Ok |].
    apply safe_extract_openapi_spec. }
  intros [found |].
  - apply safe_bind; [by apply safe_parse_openapi_spec |]. intros api_data.
    apply safe_bind; [apply safe_enhance_endpoints |]. intros enhanced. apply safe_Ok.
  - apply safe_bind; [intros e [=] |]. intros api_data.
    apply safe_bind; [apply safe_enhance_endpoints |]. intros enhanced. apply safe_Ok.
Qed.


End Extraction.

(** *** A site that serves a spec with a path that has no item *)

Definition spec_location : string := "https://example.com/swagger.json".

Definition served_spec (url : string) : result (Z * string) :=
  if String.eqb url spec_location then Ok (200%Z, "spec") else Raise ClientError.

Definition loads_spec (text : string) : result json :=
  if String.eqb text "spec" then Ok (JObj ParserFacts.second_path_is_null)
  else Raise JSONDecodeError.

Lemma rejected_spec_witness :
  enhanced_extract (fun _ => ClassificationFacts.prose_soup) (fun _ => 0%nat) (fun _ _ => [])
    (fun _ m => m) ClassificationFacts.prose_urlparse
    (fun _ => Ok ClassificationFacts.no_examples) loads_spec SpecParserFacts.add_strings
    served_spec ClassificationFacts.prose_url (Some ClassificationFacts.prose_html)
  = Ok (ExtractError true AttributeError).
Proof.
  apply (rejected_spec_is_not_replaced_by_html_scraping
           (fun _ => ClassificationFacts.prose_soup) (fun _ => 0%nat) (fun _ _ => [])
           (fun _ m => m) ClassificationFacts.prose_urlparse
           (fun _ => Ok ClassificationFacts.no_examples) loads_spec SpecParserFacts.add_strings
           served_spec ClassificationFacts.prose_url ClassificationFacts.prose_html
           ClassificationFacts.no_examples
           {| spec := JObj ParserFacts.second_path_is_null; source_url := spec_location |}
           AttributeError).
  - discriminate.
  - reflexivity.
  - vm_compute. reflexivity.
  - vm_compute. reflexivity.
  - reflexivity.
Defined.

Lemma failed_fetch_witness :
  detect_swagger_page (fun _ => ClassificationFacts.prose_soup) (fun _ => 0%nat)
    (fun _ _ => []) (fun _ m => m) ClassificationFacts.prose_urlparse
    ClassificationFacts.unreachable ClassificationFacts.prose_url None
  = Ok (DetectionFailed ClientError)
  /\ enhanced_extract (fun _ => ClassificationFacts.prose_soup) (fun _ => 0%nat)
       (fun _ _ => []) (fun _ m => m) ClassificationFacts.prose_urlparse
       (fun _ => Ok ClassificationFacts.no_examples) (fun _ => Raise JSONDecodeError)
       SpecParserFacts.add_strings ClassificationFacts.unreachable
       ClassificationFacts.prose_url None
     = Ok (ExtractError false KeyError).
Proof.
  apply (failed_fetch_is_reported_as_a_missing_key
           (fun _ => ClassificationFacts.prose_soup) (fun _ => 0%nat) (fun _ _ => [])
           (fun _ m => m) ClassificationFacts.prose_urlparse
           (fun _ => Ok ClassificationFacts.no_examples) (fun _ => Raise JSONDecodeError)
           SpecParserFacts.add_strings ClassificationFacts.unreachable
           ClassificationFacts.prose_url ClientError); reflexivity.
Defined.


End ExtractionFacts.

(** ** The enricher: what it keeps and when it raises *)

Module EnrichmentFacts.
Import J Model ExampleEnricher.

(** A parameter after the enrichment: the same but for its example;
    an example that was there is kept, and one that is added is one of
    the mined parameter examples. *)
Definition parameter_kept (h : HtmlExamples) (p p' : ParamInfo) : Prop :=
  param_name p' = param_name p
  /\ param_in p' = param_in p
  /\ param_required p' = param_required p
  /\ param_type p' = param_type p
  /\ param_description p' = param_description p
  /\ (param_example p' = param_example p
      \/ truthy (param_example p) = false
         /\ exists x, In x (parameter_examples h) /\ param_example p' = JStr x).

(** An endpoint after the enrichment: the same but for the examples of
    its parameters and its own, which begin with those it had. *)
Definition endpoint_kept (h : HtmlExamples) (e e' : Endpoint) : Prop :=
  method e' = method e
  /\ path e' = path e
  /\ summary e' = summary e
  /\ description e' = description e
  /\ responses e' = responses e
  /\ Forall2 (parameter_kept h) (parameters e) (parameters e')
  /\ exists added, examples e' = examples e ++ added.

Lemma enhance_parameter_kept (h : HtmlExamples) (p p' : ParamInfo) :
  enhance_parameter h p = Ok p' -> parameter_kept h p p'.
Proof.
  unfold enhance_parameter, parameter_kept.
  destruct (negb (truthy (param_example p))) eqn:Hfalsy; cbn [andb].
  - destruct (negb (Nat.eqb (length (parameter_examples h)) 0)).
    + destruct (str_lower (param_name p)) as [name | e]; [| discriminate]. cbn [rbind].
      destruct (pick_parameter_example name (parameter_examples h)) as [x |] eqn:Hpick.
      * intros [= <-]. cbn. repeat (split; [reflexivity |]). right.
        split; [by apply negb_true_iff |]. exists x. split; [| reflexivity].
        unfold pick_parameter_example in Hpick. by apply find_some in Hpick as [Hin _].
      * intros [= <-]. repeat (split; [reflexivity |]). by left.
    + intros [= <-]. repeat (split; [reflexivity |]). by left.
  - intros [= <-]. repeat (split; [reflexivity |]). by left.
Qed.

Lemma enhance_endpoint_kept (h : HtmlExamples) (e e' : Endpoint) :
  enhance_endpoint h e = Ok e' -> endpoint_kept h e e'.
Proof.
  intros H. pose proof (EnricherFacts.enhance_endpoint_examples h e e' H) as Hexamples.
  unfold enhance_endpoint in H.
  destruct (rmap (enhance_parameter h) (parameters e)) as [ps |] eqn:Hps; [| discriminate H].
  cbn [rbind] in H. injection H as <-. unfold endpoint_kept.
  cbn [method path summary description responses parameters with_examples with_parameters].
  repeat (split; [reflexivity |]). split.
  - eapply EnricherFacts.rmap_Forall2; [| exact Hps]. intros p p'. apply enhance_parameter_kept.
  - rewrite Hexamples. unfold EnricherFacts.enriched_examples. eauto.
Qed.

(** X20: whenever the enrichment returns, it has only added: the
    endpoints are as many and in the same order, each with its method,
    path, summary, description and responses, with the same parameters
    but for their examples (an example that was there is kept, an
    added one is one of the mined parameter examples), and with its
    examples followed by the added ones. *)
Theorem enrichment_only_adds_examples
    (endpoints enriched : list Endpoint) (html_examples : option HtmlExamples) :
  _enhance_endpoints_with_html_examples endpoints html_examples = Ok enriched ->
  match html_examples with
  | Some h => Forall2 (endpoint_kept h) endpoints enriched
  | None => enriched = endpoints
  end.
Proof.
  destruct html_examples as [h |]; cbn [_enhance_endpoints_with_html_examples].
  - apply EnricherFacts.rmap_Forall2. intros e e'. apply enhance_endpoint_kept.
  - by intros [= <-].
Qed.

Lemma rmap_raises {A B : Type} (f : A -> result B) (l : list A) (x : A) (err : exn) :
  In x l -> f x = Raise err -> (forall y e, f y = Raise e -> e = err) ->
  rmap f l = Raise err.
Proof.
  intros Hin Hx Hf. induction l as [| y l IH]; [done |]. cbn [rmap].
  destruct Hin as [-> | Hin].
  - by rewrite Hx.
  - destruct (f y) as [z | e] eqn:Hy; cbn [rbind].
    + by rewrite (IH Hin).
    + by rewrite (Hf y e Hy).
Qed.

Lemma enhance_parameter_raises (h : HtmlExamples) (p : ParamInfo) (e : exn) :
  enhance_parameter h p = Raise e -> e = AttributeError.
Proof.
  unfold enhance_parameter.
  destruct (negb (truthy (param_example p))
            && negb (Nat.eqb (length (parameter_examples h)) 0)); [| discriminate].
  destruct (param_name p); cbn [str_lower rbind]; try (by intros [= <-]).
  destruct (pick_parameter_example _ _); discriminate.
Qed.

Lemma enhance_endpoint_raises (h : HtmlExamples) (ep : Endpoint) (e : exn) :
  enhance_endpoint h ep = Raise e -> e = AttributeError.
Proof.
  unfold enhance_endpoint.
  destruct (rmap (enhance_parameter h) (parameters ep)) as [ps | e'] eqn:Hps;
    cbn [rbind]; [discriminate |].
  intros [= <-]. clear -Hps. revert Hps.
  induction (parameters ep) as [| p ps IH]; cbn [rmap]; [discriminate |].
  destruct (enhance_parameter h p) as [p' | e] eqn:Hp; cbn [rbind].
  - destruct (rmap (enhance_parameter h) ps); cbn [rbind]; [discriminate |].
    intros [= <-]. by apply IH.
  - intros [= <-]. by apply (enhance_parameter_raises h p).
Qed.

(** X21: when parameter examples were mined, a parameter that has no
    example and whose name is not a string (a parameter given by a
    reference has no name at all) makes the enrichment raise
    [AttributeError], whatever the other endpoints are. *)
Theorem unnamed_parameter_makes_the_enrichment_raise
    (endpoints : list Endpoint) (h : HtmlExamples) (ep : Endpoint) (p : ParamInfo) :
  parameter_examples h <> [] ->
  In ep endpoints ->
  In p (parameters ep) ->
  truthy (param_example p) = false ->
  (forall s, param_name p <> JStr s) ->
  _enhance_endpoints_with_html_examples endpoints (Some h) = Raise AttributeError.
Proof.
  intros Hmined Hep Hp Hfalsy Hname. cbn [_enhance_endpoints_with_html_examples].
  apply (rmap_raises (enhance_endpoint h) endpoints ep); [exact Hep | |].
  - unfold enhance_endpoint.
    rewrite (rmap_raises (enhance_parameter h) (parameters ep) p AttributeError Hp);
      [reflexivity | | apply enhance_parameter_raises].
    unfold enhance_parameter. rewrite Hfalsy.
    destruct (parameter_examples h); [done |]. cbn [negb length Nat.eqb andb].
    destruct (param_name p) as [| | | | name | |] eqn:Hn; try reflexivity.
    exfalso. by apply (Hname name).
  - apply enhance_endpoint_raises.
Qed.

(** An endpoint with a named parameter and one given by a reference. *)
Definition by_reference : Endpoint :=
  {| method := "GET"; path := "/pets/{id}"; summary := JStr "A pet";
     description := JStr EmptyString;
     parameters :=
       [ {| param_name := JStr "id"; param_in := JStr "path"; param_required := JBool true;
            param_type := JStr "integer"; param_description := JStr EmptyString;
            param_example := JNull |};
         {| param_name := JNull; param_in := JNull; param_required := JBool false;
            param_type := JStr EmptyString; param_description := JStr EmptyString;
            param_example := JNull |} ];
     responses := [];
     examples := [] |}.

Definition named_only : Endpoint :=
  with_parameters (firstn 1 (parameters by_reference)) by_reference.

Definition mined_id : HtmlExamples :=
  {| parameter_examples := ["id=42"]; response_examples := []; code_examples := ["curl /pets/42"] |}.

Lemma enrichment_only_adds_witness :
  exists enriched,
    _enhance_endpoints_with_html_examples [named_only; EnricherFacts.documented] (Some mined_id)
    = Ok enriched
    /\ Forall2 (endpoint_kept mined_id) [named_only; EnricherFacts.documented] enriched.
Proof.
  eexists. split; [vm_compute; reflexivity |].
  apply (enrichment_only_adds_examples [named_only; EnricherFacts.documented] _ (Some mined_id)).
  vm_compute. reflexivity.
Defined.

Lemma unnamed_parameter_witness :
  _enhance_endpoints_with_html_examples [EnricherFacts.documented; by_reference] (Some mined_id)
  = Raise AttributeError.
Proof.
  apply (unnamed_parameter_makes_the_enrichment_raise [EnricherFacts.documented; by_reference]
           mined_id by_reference
           {| param_name := JNull; param_in := JNull; param_required := JBool false;
              param_type := JStr EmptyString; param_description := JStr EmptyString;
              param_example := JNull |}).
  - discriminate.
  - right. by left.
  - right. by left.
  - reflexivity.
  - discriminate.
Defined.

End EnrichmentFacts.

(** ** The rate limiter: the sleep, and the runs that keep the limit *)

Module LimiterFacts.
Import RateLimiter.



(** Twenty calls at time 0, each finished before the next; the call of
    time 1 sleeps until time 60. *)
Definition twenty_then_one : list Event :=
  concat (repeat [Call 0; Finish] 20) ++ [Call 1; Wake 60; Finish].


End LimiterFacts.

(** ** process_single_url: what it records *)

Module RecordFacts.
Import Stats SwaggerEnhancedScraper URLScraperApp.

(** The reasons with which [process_single_url] gives a URL up. *)
Definition final_reasons : list FailureReason :=
  [TIMEOUT_ERROR; CONNECTION_ERROR; CONTENT_EXTRACTION_ERROR; BEDROCK_ERROR].

Lemma fetch_failure_reason_final (e : exn) (r : FailureReason) :
  fetch_failure_reason e = Some r -> In r final_reasons.
Proof. destruct e; cbn; try discriminate; intros [= <-]; cbn; tauto. Qed.

Lemma fetch_failure_reason_none (e : exn) :
  fetch_failure_reason e = None -> is_Exception e = false.
Proof. destruct e; cbn; try discriminate; reflexivity. Qed.

Section Invariant.

Variable jina_get : nat -> string -> result (Z * string).
Variable swagger_extract : nat -> string -> string -> result ExtractResult.
Variable invoke_model : nat -> string -> InvokeOutcome.
Variable bedrock_client : bool.
Variable construct_prompt_for_aws_bedrock : string -> string -> string.
Variable format_swagger_content_for_llm : ExtractResult -> string -> string -> string.
Variable isoformat : nat -> string.
Variable str : exn -> string.

(** Whether the Swagger check can raise an [Exception]. *)
Variable detection_may_raise : Prop.

Hypothesis detection_raises :
  forall n url content e,
    swagger_extract n url content = Raise e -> is_Exception e = true -> detection_may_raise.

Local Abbreviation process_content :=
  (process_content swagger_extract invoke_model bedrock_client
     construct_prompt_for_aws_bedrock format_swagger_content_for_llm isoformat str).
Local Abbreviation attempt_body :=
  (attempt_body jina_get swagger_extract invoke_model bedrock_client
     construct_prompt_for_aws_bedrock format_swagger_content_for_llm isoformat str).
Local Abbreviation attempts_loop :=
  (attempts_loop jina_get swagger_extract invoke_model bedrock_client
     construct_prompt_for_aws_bedrock format_swagger_content_for_llm isoformat str).
Local Abbreviation record_failure := (record_failure isoformat).

(** The failure map of [w'] holds what the one of [w] held, and
    besides at most a failed Swagger check of the URL. *)
Definition kept (url : string) (w w' : World) : Prop :=
  forall u info,
    failed_urls (stats w') !! u = Some info ->
    failed_urls (stats w) !! u = Some info
    \/ (detection_may_raise /\ u = url /\ reason info = "swagger_detection_error").

Lemma kept_same (url : string) (w w' : World) :
  failed_urls (stats w') = failed_urls (stats w) -> kept url w w'.
Proof. intros Heq u info Hu. left. by rewrite <- Heq. Qed.

Lemma kept_trans (url : string) (w1 w2 w3 : World) :
  kept url w1 w2 -> kept url w2 w3 -> kept url w1 w3.
Proof.
  intros H12 H23 u info Hu. destruct (H23 u info Hu) as [Hu2 | Hd]; [by apply H12 | by right].
Qed.

Lemma kept_detection_failure (url msg : string) (w : World) :
  detection_may_raise -> kept url w (record_failure url SWAGGER_DETECTION_ERROR msg w).
Proof.
  intros Hd u info. cbn [URLScraperApp.record_failure stats count_clock with_stats add_failure
                         failed_urls with_failed_urls].
  destruct (decide (u = url)) as [-> | Hne].
  - rewrite lookup_insert_eq. intros [= <-]. right. by repeat split.
  - rewrite lookup_insert_ne by done. by left.
Qed.

(** What one pass of the loop leaves, by the way it ends; the Swagger
    information of a result is the one of a check that returned. *)
Definition flow_ok (attempt : nat) (url : string) (w w' : World) (flow : Flow) : Prop :=
  match flow with
  | Return None =>
      exists w1 r msg, In r final_reasons /\ kept url w w1 /\ w' = record_failure url r msg w1
  | Return (Some res) =>
      kept url w w'
      /\ ((exists n content r,
             swagger_extract n url content = Ok r
             /\ swagger_info res = swagger_info_of (Some r))
          \/ (detection_may_raise /\ swagger_info res = None))
  | Continue => kept url w w' /\ (attempt < max_retries)%nat
  | Propagate e => kept url w w' /\ is_Exception e = false
  end.

Lemma retry_or_fail_flow (attempt : nat) (url : string) (r : FailureReason) (msg : string)
    (w0 w : World) :
  In r final_reasons -> kept url w0 w ->
  flow_ok attempt url w0 (fst (retry_or_fail isoformat attempt url r msg w))
    (snd (retry_or_fail isoformat attempt url r msg w)).
Proof.
  intros Hr Hkept. unfold retry_or_fail.
  destruct (attempt <? max_retries)%nat eqn:Hlt; cbn [fst snd flow_ok].
  - split; [| by apply Nat.ltb_lt]. eapply kept_trans; [exact Hkept | by apply kept_same].
  - by exists w, r, msg.
Qed.

Lemma process_content_flow (attempt : nat) (url base_url content : string) (w0 w : World) :
  kept url w0 w ->
  flow_ok attempt url w0 (fst (process_content attempt url base_url content w))
    (snd (process_content attempt url base_url content w)).
Proof using All.
  intros Hkept. unfold URLScraperApp.process_content.
  assert (Hbedrock : forall (w2 : World) (sr : option ExtractResult) (c2 : string),
            kept url w0 w2 ->
            ((exists n content r, swagger_extract n url content = Ok r /\ sr = Some r)
             \/ (detection_may_raise /\ sr = None)) ->
            let run := process_with_bedrock_rate_limited invoke_model bedrock_client
                         construct_prompt_for_aws_bedrock c2 url w2 in
            let out :=
              match snd run with
              | Some text =>
                  if String.eqb text EmptyString
                  then retry_or_fail isoformat attempt url BEDROCK_ERROR
                         "Failed to process content with Bedrock after all retries" (fst run)
                  else (count_clock (fst run),
                        Return (Some {| original_url := url;
                                        result_base_url := base_url;
                                        raw_markdown := c2;
                                        processed_content := text;
                                        result_timestamp := isoformat (clock_reads (fst run));
                                        swagger_info := swagger_info_of sr |}))
              | None =>
                  retry_or_fail isoformat attempt url BEDROCK_ERROR
                    "Failed to process content with Bedrock after all retries" (fst run)
              end in
            flow_ok attempt url w0 (fst out) (snd out)).
  { intros w2 sr c2 Hk2 Hsr run out.
    assert (Hk3 : kept url w0 (fst run)).
    { eapply kept_trans; [exact Hk2 |]. apply kept_same.
      destruct (PipelineFacts.process_with_bedrock_frame invoke_model bedrock_client
                  construct_prompt_for_aws_bedrock c2 url w2) as [Hstats _].
      unfold run, process_with_bedrock_rate_limited. by rewrite Hstats. }
    assert (Hfinal : In BEDROCK_ERROR final_reasons) by (cbn; tauto).
    unfold out. destruct (snd run) as [text |]; [| by apply retry_or_fail_flow].
    destruct (String.eqb text EmptyString); [by apply retry_or_fail_flow |].
    cbn [fst snd flow_ok swagger_info]. split.
    - eapply kept_trans; [exact Hk3 | by apply kept_same].
    - destruct Hsr as [(n & c & r & Hr & ->) | [Hd ->]]; [left; by exists n, c, r | by right]. }
  destruct (swagger_extract (swagger_calls w) url content) as [r | e] eqn:Hsw.
  - destruct (result_is_swagger r && result_success r).
    + match goal with
      | |- context [process_with_bedrock_rate_limited _ _ _ ?c url ?w2] =>
          specialize (Hbedrock w2 (Some r) c)
      end.
      cbn zeta in Hbedrock.
      destruct (process_with_bedrock_rate_limited _ _ _ _ _ _) as [w3 processed].
      apply Hbedrock.
      * eapply kept_trans; [exact Hkept | by apply kept_same].
      * left. by exists (swagger_calls w), content, r.
    + specialize (Hbedrock (count_swagger w) (Some r) content). cbn zeta in Hbedrock.
      destruct (process_with_bedrock_rate_limited _ _ _ _ _ _) as [w3 processed].
      apply Hbedrock.
      * eapply kept_trans; [exact Hkept | by apply kept_same].
      * left. by exists (swagger_calls w), content, r.
  - destruct (is_Exception e) eqn:He.
    + pose proof (detection_raises _ _ _ _ Hsw He) as Hd.
      match goal with
      | |- context [process_with_bedrock_rate_limited _ _ _ ?c url ?w2] =>
          specialize (Hbedrock w2 None c)
      end.
      cbn zeta in Hbedrock.
      destruct (process_with_bedrock_rate_limited _ _ _ _ _ _) as [w3 processed].
      apply Hbedrock.
      * eapply kept_trans; [| by apply kept_detection_failure].
        eapply kept_trans; [exact Hkept | by apply kept_same].
      * by right.
    + cbn [fst snd flow_ok]. split; [| exact He].
      eapply kept_trans; [exact Hkept | by apply kept_same].
Qed.

Lemma attempt_body_flow (attempt : nat) (url base_url : string) (w0 w : World) :
  kept url w0 w ->
  flow_ok attempt url w0 (fst (attempt_body attempt url base_url w))
    (snd (attempt_body attempt url base_url w)).
Proof using All.
  intros Hkept. unfold URLScraperApp.attempt_body, extract_content_via_jina_rate_limited.
  assert (Hk1 : kept url w0 (count_jina w))
    by (eapply kept_trans; [exact Hkept | by apply kept_same]).
  destruct (extract_content_via_jina (jina_get (jina_calls w) url)) as [content | e].
  - destruct (String.eqb content EmptyString).
    + apply retry_or_fail_flow; [cbn; tauto | exact Hk1].
    + by apply process_content_flow.
  - destruct (fetch_failure_reason e) as [r |] eqn:Hr.
    + apply retry_or_fail_flow; [by apply (fetch_failure_reason_final e) | exact Hk1].
    + cbn [fst snd flow_ok]. split; [exact Hk1 | by apply fetch_failure_reason_none].
Qed.

(** What the loop leaves, by the way it ends. *)
Definition loop_ok (attempts : list nat) (url : string) (w w' : World)
    (out : result (option Result)) : Prop :=
  match out with
  | Ok (Some res) =>
      kept url w w'
      /\ ((exists n content r,
             swagger_extract n url content = Ok r
             /\ swagger_info res = swagger_info_of (Some r))
          \/ (detection_may_raise /\ swagger_info res = None))
  | Ok None =>
      (exists w1 r msg, In r final_reasons /\ kept url w w1 /\ w' = record_failure url r msg w1)
      \/ (kept url w w' /\ Forall (fun attempt => (attempt < max_retries)%nat) attempts)
  | Raise e => kept url w w' /\ is_Exception e = false
  end.

Lemma attempts_loop_flow (attempts : list nat) (url base_url : string) (w0 w : World) :
  kept url w0 w ->
  loop_ok attempts url w0 (fst (attempts_loop attempts url base_url w))
    (snd (attempts_loop attempts url base_url w)).
Proof using All.
  revert w. induction attempts as [| attempt rest IH]; intros w Hkept;
    cbn [URLScraperApp.attempts_loop].
  - cbn [fst snd loop_ok]. right. by split.
  - pose proof (attempt_body_flow attempt url base_url w0 w Hkept) as Hflow.
    destruct (attempt_body attempt url base_url w) as [w' flow]. cbn [fst snd] in Hflow.
    destruct flow as [[res |] | | e]; cbn [flow_ok] in Hflow; cbn [fst snd loop_ok].
    + exact Hflow.
    + by left.
    + destruct Hflow as [Hk Hlt]. specialize (IH w' Hk).
      destruct (attempts_loop rest url base_url w') as [w'' out]. cbn [fst snd] in *.
      destruct out as [[res |] |]; cbn [loop_ok] in *; [exact IH | | exact IH].
      destruct IH as [Hrec | [Hk' Hall]]; [by left | right]. split; [exact Hk' |].
      by constructor.
    + exact Hflow.
Qed.

End Invariant.

Lemma delay_values (kind : ErrorKind) (attempt : nat) :
  (attempt < 2)%nat -> In (delay kind attempt) [1; 1.5; 2.1; 3.5]%float.
Proof.
  intros Hlt. destruct attempt as [| [| attempt]]; [| | lia];
    destruct kind; vm_compute; tauto.
Qed.

Section Recorded.

Variable jina_get : nat -> string -> result (Z * string).
Variable swagger_extract : nat -> string -> string -> result ExtractResult.
Variable invoke_model : nat -> string -> InvokeOutcome.
Variable bedrock_client : bool.
Variable construct_prompt_for_aws_bedrock : string -> string -> string.
Variable format_swagger_content_for_llm : ExtractResult -> string -> string -> string.
Variable isoformat : nat -> string.
Variable str : exn -> string.

Local Abbreviation process_single_url :=
  (process_single_url jina_get swagger_extract invoke_model bedrock_client
     construct_prompt_for_aws_bedrock format_swagger_content_for_llm isoformat str).
Local Abbreviation attempt_body :=
  (attempt_body jina_get swagger_extract invoke_model bedrock_client
     construct_prompt_for_aws_bedrock format_swagger_content_for_llm isoformat str).

Lemma process_single_url_flow (url base_url : string) (w : World) :
  loop_ok swagger_extract isoformat True (seq 0 (max_retries + 1)) url w
    (fst (process_single_url url base_url w)) (snd (process_single_url url base_url w)).
Proof.
  apply attempts_loop_flow; [done | by apply kept_same].
Qed.

Lemma last_attempt_does_not_continue :
  ~ Forall (fun attempt => (attempt < max_retries)%nat) (seq 0 (max_retries + 1)).
Proof.
  intros H. cbn in H. rewrite !List.Forall_cons_iff in H. unfold max_retries in H. lia.
Qed.



(** X26: a content extraction answered on every attempt with an HTTP
    status other than 200 is given up with the reason
    [connection_error], not [http_error]. *)
Theorem http_status_is_recorded_as_connection_error (url base_url : string) (w : World) :
  (forall n, exists status body, jina_get n url = Ok (status, body) /\ status <> 200%Z) ->
  exists w',
    process_single_url url base_url w = (w', Ok None)
    /\ PipelineFacts.failed_with CONNECTION_ERROR url w'
    /\ jina_calls w' = (jina_calls w + 3)%nat.
Proof.
  intros Hstatus.
  assert (Hfail : forall n, PipelineFacts.fetch_failure (extract_content_via_jina (jina_get n url))
                            = Some CONNECTION_ERROR).
  { intros n. destruct (Hstatus n) as (status & body & -> & Hne).
    unfold extract_content_via_jina. cbn [rbind fst].
    apply Z.eqb_neq in Hne. by rewrite Hne. }
  destruct (PipelineFacts.fetch_exhausts_retries jina_get swagger_extract invoke_model
              bedrock_client construct_prompt_for_aws_bedrock format_swagger_content_for_llm
              isoformat str url base_url w)
    as (r & w' & Hrun & Hr & Hfailed & Hcalls & _).
  { intros n. rewrite Hfail. by eexists. }
  rewrite Hfail in Hr. injection Hr as <-. exists w'. by repeat split.
Qed.


End Recorded.

(** *** Runs on one URL *)

Definition guide : string := "https://a.example/guide".

Definition bedrock_gave_up : FailureInfo :=
  {| reason := "bedrock_error";
     error_msg := "Failed to process content with Bedrock after all retries";
     timestamp := "2025-01-01T00:00:00" |}.

(** Every request is answered with the status 404. *)
Definition jina_misses (n : nat) (url : string) : result (Z * string) :=
  Ok (404%Z, "Not Found").



Lemma http_status_witness :
  exists w',
    process_single_url jina_misses PipelineFacts.check_finds_nothing
      PipelineFacts.bedrock_formats true PipelineFacts.the_prompt PipelineFacts.no_formatting
      PipelineFacts.midnight PipelineFacts.message guide "https://a.example" PipelineFacts.fresh
    = (w', Ok None)
    /\ PipelineFacts.failed_with CONNECTION_ERROR guide w'
    /\ jina_calls w' = (jina_calls PipelineFacts.fresh + 3)%nat.
Proof.
  apply (http_status_is_recorded_as_connection_error jina_misses
           PipelineFacts.check_finds_nothing PipelineFacts.bedrock_formats true
           PipelineFacts.the_prompt PipelineFacts.no_formatting PipelineFacts.midnight
           PipelineFacts.message guide "https://a.example" PipelineFacts.fresh).
  intros n. exists 404%Z, "Not Found". split; [reflexivity | discriminate].
Defined.

End RecordFacts.

(** ** The pipeline with its scraper, without its client, and cancelled *)

Module CompositionFacts.
Import Stats J Model SwaggerEnhancedScraper URLScraperApp.

Section Check.

Variable jina_get : nat -> string -> result (Z * string).
Variable swagger_extract : nat -> string -> string -> result ExtractResult.
Variable invoke_model : nat -> string -> InvokeOutcome.
Variable bedrock_client : bool.
Variable construct_prompt_for_aws_bedrock : string -> string -> string.
Variable format_swagger_content_for_llm : ExtractResult -> string -> string -> string.
Variable isoformat : nat -> string.
Variable str : exn -> string.

Hypothesis check_lets_no_exception_out :
  forall n url content e, swagger_extract n url content = Raise e -> is_Exception e = false.
Hypothesis check_says_swagger :
  forall n url content r, swagger_extract n url content = Ok r -> result_is_swagger r = true.

Local Abbreviation process_single_url :=
  (process_single_url jina_get swagger_extract invoke_model bedrock_client
     construct_prompt_for_aws_bedrock format_swagger_content_for_llm isoformat str).

(** A Swagger check that lets no [Exception] out and always says
    [is_swagger]. *)
Lemma check_that_catches_everything (url base_url : string) (w w' : World)
    (out : result (option Result)) :
  process_single_url url base_url w = (w', out) ->
  (forall u info,
      failed_urls (stats w') !! u = Some info ->
      failed_urls (stats w) !! u = Some info
      \/ (u = url
          /\ In (reason info)
                ["timeout_error"; "connection_error"; "content_extraction_error";
                 "bedrock_error"]))
  /\ (forall res, out = Ok (Some res) ->
        exists info, swagger_info res = Some info /\ info_is_swagger info = true)
  /\ (forall e, out = Raise e -> is_Exception e = false).
Proof using All.
  intros Hrun.
  assert (Hnever : forall n u content e,
            swagger_extract n u content = Raise e -> is_Exception e = true -> False).
  { intros n u content e Hraise He. apply check_lets_no_exception_out in Hraise. congruence. }
  pose proof (RecordFacts.attempts_loop_flow jina_get swagger_extract invoke_model
                bedrock_client construct_prompt_for_aws_bedrock format_swagger_content_for_llm
                isoformat str False Hnever (seq 0 (max_retries + 1)) url base_url w w) as Hflow.
  unfold URLScraperApp.process_single_url in Hrun. rewrite Hrun in Hflow.
  specialize (Hflow ltac:(by apply RecordFacts.kept_same)). cbn [fst snd] in Hflow.
  assert (Hkept : forall w1 u info, RecordFacts.kept False url w w1 ->
                    failed_urls (stats w1) !! u = Some info ->
                    failed_urls (stats w) !! u = Some info).
  { intros w1 u info Hk H1. by destruct (Hk u info H1) as [H | [[] _]]. }
  destruct out as [[res |] | e]; cbn [RecordFacts.loop_ok] in Hflow.
  - destruct Hflow as [Hk Hinfo]. split; [| split; [| discriminate]].
    + intros u info Hu. left. by apply (Hkept w').
    + intros res' [= <-]. destruct Hinfo as [(n & content & r & Hr & ->) | [[] _]].
      apply check_says_swagger in Hr. cbn [swagger_info_of]. rewrite Hr. by eexists.
  - split; [| split; discriminate].
    destruct Hflow as [(w1 & r & msg & Hr & Hk & ->) | [_ Hall]];
      [| by destruct RecordFacts.last_attempt_does_not_continue].
    intros u info.
    cbn [record_failure stats count_clock with_stats add_failure failed_urls with_failed_urls].
    destruct (decide (u = url)) as [-> | Hne].
    + rewrite lookup_insert_eq. intros [= <-]. right. split; [reflexivity |].
      cbn [reason]. cbn in Hr. destruct Hr as [<- | [<- | [<- | [<- | []]]]]; cbn; tauto.
    + rewrite lookup_insert_ne by done. intros Hu. left. by apply (Hkept w1).
  - destruct Hflow as [Hk He]. split; [| split; [discriminate |]].
    + intros u info Hu. left. by apply (Hkept w').
    + by intros e' [= <-].
Qed.

End Check.

Section Scraper.

Variable BeautifulSoup : string -> Soup.
Variable count_http_methods : string -> nat.
Variable spec_matches : SpecPattern -> string -> list string.
Variable urljoin : string -> string -> string.
Variable urlparse : string -> ParseResult.
Variable extract_examples_from_html : string -> result HtmlExamples.
Variable json_loads : string -> result json.
Variable py_add : json -> json -> result json.
(** The network as the [n]-th Swagger check finds it. *)
Variable http_get : nat -> string -> result (Z * string).
Variable jina_get : nat -> string -> result (Z * string).
Variable invoke_model : nat -> string -> InvokeOutcome.
Variable bedrock_client : bool.
Variable construct_prompt_for_aws_bedrock : string -> string -> string.
Variable format_swagger_content_for_llm : ExtractResult -> string -> string -> string.
Variable isoformat : nat -> string.
Variable str : exn -> string.

(** Line 1114: [self.swagger_scraper.enhanced_extract(url, markdown_content)]. *)
Definition scraper (n : nat) (url markdown_content : string) : result ExtractResult :=
  enhanced_extract BeautifulSoup count_http_methods spec_matches urljoin urlparse
    extract_examples_from_html json_loads py_add (http_get n) url (Some markdown_content).

Lemma scraper_lets_no_exception_out (n : nat) (url content : string) (e : exn) :
  scraper n url content = Raise e -> is_Exception e = false.
Proof. apply ExtractionFacts.enhanced_extract_raises. Qed.

Lemma scraper_says_swagger (n : nat) (url content : string) (r : ExtractResult) :
  scraper n url content = Ok r -> result_is_swagger r = true.
Proof. apply ExtractionFacts.enhanced_extract_given_html. Qed.

Local Abbreviation process_single_url :=
  (process_single_url jina_get scraper invoke_model bedrock_client
     construct_prompt_for_aws_bedrock format_swagger_content_for_llm isoformat str).


End Scraper.

Section NoClient.

Variable jina_get : nat -> string -> result (Z * string).
Variable swagger_extract : nat -> string -> string -> result ExtractResult.
Variable invoke_model : nat -> string -> InvokeOutcome.
Variable construct_prompt_for_aws_bedrock : string -> string -> string.
Variable format_swagger_content_for_llm : ExtractResult -> string -> string -> string.
Variable isoformat : nat -> string.
Variable str : exn -> string.

Local Abbreviation attempt_body :=
  (attempt_body jina_get swagger_extract invoke_model false
     construct_prompt_for_aws_bedrock format_swagger_content_for_llm isoformat str).
Local Abbreviation process_single_url :=
  (process_single_url jina_get swagger_extract invoke_model false
     construct_prompt_for_aws_bedrock format_swagger_content_for_llm isoformat str).

(** What one pass adds when the page is a Swagger page and there is no
    client. *)
Definition one_more (url : string) (r : ExtractResult) (w w3 : World) : Prop :=
  jina_calls w3 = S (jina_calls w)
  /\ swagger_calls w3 = S (swagger_calls w)
  /\ bedrock_calls w3 = bedrock_calls w
  /\ sleeps w3 = sleeps w
  /\ swagger_pages_detected (stats w3) = (swagger_pages_detected (stats w) + 1)%nat
  /\ swagger_urls (stats w3) = swagger_urls (stats w) ++ [url]
  /\ api_endpoints_extracted (stats w3)
     = (api_endpoints_extracted (stats w) + endpoints_count r)%nat
  /\ successful_urls (stats w3) = successful_urls (stats w).

Lemma attempt_without_client (attempt : nat) (url base_url : string) (r : ExtractResult)
    (w : World) :
  (forall n, exists content, extract_content_via_jina (jina_get n url) = Ok content
                             /\ content <> EmptyString) ->
  (forall n content, swagger_extract n url content = Ok r) ->
  result_is_swagger r && result_success r = true ->
  exists w3,
    attempt_body attempt url base_url w
    = retry_or_fail isoformat attempt url BEDROCK_ERROR
        "Failed to process content with Bedrock after all retries" w3
    /\ one_more url r w w3.
Proof.
  intros Hfetch Hcheck Hswagger.
  unfold URLScraperApp.attempt_body, extract_content_via_jina_rate_limited.
  destruct (Hfetch (jina_calls w)) as (content & -> & Hne).
  apply String.eqb_neq in Hne. rewrite Hne.
  unfold URLScraperApp.process_content. rewrite Hcheck, Hswagger.
  unfold process_with_bedrock_rate_limited, process_with_bedrock. cbn [negb].
  eexists. split; [reflexivity |]. unfold one_more. cbn. by repeat split.
Qed.

(** X29: without a Bedrock client every attempt still extracts the
    content and runs the Swagger check before it finds that the
    transformation gives nothing: the URL is fetched 3 times and
    checked 3 times, no model is invoked, and the URL is given up with
    [bedrock_error].  A page found to be a Swagger page is counted at
    each attempt: 3 pages detected, its URL 3 times in [swagger_urls],
    its endpoints added 3 times. *)
Theorem missing_client_is_found_after_every_check
    (url base_url : string) (r : ExtractResult) (w : World) :
  (forall n, exists content, extract_content_via_jina (jina_get n url) = Ok content
                             /\ content <> EmptyString) ->
  (forall n content, swagger_extract n url content = Ok r) ->
  result_is_swagger r && result_success r = true ->
  exists w',
    process_single_url url base_url w = (w', Ok None)
    /\ PipelineFacts.failed_with BEDROCK_ERROR url w'
    /\ jina_calls w' = (jina_calls w + 3)%nat
    /\ swagger_calls w' = (swagger_calls w + 3)%nat
    /\ bedrock_calls w' = bedrock_calls w
    /\ sleeps w' = sleeps w ++ [2; 2]%float
    /\ swagger_pages_detected (stats w') = (swagger_pages_detected (stats w) + 3)%nat
    /\ swagger_urls (stats w') = swagger_urls (stats w) ++ [url; url; url]
    /\ api_endpoints_extracted (stats w')
       = (api_endpoints_extracted (stats w) + 3 * endpoints_count r)%nat
    /\ successful_urls (stats w') = successful_urls (stats w).
Proof.
  intros Hfetch Hcheck Hswagger. unfold URLScraperApp.process_single_url.
  cbn [seq Nat.add max_retries URLScraperApp.attempts_loop].
  destruct (attempt_without_client 0 url base_url r w Hfetch Hcheck Hswagger)
    as (w1 & -> & H1).
  rewrite PipelineFacts.retry_or_fail_retries by (unfold max_retries; lia).
  destruct (attempt_without_client 1 url base_url r (sleep 2%float w1) Hfetch Hcheck Hswagger)
    as (w2 & -> & H2).
  rewrite PipelineFacts.retry_or_fail_retries by (unfold max_retries; lia).
  destruct (attempt_without_client 2 url base_url r (sleep 2%float w2) Hfetch Hcheck Hswagger)
    as (w3 & -> & H3).
  rewrite PipelineFacts.retry_or_fail_fails.
  eexists. split; [reflexivity |].
  split; [apply PipelineFacts.record_failure_failed_with |].
  destruct H1 as (J1 & S1 & B1 & L1 & P1 & U1 & E1 & O1).
  destruct H2 as (J2 & S2 & B2 & L2 & P2 & U2 & E2 & O2).
  destruct H3 as (J3 & S3 & B3 & L3 & P3 & U3 & E3 & O3).
  cbn [record_failure count_clock with_stats sleep stats jina_calls swagger_calls bedrock_calls
       sleeps add_failure with_failed_urls swagger_pages_detected swagger_urls
       api_endpoints_extracted successful_urls] in *.
  split; [lia |]. split; [lia |]. split; [congruence |].
  split; [by rewrite L3, L2, L1, <- app_assoc |].
  split; [lia |]. split; [by rewrite U3, U2, U1, <- !app_assoc |].
  split; [lia | congruence].
Qed.

End NoClient.

(** A check that finds a Swagger page with two endpoints. *)
Definition two_endpoints : ExtractResult :=
  Extracted 0.9%float "openapi_spec"
    {| api_info := {| title := JStr "Pets"; version := JNull; info_description := JNull;
                      info_base_url := JNull |};
       endpoints := []; total_endpoints := 2 |}
    None None.

Definition check_finds_swagger (n : nat) (url content : string) : result ExtractResult :=
  Ok two_endpoints.

Definition prose_scraper_run : World * result (option Result) :=
  process_single_url PipelineFacts.jina_serves
    (scraper (fun _ => ClassificationFacts.prose_soup) (fun _ => 0%nat) (fun _ _ => [])
       (fun _ m => m) ClassificationFacts.prose_urlparse
       (fun _ => Ok ClassificationFacts.no_examples) (fun _ => Raise JSONDecodeError)
       SpecParserFacts.add_strings (fun _ => ClassificationFacts.unreachable))
    PipelineFacts.bedrock_formats true PipelineFacts.the_prompt PipelineFacts.no_formatting
    PipelineFacts.midnight PipelineFacts.message RecordFacts.guide "https://a.example"
    PipelineFacts.fresh.


Lemma missing_client_witness :
  exists w',
    process_single_url PipelineFacts.jina_serves check_finds_swagger
      PipelineFacts.bedrock_formats false PipelineFacts.the_prompt PipelineFacts.no_formatting
      PipelineFacts.midnight PipelineFacts.message RecordFacts.guide "https://a.example"
      PipelineFacts.fresh = (w', Ok None)
    /\ PipelineFacts.failed_with BEDROCK_ERROR RecordFacts.guide w'
    /\ jina_calls w' = (jina_calls PipelineFacts.fresh + 3)%nat
    /\ swagger_calls w' = (swagger_calls PipelineFacts.fresh + 3)%nat
    /\ bedrock_calls w' = bedrock_calls PipelineFacts.fresh
    /\ sleeps w' = sleeps PipelineFacts.fresh ++ [2; 2]%float
    /\ swagger_pages_detected (stats w')
       = (swagger_pages_detected (stats PipelineFacts.fresh) + 3)%nat
    /\ swagger_urls (stats w')
       = swagger_urls (stats PipelineFacts.fresh)
         ++ [RecordFacts.guide; RecordFacts.guide; RecordFacts.guide]
    /\ api_endpoints_extracted (stats w')
       = (api_endpoints_extracted (stats PipelineFacts.fresh)
          + 3 * endpoints_count two_endpoints)%nat
    /\ successful_urls (stats w') = successful_urls (stats PipelineFacts.fresh).
Proof.
  apply (missing_client_is_found_after_every_check PipelineFacts.jina_serves
           check_finds_swagger PipelineFacts.bedrock_formats PipelineFacts.the_prompt
           PipelineFacts.no_formatting PipelineFacts.midnight PipelineFacts.message
           RecordFacts.guide "https://a.example" two_endpoints PipelineFacts.fresh).
  - intros n. exists "# Guide". split; [reflexivity | discriminate].
  - reflexivity.
  - reflexivity.
Defined.

(** *** A cancelled task *)

Lemma rfold_app {A B : Type} (f : B -> A -> result B) (l1 l2 : list A) (b : B) :
  rfold f (l1 ++ l2) b = (b' <-? rfold f l1 b ;; rfold f l2 b').
Proof.
  revert b. induction l1 as [| x l1 IH]; intros b; cbn [app rfold]; [reflexivity |].
  unfold rbind at 1 3. destruct (f b x); [apply IH | reflexivity].
Qed.

(** X30: the loop of [scrape_and_process] does not survive a
    cancelled task: at the first task that completes with what is no
    [Exception], it raises it, and the outcomes of the tasks that
    complete after it are not filed. *)
Theorem cancelled_task_ends_the_loop
    (isoformat : nat -> string) (str : exn -> string) (urls : list (string * string))
    (before after : list (result (option Result))) (e : exn) (st : Completion.LoopState) :
  (forall i url b, urls !! i = Some (url, b) ->
                   is_Some (Completion.processing_stats st !! b)) ->
  Forall (fun o => CompletionFacts.cancelled o = false) before ->
  is_Exception e = false ->
  Completion.file_outcomes isoformat str urls (before ++ Raise e :: after) st = Raise e.
Proof.
  intros Hkeys Hbefore He.
  destruct (CompletionFacts.file_outcomes_filed isoformat str urls before st Hkeys Hbefore)
    as (st1 & Hrun & _).
  unfold Completion.file_outcomes in *. rewrite imap_app, rfold_app, Hrun.
  cbn [rbind imap rfold Completion.file_outcome]. by rewrite He.
Qed.

Lemma cancelled_task_witness :
  Completion.file_outcomes (fun _ => "10:01") (fun _ => "error") CompletionFacts.two_urls
    ([Ok (Some CompletionFacts.result_of_y)] ++ Raise CancelledError :: [Ok None])
    CompletionFacts.before_the_loop
  = Raise CancelledError.
Proof.
  apply (cancelled_task_ends_the_loop (fun _ => "10:01") (fun _ => "error")
           CompletionFacts.two_urls [Ok (Some CompletionFacts.result_of_y)]
           [Ok None] CancelledError CompletionFacts.before_the_loop).
  - intros i url b Hi. exists (Stats.new CompletionFacts.site).
    destruct i as [| [| i]]; cbn in Hi; [| | discriminate Hi];
      injection Hi as _ <-; apply lookup_singleton_eq.
  - repeat constructor.
  - reflexivity.
Defined.

End CompositionFacts.
